(** * vue-ssr-build: route-update gate, Vuex module lifecycle, fetch pipeline

    A shallow embedding of [src/entry-client.js], [src/entry-server.js] and
    the shared helpers of [src/utils.js], with the properties of the
    specification stated and proved over it.

    JavaScript data is modelled as follows.
    - Strings are [string]; [name.split('/')] is [split_slash].
    - Values that flow through the code untyped (state tree, policy fields,
      rejections, fetch results) are the inductive [value].
    - Mutable state (the Vuex store, the removal queue of the client
      lifecycle manager, the calls made on collaborators) is threaded through
      a state-and-exception monad [M]; a thrown value is [inl].
    - The store, the router and the host application are collaborators: their
      operations are the fields of the class [Host].
    - Functions supplied by components (name functions, policy functions)
      are pure; hooks ([fetchData], middleware) run in [M] and return a
      promise outcome.
    - A number is NaN or the double nearest to a decimal.
    - A property read finds the own properties of a value here and asks
      the realm, a parameter of the development, for everything built in
      (prototype chains, built-in functions), so that the statements hold
      in every realm.
    - In the pipeline [perfMeasure] is recorded as a call; the timing API
      it drives, and the [beforeEach] hook that starts a trace, are
      modelled apart in [Perf]. *)

From Stdlib Require Import Ascii.
From stdpp Require Import base strings list gmap pretty sorting.

Set Default Proof Using "Type".
Set Warnings "-clear-no-such-hyp".
Local Open Scope string_scope.
Local Open Scope list_scope.
Local Open Scope Z_scope.

(** ** Numbers

    A number is given by a decimal, [s * 10^n], and stands for the double
    nearest to it (ties to even): zero when the decimal is too small, an
    infinity when it is too large.  Doubles are handled as fractions of
    integers. *)

(** A positive rational [p/q] divided by [2^e], as a fraction. *)
Definition over_pow2 (p q e : Z) : Z * Z :=
  if 0 <=? e then (p, q * 2 ^ e) else (p * 2 ^ (- e), q).

(** The same for a power of ten. *)
Definition over_pow10 (p q e : Z) : Z * Z :=
  if 0 <=? e then (p, q * 10 ^ e) else (p * 10 ^ (- e), q).

(** [a/b] rounded to the nearest integer, ties to even. *)
Definition round_div (a b : Z) : Z :=
  let q := a / b in
  let r := a mod b in
  if (b <? 2 * r) || ((2 * r =? b) && Z.odd q) then q + 1 else q.

(** The exponent [e] of the double nearest to [p/q]: [p/q] lies between
    [2^52 * 2^e] and [2^53 * 2^e], unless it is subnormal, where [e] is
    [-1074]. *)
Definition binary_exponent (p q : Z) : Z :=
  let e := Z.log2 p - Z.log2 q - 52 in
  let '(a, b) := over_pow2 p q e in
  Z.max (if a / b <? 2 ^ 52 then e - 1 else e) (- 1074).

(** The double nearest to the positive rational [p/q], ties to even, as a
    fraction; [2^1024] stands for infinity. *)
Definition nearest_double (p q : Z) : Z * Z :=
  let e := binary_exponent p q in
  let '(a, b) := over_pow2 p q e in
  let m := round_div a b in
  if 0 <=? e then (Z.min (m * 2 ^ e) (2 ^ 1024), 1) else (m, 2 ^ (- e)).

Definition same (x y : Z * Z) : bool := x.1 * y.2 =? y.1 * x.2.

(** The number of decimal digits of a positive integer. *)
Definition decimal_length (a : Z) : Z :=
  let d := Z.log2 a * 1233 / 4096 in
  if 10 ^ (d + 1) <=? a then d + 2 else d + 1.

(** The decimal exponent [n] of a positive rational:
    [10^(n-1) <= p/q < 10^n]. *)
Definition decimal_exponent (p q : Z) : Z :=
  let n := decimal_length p - decimal_length q in
  let '(a, b) := over_pow10 p q n in
  if b <=? a then n + 1 else n.

(** The decimal [s * 10^(n-k)] with [k] significant digits that reads back
    as the double [x], if there is one: the closer of the two around [x],
    the even one on a tie.  The result is [s]. *)
Definition with_digits (x : Z * Z) (n k : Z) : option Z :=
  let '(a, b) := over_pow10 x.1 x.2 (n - k) in
  let lo := a / b in
  let hi := lo + 1 in
  let reads_back s :=
    let '(c, d) := over_pow10 s 1 (k - n) in same (nearest_double c d) x in
  match reads_back lo, reads_back hi with
  | true, true =>
      if (2 * a <? (2 * lo + 1) * b) || ((2 * a =? (2 * lo + 1) * b) && Z.even lo)
      then Some lo else Some hi
  | true, false => Some lo
  | false, true => Some hi
  | false, false => None
  end.

Fixpoint strip_zeros (fuel : nat) (v : Z) : Z :=
  match fuel with
  | O => v
  | S fuel =>
      if (0 <? v) && (v mod 10 =? 0) then strip_zeros fuel (v / 10) else v
  end.

(** The least number of digits, from [k] on, with which a decimal reads
    back as the double [x], and its digits [s]. *)
Fixpoint fewest_digits (fuel : nat) (x : Z * Z) (n k : Z) : Z * Z :=
  match fuel with
  | O => (k, 0)
  | S fuel =>
      match with_digits x n k with
      | Some s => (k, s)
      | None => fewest_digits fuel x n (k + 1)
      end
  end.

(** The digits [s] and the exponent [n] of the shortest decimal
    [0.s * 10^n] that reads back as the positive double [x]; seventeen
    digits always suffice. *)
Definition shortest_decimal (x : Z * Z) : string * Z :=
  let n := decimal_exponent x.1 x.2 in
  let '(k, s) := fewest_digits 17 x n 1 in
  (pretty (strip_zeros 17 s), if s =? 10 ^ k then n + 1 else n).

Fixpoint zeros (n : nat) : string :=
  match n with O => EmptyString | S n => String "0"%char (zeros n) end.

Fixpoint split_at (n : nat) (s : string) : string * string :=
  match n, s with
  | S n, String c rest => let '(a, b) := split_at n rest in (String c a, b)
  | _, _ => (EmptyString, s)
  end.

(** [Number::toString] on the digits and the exponent of a positive finite
    number. *)
Definition digits_toString (s : string) (n : Z) : string :=
  let k := Z.of_nat (String.length s) in
  if (k <=? n) && (n <=? 21) then s +:+ zeros (Z.to_nat (n - k))
  else if (0 <? n) && (n <=? 21) then
    let '(a, b) := split_at (Z.to_nat n) s in a +:+ "." +:+ b
  else if (- 6 <? n) && (n <=? 0) then "0." +:+ zeros (Z.to_nat (- n)) +:+ s
  else
    let e := (if n - 1 <? 0 then "e-" else "e+") +:+ pretty (Z.abs (n - 1)) in
    match s with
    | String d EmptyString => String d e
    | String d rest => String d ("." +:+ rest +:+ e)
    | EmptyString => e
    end.

(** What the Number value for [s * 10^n] is: zero, infinite, or a finite
    double. *)
Inductive magnitude : Type := Zero | Infinite | Finite (x : Z * Z).

Definition magnitude_of (s n : Z) : magnitude :=
  if s =? 0 then Zero
  else
    let '(p, q) := over_pow10 (Z.abs s) 1 (- n) in
    let x := nearest_double p q in
    if x.1 =? 0 then Zero
    else if (2 ^ 1024 <=? x.1) then Infinite
    else Finite x.

(** [Number::toString(x)] (radix 10) for the Number value of [s * 10^n]. *)
Definition Number_toString (s n : Z) : string :=
  match magnitude_of s n with
  | Zero => "0"
  | Infinite => if s <? 0 then "-Infinity" else "Infinity"
  | Finite x =>
      let '(digits, e) := shortest_decimal x in
      (if s <? 0 then "-" else EmptyString) +:+ digits_toString digits e
  end.

(** The text of a number in JSON: [null] for an infinity. *)
Definition Number_json (s n : Z) : string :=
  match magnitude_of s n with
  | Infinite => "null"
  | _ => Number_toString s n
  end.

(** Whether the Number value for [s * 10^n] is zero. *)
Definition is_zero (s n : Z) : bool :=
  match magnitude_of s n with
  | Zero => true
  | _ => false
  end.

(** ** JavaScript values

    [VNum n] is the Number value for the integer [n] and [VDecimal s n] the
    one for [s * 10^n]: the double nearest to it; [VNaN] is the Number value
    NaN.  [VObj fields] is the plain object whose own enumerable data
    properties are the fields, defined in list order.  [VArr] is a dense
    array, [VError] an instance of [Error] itself. *)

#[warnings="-register-all"]
Inductive value : Type :=
| VUndefined
| VNull
| VBool (b : bool)
| VNum (n : Z)
| VDecimal (s n : Z)
| VNaN
| VBigInt (n : Z)
| VStr (s : string)
| VArr (elems : list value)
| VObj (fields : list (string * value))
| VError (message : string)
| VDOMException (name : string) (message : string).

(** A primitive field of a route record: absent, null or a string. *)
Inductive prim : Type :=
| PUndefined
| PNull
| PStr (s : string).

#[global] Instance prim_eq_dec : EqDecision prim.
Proof. solve_decision. Defined.

(** [a !== b] on primitives. *)
Definition strict_neq (a b : prim) : bool := negb (bool_decide (a = b)).

(** A primitive inside a template literal. *)
Definition template (p : prim) : string :=
  match p with
  | PUndefined => "undefined"
  | PNull => "null"
  | PStr s => s
  end.

(** [v === true] *)
Definition is_true (v : value) : bool :=
  match v with
  | VBool true => true
  | _ => false
  end.

(** Truthiness, as tested by [acc ? .. : ..]. *)
Definition truthy (v : value) : bool :=
  match v with
  | VUndefined | VNull | VNaN => false
  | VBool b => b
  | VNum n | VBigInt n => negb (n =? 0)
  | VDecimal s n => negb (is_zero s n)
  | VStr s => negb (bool_decide (s = EmptyString))
  | VArr _ | VObj _ | VError _ | VDOMException _ _ => true
  end.

(** [v == null]: null or undefined. *)
Definition nullish (v : value) : bool :=
  match v with
  | VUndefined | VNull => true
  | _ => false
  end.

(** [e instanceof Error]; a DOMException inherits from Error. *)
Definition instanceof_Error (v : value) : bool :=
  match v with
  | VError _ | VDOMException _ _ => true
  | _ => false
  end.

Definition instanceof_DOMException (v : value) : bool :=
  match v with
  | VDOMException _ _ => true
  | _ => false
  end.

(** ** Own properties *)

(** Defining the property [k] of an object: a key defined before keeps its
    place and takes the new value. *)
Fixpoint define {A} (k : string) (x : A) (props : list (string * A))
    : list (string * A) :=
  match props with
  | [] => [(k, x)]
  | (k', x') :: rest =>
      if bool_decide (k = k') then (k, x) :: rest else (k', x') :: define k x rest
  end.

(** The properties of [VObj fields] in creation order. *)
Definition defined {A} (fields : list (string * A)) : list (string * A) :=
  foldl (λ props f, define f.1 f.2 props) [] fields.

Definition digit (c : ascii) : option N :=
  let n := N_of_ascii c in
  if (48 <=? n)%N && (n <=? 57)%N then Some (n - 48)%N else None.

Fixpoint decimal (s : string) (acc : N) : option N :=
  match s with
  | EmptyString => Some acc
  | String c rest => d ← digit c; decimal rest (10 * acc + d)%N
  end.

(** The integer a property key is the canonical decimal text of. *)
Definition integer_key (k : string) : option N :=
  match k with
  | EmptyString => None
  | String "0"%char EmptyString => Some 0%N
  | String "0"%char _ => None
  | _ => decimal k 0
  end.

(** A key that is an array index: an integer below [2^32 - 1]. *)
Definition array_index (k : string) : option N :=
  i ← integer_key k; if (i <? 2 ^ 32 - 1)%N then Some i else None.

Fixpoint insert_index {A} (i : N) (x : A) (sorted : list (N * A)) : list (N * A) :=
  match sorted with
  | [] => [(i, x)]
  | (j, y) :: rest =>
      if (i <? j)%N then (i, x) :: (j, y) :: rest else (j, y) :: insert_index i x rest
  end.

(** The own properties of [VObj fields] in the order the engine enumerates
    them: array indices ascending, then the other keys in creation order. *)
Definition own_properties {A} (fields : list (string * A)) : list (string * A) :=
  let props := defined fields in
  let indexed := omap (λ p, i ← array_index p.1; Some (i, p)) props in
  let named := List.filter (λ p, negb (bool_decide (is_Some (array_index p.1)))) props in
  (snd <$> foldr (λ ip, insert_index ip.1 ip.2) [] indexed) ++ named.

Fixpoint assoc {A} (k : string) (props : list (string * A)) : option A :=
  match props with
  | [] => None
  | (k', v) :: rest => if bool_decide (k = k') then Some v else assoc k rest
  end.

(** The element at an index given as a binary number. *)
Definition at_index {A} (l : list A) (i : N) : option A :=
  if (i <? N.of_nat (length l))%N then l !! N.to_nat i else None.

(** The own property [k] of a value, if it has one: the fields of an
    object, the elements and the [length] of an array, the characters and
    the [length] of a string, the [message] of an Error.  What the accessors
    [name] and [message] give on a DOMException is part of the value too. *)
Definition own_property (v : value) (k : string) : option value :=
  match v with
  | VObj fields => assoc k (defined fields)
  | VArr elems =>
      if bool_decide (k = "length") then Some (VNum (Z.of_nat (length elems)))
      else i ← array_index k; at_index elems i
  | VStr s =>
      if bool_decide (k = "length") then Some (VNum (Z.of_nat (String.length s)))
      else
        i ← integer_key k;
        c ← at_index (String.list_ascii_of_string s) i;
        Some (VStr (String c EmptyString))
  | VError message =>
      if bool_decide (k = "message") then Some (VStr message) else None
  | VDOMException name message =>
      if bool_decide (k = "name") then Some (VStr name)
      else if bool_decide (k = "message") then Some (VStr message)
      else None
  | _ => None
  end.

(** What a property read can reach: a value, or an object the realm builds
    in (a function such as [Object] or a method of a prototype, or a
    prototype object), known by its name.  A built-in object is truthy and
    is not null. *)
Inductive reach : Type :=
| Data (v : value)
| Builtin (name : string).

Definition truthy_reach (r : reach) : bool :=
  match r with
  | Data v => truthy v
  | Builtin _ => true
  end.

Definition nullish_reach (r : reach) : bool :=
  match r with
  | Data v => nullish v
  | Builtin _ => false
  end.

(** ** Strings *)

Definition slash : ascii := "/"%char.

(** [s.split('/')] *)
Fixpoint split_slash (s : string) : list string :=
  match s with
  | EmptyString => [EmptyString]
  | String c rest =>
      if bool_decide (c = slash) then EmptyString :: split_slash rest
      else match split_slash rest with
           | [] => [String c EmptyString]
           | seg :: segs => String c seg :: segs
           end
  end.

(** [segs.join('/')], the inverse of [split_slash]. *)
Fixpoint join_slash (segs : list string) : string :=
  match segs with
  | [] => EmptyString
  | [seg] => seg
  | seg :: rest => seg +:+ String slash (join_slash rest)
  end.

(** Path-segment depth of a module name: [m.split('/').length]. *)
Definition depth (m : string) : nat := length (split_slash m).

(** ** [JSON.stringify] *)

Definition dquote : ascii := "034"%char.
Definition backslash : ascii := "092"%char.

Definition hex_digit (n : nat) : ascii :=
  default "0"%char (String.list_ascii_of_string "0123456789abcdef" !! n).

Definition escape_char (c : ascii) : string :=
  let n := nat_of_ascii c in
  if bool_decide (c = dquote) then String backslash (String dquote EmptyString)
  else if bool_decide (c = backslash) then String backslash (String backslash EmptyString)
  else if bool_decide (n = 8)%nat then String backslash "b"
  else if bool_decide (n = 9)%nat then String backslash "t"
  else if bool_decide (n = 10)%nat then String backslash "n"
  else if bool_decide (n = 12)%nat then String backslash "f"
  else if bool_decide (n = 13)%nat then String backslash "r"
  else if bool_decide (n < 32)%nat then
    String backslash
      ("u00" +:+ String (hex_digit (n / 16)) (String (hex_digit (n mod 16)) EmptyString))
  else String c EmptyString.

Fixpoint escape (s : string) : string :=
  match s with
  | EmptyString => EmptyString
  | String c rest => escape_char c +:+ escape rest
  end.

(** A string as a JSON string literal. *)
Definition quote (s : string) : string :=
  String dquote (escape s +:+ String dquote EmptyString).

Fixpoint join_comma (parts : list string) : string :=
  match parts with
  | [] => EmptyString
  | [p] => p
  | p :: rest => p +:+ "," +:+ join_comma rest
  end.

(** The three outcomes of [JSON.stringify(v)]: a TypeError (BigInt), the
    value [undefined], or the text. *)
Inductive json_result : Type :=
| JsonThrows
| JsonUndefined
| JsonText (s : string).

(** The elements of an array, serialized: [undefined] prints as [null]. *)
Fixpoint array_members (results : list json_result) : option (list string) :=
  match results with
  | [] => Some []
  | JsonThrows :: _ => None
  | JsonUndefined :: rest => cons "null" <$> array_members rest
  | JsonText t :: rest => cons t <$> array_members rest
  end.

(** The properties of an object, serialized: a key bound to [undefined] is
    dropped. *)
Fixpoint object_members (results : list (string * json_result))
    : option (list string) :=
  match results with
  | [] => Some []
  | (_, JsonThrows) :: _ => None
  | (_, JsonUndefined) :: rest => object_members rest
  | (k, JsonText t) :: rest => cons (quote k +:+ ":" +:+ t) <$> object_members rest
  end.

(** [JSON.stringify(v)].  A number that is not finite prints as [null]; the
    properties of an object are visited in the order of [own_properties];
    an Error has no enumerable property of its own and prints as an empty
    object. *)
Fixpoint JSON_stringify (v : value) : json_result :=
  match v with
  | VUndefined => JsonUndefined
  | VNull => JsonText "null"
  | VBool true => JsonText "true"
  | VBool false => JsonText "false"
  | VNum n => JsonText (Number_json n 0)
  | VDecimal s n => JsonText (Number_json s n)
  | VNaN => JsonText "null"
  | VBigInt _ => JsonThrows
  | VStr s => JsonText (quote s)
  | VArr elems =>
      let results :=
        (fix go (l : list value) : list json_result :=
           match l with
           | [] => []
           | x :: rest => JSON_stringify x :: go rest
           end) elems in
      match array_members results with
      | Some parts => JsonText ("[" +:+ join_comma parts +:+ "]")
      | None => JsonThrows
      end
  | VObj fields =>
      let results :=
        (fix go (l : list (string * value)) : list (string * json_result) :=
           match l with
           | [] => []
           | (k, x) :: rest => (k, JSON_stringify x) :: go rest
           end) fields in
      match object_members (own_properties results) with
      | Some parts => JsonText ("{" +:+ join_comma parts +:+ "}")
      | None => JsonThrows
      end
  | VError _ | VDOMException _ _ => JsonText "{}"
  end.

(** [new Error(message)]; an undefined message gives the empty message. *)
Definition new_Error (message : option string) : value :=
  VError (default EmptyString message).

(** ** lodash helpers *)

(** [uniq]: the first occurrence of every element, in order. *)
Fixpoint uniq_into (result : list string) (l : list string) : list string :=
  match l with
  | [] => result
  | x :: rest =>
      if bool_decide (x ∈ result) then uniq_into result rest
      else uniq_into (result ++ [x]) rest
  end.

Definition uniq (l : list string) : list string := uniq_into [] l.

(** [sortBy]: a stable sort, ascending in the key. *)
Fixpoint insert_by {A} (key : A → nat) (x : A) (sorted : list A) : list A :=
  match sorted with
  | [] => [x]
  | y :: rest =>
      if bool_decide (key x ≤ key y)%nat then x :: y :: rest
      else y :: insert_by key x rest
  end.

Definition sortBy {A} (l : list A) (key : A → nat) : list A :=
  foldr (insert_by key) [] l.

(** ** Routes *)

Inductive QueryValue : Type :=
| QUndefined
| QNull
| QStr (s : string)
| QList (items : list (option string)).

#[global] Instance QueryValue_eq_dec : EqDecision QueryValue.
Proof. solve_decision. Defined.

Record Route : Type := mkRoute {
  route_name : prim;
  route_path : prim;
  route_fullPath : prim;
  route_hash : prim;
  route_query : option (gmap string QueryValue);
  route_params : gmap string string;
}.

(** [get(r, 'name')], [get(r, 'path')], [get(r, 'hash')], where [r] may be
    undefined. *)
Definition get (r : option Route) (field : Route → prim) : prim :=
  match r with
  | Some r => field r
  | None => PUndefined
  end.

(** [get(r, 'query')] *)
Definition get_query (r : option Route) : option (gmap string QueryValue) :=
  r ≫= route_query.

(** [isEqual] on two query mappings (or undefined): deep equality,
    insensitive to key order. *)
Definition isEqual (a b : option (gmap string QueryValue)) : bool :=
  bool_decide (a = b).

(** ** Collaborators

    The store (Vuex), the router and the application object are supplied by
    the host.  The code only calls [hasModule], [registerModule],
    [unregisterModule] and reads [state] on the store; it treats the module
    definition, the app, the router and the SSR context as opaque. *)

Class Host : Type := {
  App : Type;
  RouterT : Type;
  SsrContext : Type;
  VuexModule : Type;
  Store : Type;
  hasModule : Store → list string → bool;
  registerModule : Store → list string → VuexModule → bool → Store;
  unregisterModule : Store → list string → Store;
  state : Store → value;
}.

(** The realm the code runs in.  [realm r k] is what the read [r[k]] gives
    when the answer is built in: any property of a built-in object [r], and
    for a value [r] a key that [r] does not own (what its prototype chain
    holds, accessors included, or [undefined]).  Nothing is assumed about
    it. *)
Class Realm : Type := realm : reach → string → reach.

(** What the host guarantees about dynamic registration: a module is present
    once registered, and registering at a free path removes no other module. *)
Class HostLaws (H : Host) : Prop := {
  hasModule_registered st p m b :
    hasModule (registerModule st p m b) p = true;
  hasModule_preserved st p m b p' :
    hasModule st p = false →
    hasModule st p' = true →
    hasModule (registerModule st p m b) p' = true;
}.

Section Core.
Context {H : Host}.

(** Calls made on the collaborators, in program order. *)
Inductive event : Type :=
| LoggerInfo (msg : string)
| LoggerDebug (msg : string)
| LoggerWarn (msg : string) (e : value)
| LoggerError (msg : string) (e : value)
| ConsoleLog
| RegisterModule (nameArr : list string) (m : VuexModule) (preserveState : bool)
| UnregisterModule (nameArr : list string)
| PerfMeasure (label : string)
| CallMiddleware
| CallGlobalFetchData
| CallFetchData (index : nat)
| CallPostMiddleware
| Next (arg : value).

(** Everything mutable: the store, the removal queue owned by the client
    lifecycle manager ([queuedRemovalModules]) and the calls made so far. *)
Record world : Type := mkWorld {
  w_store : Store;
  w_queue : list string;
  w_trace : list event;
}.

(** State and exceptions: [inl e] is [throw e]; the state survives a throw. *)
Definition M (A : Type) : Type := world → (value + A) * world.

Definition ret {A} (a : A) : M A := λ w, (inr a, w).

Definition bind {A B} (m : M A) (k : A → M B) : M B :=
  λ w, match m w with
       | (inl e, w') => (inl e, w')
       | (inr a, w') => k a w'
       end.

Definition throw {A} (e : value) : M A := λ w, (inl e, w).

(** [try { body } catch (e) { handler e }] *)
Definition try_catch {A} (body : M A) (handler : value → M A) : M A :=
  λ w, match body w with
       | (inl e, w') => handler e w'
       | (inr a, w') => (inr a, w')
       end.

Definition emit (e : event) : M unit :=
  λ w, (inr (), mkWorld (w_store w) (w_queue w) (w_trace w ++ [e])).

Definition get_store : M Store := λ w, (inr (w_store w), w).

Definition put_store (st : Store) : M unit :=
  λ w, (inr (), mkWorld st (w_queue w) (w_trace w)).

Definition get_queue : M (list string) := λ w, (inr (w_queue w), w).

Definition put_queue (q : list string) : M unit :=
  λ w, (inr (), mkWorld (w_store w) q (w_trace w)).

(** A pure computation that may throw. *)
Definition lift {A} (r : value + A) : M A := λ w, (r, w).

End Core.

#[global] Instance M_ret {H : Host} : MRet M := @ret H.
#[global] Instance M_bind {H : Host} : MBind M := λ A B k m, bind m k.

Section Program.
Context {H : Host} {R : Realm}.

(** [arr.forEach(f)] *)
Fixpoint forEach {A} (f : A → M unit) (arr : list A) : M unit :=
  match arr with
  | [] => ret ()
  | x :: rest => f x;; forEach f rest
  end.

(** *** Store calls *)

Definition store_hasModule (nameArr : list string) : M bool :=
  st ← get_store; ret (hasModule st nameArr).

Definition store_registerModule (nameArr : list string) (m : VuexModule)
    (preserveState : bool) : M unit :=
  st ← get_store;
  emit (RegisterModule nameArr m preserveState);;
  put_store (registerModule st nameArr m preserveState).

Definition store_unregisterModule (nameArr : list string) : M unit :=
  st ← get_store;
  emit (UnregisterModule nameArr);;
  put_store (unregisterModule st nameArr).

(** *** Shared helpers ([utils]) *)

Record FetchDataArgs : Type := mkFetchDataArgs {
  fda_ssrContext : option SsrContext;
  fda_app : App;
  fda_from : option Route;
  fda_route : Route;
  fda_router : RouterT;
  fda_store : Store;
}.

Definition getFetchDataArgs (ssrContext : option SsrContext) (app : App)
    (router : RouterT) (st : Store) (to : Route) (from : option Route)
    : FetchDataArgs :=
  {| fda_ssrContext := ssrContext;
     fda_app := app;
     fda_from := from;
     fda_route := to;
     fda_router := router;
     fda_store := st |}.

(** A module name: a literal, or a function of the object it is handed. *)
Inductive ModuleName : Type :=
| NameLiteral (s : string)
| NameFn (f : gmap string Route → string).

Record VuexModuleDef : Type := mkVuexModuleDef {
  moduleName : ModuleName;
  module : VuexModule;
}.

Definition getModuleName (vuexModuleDef : VuexModuleDef) (route : Route) : string :=
  match moduleName vuexModuleDef with
  | NameFn f => f {[ "$route" := route ]}
  | NameLiteral s => s
  end.

(** [acc[k]]: an own property of [acc] when it has one under [k], else
    what the realm answers.  The code never reads a property of [null] or
    [undefined] (both are falsy), which would throw. *)
Definition get_prop (acc : reach) (k : string) : reach :=
  match acc with
  | Data v =>
      match own_property v k with
      | Some x => Data x
      | None => realm acc k
      end
  | Builtin _ => realm acc k
  end.

Definition getModuleState (st : Store) (nameArr : list string) : reach :=
  foldl (λ acc k, if truthy_reach acc then get_prop acc k else Data VNull)
        (Data (state st)) nameArr.

Definition safelyRegisterModule (name : string) (vuexModule : VuexModule) : M unit :=
  let nameArr := split_slash name in
  has ← store_hasModule nameArr;
  if has : bool then
    emit (LoggerInfo ("Skipping duplicate dynamic Vuex module registration: " +:+ name))
  else
    emit (LoggerInfo ("Registering dynamic Vuex module: " +:+ name));;
    st ← get_store;
    store_registerModule nameArr vuexModule
      (negb (nullish_reach (getModuleState st nameArr))).

(** *** Components *)

(** The [shouldProcessRouteUpdate] option of a component. *)
Inductive Policy : Type :=
| PolicyAbsent
| PolicyFn (f : FetchDataArgs → value)
| PolicyObj (fields : gmap string value).

(** The [vuex] option of a component: one declaration or an array. *)
Inductive VuexDecl : Type :=
| VuexOne (def : VuexModuleDef)
| VuexMany (defs : list VuexModuleDef).

(** What a hook returns: a promise that settles, or a plain value (which
    counts as resolved).  The tick of a rejection orders rejections in time. *)
Inductive promise : Type :=
| Resolved (v : value)
| Rejected (tick : nat) (reason : value).

Definition hook : Type := FetchDataArgs → M promise.

Record Component : Type := mkComponent {
  c_shouldProcessRouteUpdate : Policy;
  c_vuex : option VuexDecl;
  c_fetchData : option hook;
}.

Record Opts : Type := mkOpts {
  middleware : option hook;
  globalFetchData : option hook;
  postMiddleware : option hook;
}.

(** ['vuex' in c] *)
Definition has_vuex (c : Component) : bool := bool_decide (is_Some (c_vuex c)).

(** The callback of [flatMap(c => c.vuex)]. *)
Definition vuex_of (c : Component) : list VuexModuleDef :=
  match c_vuex c with
  | Some (VuexOne def) => [def]
  | Some (VuexMany defs) => defs
  | None => []
  end.

(** *** The route-update gate ([entry-client]) *)

Definition default_policy : gmap string value :=
  {[ "path" := VBool true; "query" := VBool false; "hash" := VBool false ]}.

(** [{ path: true, query: false, hash: false, ...p }] *)
Definition spread_over_defaults (p : Policy) : gmap string value :=
  match p with
  | PolicyObj fields => fields ∪ default_policy
  | _ => default_policy
  end.

Definition field_is_true (o : gmap string value) (k : string) : bool :=
  is_true (default VUndefined (o !! k)).

Definition shouldProcessRouteUpdate (c : Component) (fetchDataArgs : FetchDataArgs)
    : bool :=
  let from := fda_from fetchDataArgs in
  let route := Some (fda_route fetchDataArgs) in
  if strict_neq (get from route_name) (get route route_name) then true
  else match c_shouldProcessRouteUpdate c with
  | PolicyFn f => is_true (f fetchDataArgs)
  | p =>
      let o := spread_over_defaults p in
      (field_is_true o "path"
         && strict_neq (get from route_path) (get route route_path))
      || (field_is_true o "query"
         && negb (isEqual (get_query from) (get_query route)))
      || (field_is_true o "hash"
         && strict_neq (get from route_hash) (get route route_hash))
  end.

(** [getMatchedComponents(route)] of [utils] enumerates the components
    matched by a route and throws on a malformed one.  It is not part of the
    sources at hand, so the development is parametric in it, as it is in the
    router's own [router.getMatchedComponents] and [router.currentRoute]. *)
Variable getMatchedComponents : Route → value + list Component.
Variable router_getMatchedComponents : RouterT → option Route → list Component.
Variable currentRoute : RouterT → Route.

(** The module names declared by the components matched by [route]. *)
Definition moduleNamesOf (components : list Component) (route : Route) : list string :=
  map (λ vuexModuleDef, getModuleName vuexModuleDef route)
      (flat_map vuex_of (List.filter has_vuex components)).

(** *** Client module lifecycle ([useRouteVuexModulesClient]) *)

(** The hook passed to [router.beforeResolve]. *)
Definition useRouteVuexModulesClient_beforeResolve (app : App) (router : RouterT)
    (to from : Route) : M unit :=
  try_catch
    (st ← get_store;
     let fetchDataArgs := getFetchDataArgs None app router st to (Some from) in
     components ← lift (getMatchedComponents to);
     forEach
       (λ vuexModuleDef,
          let name := getModuleName vuexModuleDef to in
          safelyRegisterModule name (module vuexModuleDef))
       (flat_map vuex_of
          (List.filter (λ c, shouldProcessRouteUpdate c fetchDataArgs)
             (List.filter has_vuex components)));;
     emit (Next VUndefined))
    (λ e,
       (if instanceof_DOMException e then
          emit (LoggerError
                  ("DOMException "
                   +:+ match e with VDOMException n _ => n | _ => EmptyString end
                   +:+ " occurred during client-side routing "
                   +:+ String "010"%char "                              from "
                   +:+ template (route_fullPath from) +:+ " to "
                   +:+ template (route_fullPath to)) e)
        else emit (LoggerError "Caught error during beforeResolve" e));;
       emit (Next e)).

(** [queuedRemovalModules.pop()]: the last element and the rest. *)
Definition pop {A} (arr : list A) : option (A * list A) :=
  match reverse arr with
  | [] => None
  | x :: rest => Some (x, reverse rest)
  end.

(** The [while (queuedRemovalModules.length > 0)] loop; [fuel] bounds the
    number of iterations and [requeueModules] is the local array it fills. *)
Fixpoint drain (fuel : nat) (toModuleNames fromModuleNames requeueModules : list string)
    : M (list string) :=
  match fuel with
  | O => ret requeueModules
  | S fuel =>
      q ← get_queue;
      match pop q with
      | None => ret requeueModules
      | Some (name, q') =>
          put_queue q';;
          let nameArr := split_slash name in
          if bool_decide (name ∈ toModuleNames ++ fromModuleNames) then
            emit (LoggerInfo
                    ("Skipping deregistration for active dynamic Vuex module: " +:+ name));;
            drain fuel toModuleNames fromModuleNames (requeueModules ++ [name])
          else
            has ← store_hasModule nameArr;
            (if has : bool then
               emit (LoggerInfo ("Unregistering dynamic Vuex module: " +:+ name));;
               store_unregisterModule nameArr
             else
               emit (LoggerInfo ("No existing dynamic module to unregister: " +:+ name)));;
            drain fuel toModuleNames fromModuleNames requeueModules
      end
  end.

(** The hook passed to [router.afterEach]. *)
Definition useRouteVuexModulesClient_afterEach (app : App) (router : RouterT)
    (to from : Route) : M unit :=
  st ← get_store;
  let fetchDataArgs := getFetchDataArgs None app router st to (Some from) in
  components ← lift (getMatchedComponents to);
  let shouldProcess :=
    negb (length (List.filter (λ c, shouldProcessRouteUpdate c fetchDataArgs) components)
          =? 0)%nat in
  if negb shouldProcess then ret ()
  else
    toComponents ← lift (getMatchedComponents to);
    let toModuleNames := moduleNamesOf toComponents to in
    fromComponents ← lift (getMatchedComponents from);
    let fromModuleNames := moduleNamesOf fromComponents from in
    q ← get_queue;
    requeueModules ← drain (length q) toModuleNames fromModuleNames [];
    let nextRouteRemovals := uniq (requeueModules ++ fromModuleNames) in
    let sortedRouteRemovals := sortBy nextRouteRemovals depth in
    q ← get_queue;
    put_queue (q ++ sortedRouteRemovals).

(** *** Fetch pipeline *)

(** [await p]: a rejection is rethrown at the await. *)
Definition await (p : M promise) : M value :=
  r ← p;
  match r with
  | Resolved v => ret v
  | Rejected _ e => throw e
  end.

(** The rejection that settles first; the earlier array position wins a tie. *)
Fixpoint first_rejection (ps : list promise) : option (nat * value) :=
  match ps with
  | [] => None
  | Resolved _ :: rest => first_rejection rest
  | Rejected t e :: rest =>
      match first_rejection rest with
      | Some (t', e') => if (t' <? t)%nat then Some (t', e') else Some (t, e)
      | None => Some (t, e)
      end
  end.

Definition resolved_value (p : promise) : value :=
  match p with
  | Resolved v => v
  | Rejected _ _ => VUndefined
  end.

(** [await Promise.all(ps)] on promises already created. *)
Definition Promise_all (ps : list promise) : M (list value) :=
  match first_rejection ps with
  | Some (_, e) => throw e
  | None => ret (map resolved_value ps)
  end.

(** Evaluating the elements of an array literal, left to right. *)
Fixpoint sequence {A} (ms : list (M A)) : M (list A) :=
  match ms with
  | [] => ret []
  | m :: rest => a ← m; as' ← sequence rest; ret (a :: as')
  end.

(** [opts && opts.middleware], and likewise for the other options. *)
Definition opt (opts : option Opts) (field : Opts → option hook) : option hook :=
  opts ≫= field.

(** [h && h(fetchDataArgs)]: a missing hook leaves [undefined] in the array. *)
Definition call_if_present (h : option hook) (e : event) (fetchDataArgs : FetchDataArgs)
    : M promise :=
  match h with
  | Some f => emit e;; f fetchDataArgs
  | None => ret (Resolved VUndefined)
  end.

(** [if (h) { await h(fetchDataArgs); }] *)
Definition await_if_present (h : option hook) (e : event) (fetchDataArgs : FetchDataArgs)
    : M unit :=
  match h with
  | Some f => await (emit e;; f fetchDataArgs);; ret ()
  | None => ret ()
  end.

(** The array handed to [Promise.all]. *)
Definition fetchCalls (opts : option Opts) (components : list Component)
    (fetchDataArgs : FetchDataArgs) : list (M promise) :=
  call_if_present (opt opts globalFetchData) CallGlobalFetchData fetchDataArgs
  :: imap (λ i c, call_if_present (c_fetchData c) (CallFetchData i) fetchDataArgs)
       components.

(** [perfMeasure(name)]: the timing API is outside the model; the call is
    recorded and never throws. *)
Definition perfMeasure (label : string) : M unit := emit (PerfMeasure label).

(** The catch block of the client pipeline. *)
Definition normalize_and_cancel (e : value) : M unit :=
  emit (LoggerWarn "Error fetching component data, preventing routing" e);;
  if instanceof_Error e then emit (Next e)
  else match e with
       | VStr s => emit (Next (new_Error (Some s)))
       | _ =>
           try_catch
             (match JSON_stringify e with
              | JsonThrows => throw (VError "JSON.stringify")
              | JsonUndefined => emit (Next (new_Error None))
              | JsonText t => emit (Next (new_Error (Some t)))
              end)
             (λ e2, emit (Next (new_Error (Some "Unknown routing error"))))
       end.

(** The try block of the hook below. *)
Definition useFetchDataClient_try (opts : option Opts) (to : Route)
    (routeUpdateStr : string) (fetchDataArgs : FetchDataArgs) : M unit :=
  matched ← lift (getMatchedComponents to);
  let components :=
    List.filter (λ c, shouldProcessRouteUpdate c fetchDataArgs) matched in
  if (length components =? 0)%nat then
    emit (LoggerDebug ("Ignoring route update " +:+ routeUpdateStr));;
    emit (Next VUndefined)
  else
    emit (LoggerDebug
            ("Running middleware/fetchData for route update " +:+ routeUpdateStr));;
    perfMeasure "beforeResolve";;
    await_if_present (opt opts middleware) CallMiddleware fetchDataArgs;;
    perfMeasure "middleware-complete";;
    ps ← sequence (fetchCalls opts components fetchDataArgs);
    results ← Promise_all ps;
    perfMeasure "fetchData-complete";;
    await_if_present (opt opts postMiddleware) CallPostMiddleware fetchDataArgs;;
    emit (Next (default VUndefined (find (λ r, negb (nullish r)) results))).

(** The hook passed to [router.beforeResolve] by [useFetchDataClient]. *)
Definition useFetchDataClient_beforeResolve (app : App) (router : RouterT)
    (opts : option Opts) (to from : Route) : M unit :=
  let routeUpdateStr :=
    template (route_fullPath from) +:+ " -> " +:+ template (route_fullPath to) in
  st ← get_store;
  let fetchDataArgs := getFetchDataArgs None app router st to (Some from) in
  try_catch
    (useFetchDataClient_try opts to routeUpdateStr fetchDataArgs)
    normalize_and_cancel.

(** *** Server entry ([entry-server]) *)

Definition useRouteVuexModulesServer (router : RouterT) : M unit :=
  forEach
    (λ vuexModuleDef,
       let name := getModuleName vuexModuleDef (currentRoute router) in
       safelyRegisterModule name (module vuexModuleDef))
    (flat_map vuex_of (List.filter has_vuex (router_getMatchedComponents router None))).

(** An async function: a thrown value is the rejection of the promise it
    returns. *)
Definition useFetchDataServer (ssrContext : option SsrContext) (app : App)
    (router : RouterT) (opts : option Opts) : M unit :=
  let route := currentRoute router in
  st ← get_store;
  let fetchDataArgs := getFetchDataArgs ssrContext app router st route None in
  let components := router_getMatchedComponents router (Some route) in
  emit ConsoleLog;;
  await_if_present (opt opts middleware) CallMiddleware fetchDataArgs;;
  ps ← sequence (fetchCalls opts components fetchDataArgs);
  _ ← Promise_all ps;
  await_if_present (opt opts postMiddleware) CallPostMiddleware fetchDataArgs.

End Program.

(** * The timing instrumentation ([entry-client])

    [window.performance] is null, undefined, or an object holding the
    entries recorded so far; an old browser's object may lack
    [getEntriesByType]. *)

Module Perf.

Inductive PerformanceEntry : Type :=
| MarkEntry (name : string)
| MeasureEntry (name : string) (markName : string).

Definition entry_name (e : PerformanceEntry) : string :=
  match e with
  | MarkEntry n => n
  | MeasureEntry n _ => n
  end.

Definition is_mark (e : PerformanceEntry) : bool :=
  match e with
  | MarkEntry _ => true
  | MeasureEntry _ _ => false
  end.

Record Performance : Type := mkPerformance {
  has_getEntriesByType : bool;
  entries : list PerformanceEntry;
}.

Inductive WindowPerformance : Type :=
| PerfNull
| PerfUndefined
| PerfObject (p : Performance).

(** [s.startsWith(p)] *)
Fixpoint startsWith (s p : string) : bool :=
  match p, s with
  | EmptyString, _ => true
  | String _ _, EmptyString => false
  | String c p', String d s' => bool_decide (c = d) && startsWith s' p'
  end.

(** [s.endsWith(p)] *)
Fixpoint endsWith (s p : string) : bool :=
  bool_decide (s = p)
  || match s with
     | EmptyString => false
     | String _ s' => endsWith s' p
     end.

Definition bar : ascii := "|"%char.

(** [s.split('|')] *)
Fixpoint split_bar (s : string) : list string :=
  match s with
  | EmptyString => [EmptyString]
  | String c rest =>
      if bool_decide (c = bar) then EmptyString :: split_bar rest
      else match split_bar rest with
           | [] => [String c EmptyString]
           | seg :: segs => String c seg :: segs
           end
  end.

(** An array element inside a template literal; a missing one reads
    [undefined]. *)
Definition template_elem (segs : list string) (i : nat) : string :=
  default "undefined" (segs !! i).

Definition PERF_PREFIX : string := "urbnperf".

(** [performance.getEntriesByType('mark')] and [('measure')] *)
Definition getEntriesByType (mark : bool) (es : list PerformanceEntry)
    : list PerformanceEntry :=
  List.filter (λ e, bool_decide (is_mark e = mark)) es.

(** [performance.clearMarks(name)] and [performance.clearMeasures(name)] *)
Definition clearEntries (mark : bool) (name : string) (es : list PerformanceEntry)
    : list PerformanceEntry :=
  List.filter
    (λ e, negb (bool_decide (is_mark e = mark) && bool_decide (entry_name e = name)))
    es.

Definition perfAvailable (wp : WindowPerformance) : value + bool :=
  match wp with
  | PerfNull => inr false
  | PerfUndefined => inl (VError "Cannot read properties of undefined")
  | PerfObject p => inr (has_getEntriesByType p)
  end.

Definition getCurrentPerfMark (es : list PerformanceEntry) : option PerformanceEntry :=
  find (λ m, startsWith (entry_name m) PERF_PREFIX && endsWith (entry_name m) "start")
       (getEntriesByType true es).

Definition startMarkName (to from : Route) : string :=
  PERF_PREFIX +:+ "|" +:+ template (route_name from) +:+ "->"
  +:+ template (route_name to) +:+ "|start".

(** [perfInit(to, from)], on the entries of an available timing API. *)
Definition perfInit (to from : Route) (es : list PerformanceEntry)
    : list PerformanceEntry :=
  let es1 :=
    foldl (λ acc m, clearEntries true (entry_name m) acc) es
      (List.filter (λ m, startsWith (entry_name m) PERF_PREFIX)
         (getEntriesByType true es)) in
  let es2 :=
    foldl (λ acc m, clearEntries false (entry_name m) acc) es1
      (List.filter (λ m, startsWith (entry_name m) PERF_PREFIX)
         (getEntriesByType false es1)) in
  es2 ++ [MarkEntry (startMarkName to from)].

(** [perfMeasure(name)]: what it returns (or throws) and the timing API it
    leaves. *)
Definition perfMeasure (name : string) (wp : WindowPerformance)
    : (value + bool) * WindowPerformance :=
  match perfAvailable wp with
  | inl e => (inl e, wp)
  | inr false => (inr false, wp)
  | inr true =>
      match wp with
      | PerfObject p =>
          match getCurrentPerfMark (entries p) with
          | None => (inr false, wp)
          | Some mark =>
              let segs := split_bar (entry_name mark) in
              let measureName :=
                template_elem segs 0 +:+ "|" +:+ template_elem segs 1
                +:+ "|" +:+ name in
              (inr true,
               PerfObject
                 (mkPerformance (has_getEntriesByType p)
                    (entries p ++ [MeasureEntry measureName (entry_name mark)])))
          end
      | _ => (inr false, wp)
      end
  end.

Section Hook.
Context {H : Host} {R : Realm}.
Variable getMatchedComponents : Route → value + list Component.

(** The hook [useFetchDataClient] passes to [router.beforeEach] when the
    timing API is available: the entries it leaves and its [next()] call,
    or what it throws. *)
Definition useFetchDataClient_beforeEach (app : App) (router : RouterT) (st : Store)
    (to from : Route) (es : list PerformanceEntry)
    : value + (list PerformanceEntry * list event) :=
  let fetchDataArgs := getFetchDataArgs None app router st to (Some from) in
  match getMatchedComponents to with
  | inl e => inl e
  | inr matched =>
      let components :=
        List.filter (λ c, shouldProcessRouteUpdate c fetchDataArgs) matched in
      let es' := if (length components =? 0)%nat then es else perfInit to from es in
      inr (es', [Next VUndefined])
  end.

End Hook.

End Perf.

(** * The development server ([setup-dev-server])

    [setupDevServer] keeps three variables ([serverBundle], [template],
    [clientManifest]) and reacts to three callbacks: the template watcher,
    the client compiler's [done] hook and the server compiler's watch
    callback.  What a callback reads from disk comes with the event: [inl]
    when reading or parsing throws. *)

Module DevServer.

Record state : Type := mkState {
  serverBundle : value;
  template : string;
  clientManifest : value;
  readyPromise : option value;
}.

(** What the callbacks do to the outside. *)
Inductive output : Type :=
| ConsoleLogged (msg : string)
| ConsoleErrored (msg : string)
| ReadyCalled (arg : value)
| CbCalled (bundle : value) (options : value)
| Thrown (e : value).

Inductive callback : Type :=
| TemplateChanged (contents : value + string)
| ClientDone (errors : nat) (manifest : value + value)
| ServerDone (err : value) (errors : nat) (bundle : value + value).

(** The state [setupDevServer] starts its callbacks from, once the template
    is read. *)
Definition init (contents : string) : state :=
  mkState VUndefined contents VUndefined None.

(** [ready(v)]: resolving a promise a second time does nothing. *)
Definition resolve (p : option value) (v : value) : option value :=
  match p with
  | Some v0 => Some v0
  | None => Some v
  end.

Definition update (s : state) : state * list output :=
  if truthy (serverBundle s) && truthy (clientManifest s) then
    let arg := VObj [("clientManifest", clientManifest s)] in
    (mkState (serverBundle s) (template s) (clientManifest s)
       (resolve (readyPromise s) arg),
     [ReadyCalled arg;
      CbCalled (serverBundle s)
        (VObj [("template", VStr (template s));
               ("clientManifest", clientManifest s)])])
  else (s, []).

Definition after (out : list output) (r : state * list output) : state * list output :=
  (r.1, out ++ r.2).

(** One callback invocation. *)
Definition step (s : state) (c : callback) : state * list output :=
  match c with
  | TemplateChanged contents =>
      let out := [ConsoleErrored "Template file updated"] in
      match contents with
      | inl e => (s, out ++ [Thrown e])
      | inr t =>
          after out
            (update (mkState (serverBundle s) t (clientManifest s) (readyPromise s)))
      end
  | ClientDone errors manifest =>
      let out := [ConsoleLogged "Completed client webpack build"] in
      if negb (errors =? 0)%nat then (s, out)
      else match manifest with
           | inl e => (s, out ++ [Thrown e])
           | inr m =>
               after out
                 (update (mkState (serverBundle s) (template s) m (readyPromise s)))
           end
  | ServerDone err errors bundle =>
      let out := [ConsoleLogged "Completed server webpack build"] in
      if truthy err then (s, out ++ [Thrown err])
      else if negb (errors =? 0)%nat then (s, out)
      else match bundle with
           | inl e => (s, out ++ [Thrown e])
           | inr b =>
               after out
                 (update (mkState b (template s) (clientManifest s) (readyPromise s)))
           end
  end.

(** A sequence of callback invocations. *)
Fixpoint run (s : state) (cs : list callback) : state * list output :=
  match cs with
  | [] => (s, [])
  | c :: rest =>
      let '(s1, out1) := step s c in
      let '(s2, out2) := run s1 rest in
      (s2, out1 ++ out2)
  end.

End DevServer.

(** * Vocabulary of the statements *)

(** Ascending order of a key, as produced by [sortBy]. *)
Definition key_le {A} (key : A → nat) (a b : A) : Prop := (key a ≤ key b)%nat.

Section Vocabulary.
Context {H : Host} {R : Realm}.

(** The events a computation adds to the trace. *)
Definition emitted (w w' : world) : list event :=
  drop (length (w_trace w)) (w_trace w').

(** The paths handed to [store.unregisterModule], in call order. *)
Definition unregister_calls (evs : list event) : list (list string) :=
  omap (λ e, match e with UnregisterModule p => Some p | _ => None end) evs.

(** The paths handed to [store.registerModule], in call order. *)
Definition register_calls (evs : list event) : list (list string) :=
  omap (λ e, match e with RegisterModule p _ _ => Some p | _ => None end) evs.

(** One pass over the queued names in pop order: the store reached and the
    events issued. *)
Fixpoint drained (active names : list string) (st : Store) : Store * list event :=
  match names with
  | [] => (st, [])
  | name :: rest =>
      if bool_decide (name ∈ active) then
        let '(st', evs) := drained active rest st in
        (st', LoggerInfo
                ("Skipping deregistration for active dynamic Vuex module: " +:+ name)
              :: evs)
      else if hasModule st (split_slash name) then
        let '(st', evs) :=
          drained active rest (unregisterModule st (split_slash name)) in
        (st', LoggerInfo ("Unregistering dynamic Vuex module: " +:+ name)
              :: UnregisterModule (split_slash name) :: evs)
      else
        let '(st', evs) := drained active rest st in
        (st', LoggerInfo ("No existing dynamic module to unregister: " +:+ name)
              :: evs)
  end.

(** The names the loop requeues: the queued names still active, in pop order. *)
Definition requeued (active q : list string) : list string :=
  filter (λ n, n ∈ active) (reverse q).



(** The Error the router receives for a rejection: an Error as it is, a
    string wrapped, anything else wrapped in its JSON text. *)
Definition normalized (e : value) : value :=
  if instanceof_Error e then e
  else match e with
       | VStr s => VError s
       | _ => match JSON_stringify e with
              | JsonText t => VError t
              | JsonUndefined => VError EmptyString
              | JsonThrows => VError "Unknown routing error"
              end
       end.

(** A policy that sets none of [path], [query], [hash] away from the
    defaults. *)
Definition policy_is_default (p : Policy) : Prop :=
  match p with
  | PolicyAbsent => True
  | PolicyFn _ => False
  | PolicyObj fields =>
      ∀ k, k ∈ ["path"; "query"; "hash"] →
        fields !! k = None ∨ fields !! k = default_policy !! k
  end.

(** Name resolution as the specification words it: a function-valued name
    is handed an object whose [route] key holds the route. *)
Definition getModuleName_route_key (vuexModuleDef : VuexModuleDef) (route : Route)
    : string :=
  match moduleName vuexModuleDef with
  | NameFn f => f {[ "route" := route ]}
  | NameLiteral s => s
  end.

(** One pass of the shared registration routine over named modules: the
    store reached and the events issued. *)
Fixpoint registering (modules : list (string * VuexModule)) (st : Store)
    : Store * list event :=
  match modules with
  | [] => (st, [])
  | (name, m) :: rest =>
      if hasModule st (split_slash name) then
        let '(st', evs) := registering rest st in
        (st', LoggerInfo
                ("Skipping duplicate dynamic Vuex module registration: " +:+ name)
              :: evs)
      else
        let preserveState :=
          negb (nullish_reach (getModuleState st (split_slash name))) in
        let '(st', evs) :=
          registering rest (registerModule st (split_slash name) m preserveState) in
        (st', LoggerInfo ("Registering dynamic Vuex module: " +:+ name)
              :: RegisterModule (split_slash name) m preserveState :: evs)
  end.

(** The declarations of a list of components, resolved against a route. *)
Definition declared (components : list Component) (route : Route)
    : list (string * VuexModule) :=
  map (λ vuexModuleDef, (getModuleName vuexModuleDef route, module vuexModuleDef))
      (flat_map vuex_of components).

(** The world after further calls on the collaborators. *)
Definition logged (w : world) (evs : list event) : world :=
  mkWorld (w_store w) (w_queue w) (w_trace w ++ evs).

(** A hook that is present fails with [e] in [w]: the call throws [e], or
    the promise it returns rejects with [e]; [w'] is the world it leaves. *)
Definition fails (h : option hook) (fetchDataArgs : FetchDataArgs) (w : world)
    (e : value) (w' : world) : Prop :=
  ∃ f, h = Some f
       ∧ (f fetchDataArgs w = (inl e, w')
          ∨ ∃ t, f fetchDataArgs w = (inr (Rejected t e), w')).

(** The fetch pipeline, started in [w0], fails with [e] at one of its
    stages: the awaited middleware fails; or evaluating the array of calls
    throws; or [Promise.all] surfaces the rejection of one of the promises;
    or the awaited post-middleware fails.  [mid] and [post] are the calls
    the client variant logs between the stages. *)
Definition pipeline_fails (opts : option Opts) (components : list Component)
    (fetchDataArgs : FetchDataArgs) (w0 : world) (mid post : list event)
    (e : value) (w' : world) : Prop :=
  let calls := fetchCalls opts components fetchDataArgs in
  fails (opt opts middleware) fetchDataArgs (logged w0 [CallMiddleware]) e w'
  ∨ ∃ w1,
      await_if_present (opt opts middleware) CallMiddleware fetchDataArgs w0
      = (inr (), w1)
      ∧ (sequence calls (logged w1 mid) = (inl e, w')
         ∨ (∃ ps t,
              sequence calls (logged w1 mid) = (inr ps, w')
              ∧ first_rejection ps = Some (t, e))
         ∨ (∃ ps w2,
              sequence calls (logged w1 mid) = (inr ps, w2)
              ∧ first_rejection ps = None
              ∧ fails (opt opts postMiddleware) fetchDataArgs
                  (logged w2 (post ++ [CallPostMiddleware])) e w')).

End Vocabulary.

(** * Further vocabulary *)

(** An entry whose name starts with the prefix of the instrumentation. *)
Definition prefixed (e : Perf.PerformanceEntry) : bool :=
  Perf.startsWith (Perf.entry_name e) Perf.PERF_PREFIX.

(** The characters of a string. *)
Definition chars (s : string) : list ascii := String.list_ascii_of_string s.

(** A build callback that succeeded and delivered content that counts as
    present. *)
Definition delivers_bundle (c : DevServer.callback) : bool :=
  match c with
  | DevServer.ServerDone err errors (inr b) =>
      negb (truthy err) && (errors =? 0)%nat && truthy b
  | _ => false
  end.

Definition delivers_manifest (c : DevServer.callback) : bool :=
  match c with
  | DevServer.ClientDone errors (inr m) => (errors =? 0)%nat && truthy m
  | _ => false
  end.

(** The [cb] calls among the outputs: the bundle and the options object. *)
Definition cb_calls (out : list DevServer.output) : list (value * value) :=
  omap (λ o, match o with DevServer.CbCalled b o' => Some (b, o') | _ => None end) out.

(** A [cb] call that hands over a bundle and a manifest that are present. *)
Definition complete_call (call : value * value) : Prop :=
  truthy call.1 = true
  ∧ ∃ t m, call.2 = VObj [("template", VStr t); ("clientManifest", m)]
           ∧ truthy m = true.

(** The values [ready] was called with. *)
Definition ready_calls (out : list DevServer.output) : list value :=
  omap (λ o, match o with DevServer.ReadyCalled v => Some v | _ => None end) out.

Section Vocabulary2.
Context {H : Host} {R : Realm}.

(** One store call of the trace applied to a store, provided it is legal:
    [registerModule] at a free path, [unregisterModule] at a taken one. *)
Definition apply_store_call (st : Store) (e : event) : option Store :=
  match e with
  | RegisterModule p m preserveState =>
      if hasModule st p then None else Some (registerModule st p m preserveState)
  | UnregisterModule p =>
      if hasModule st p then Some (unregisterModule st p) else None
  | _ => Some st
  end.

(** The store calls of a trace replayed in order. *)
Fixpoint replay (st : Store) (evs : list event) : option Store :=
  match evs with
  | [] => Some st
  | e :: rest =>
      match apply_store_call st e with
      | Some st' => replay st' rest
      | None => None
      end
  end.

(** The [next] calls of a trace. *)
Definition next_calls (evs : list event) : list value :=
  omap (λ e, match e with Next x => Some x | _ => None end) evs.

(** The removal queue is sorted by depth and free of duplicates. *)
Definition queue_ok (w : world) : Prop :=
  StronglySorted (key_le depth) (w_queue w) ∧ NoDup (w_queue w).

(** One invocation of either hook of the client lifecycle manager. *)
Inductive lifecycle_step (getMatchedComponents : Route → value + list Component)
    : world → world → Prop :=
| step_beforeResolve app router to from w :
    lifecycle_step getMatchedComponents w
      (useRouteVuexModulesClient_beforeResolve getMatchedComponents
         app router to from w).2
| step_afterEach app router to from w :
    lifecycle_step getMatchedComponents w
      (useRouteVuexModulesClient_afterEach getMatchedComponents
         app router to from w).2.

(** A hook that is absent, or resolves with [v] and leaves the world alone. *)
Definition returns (h : option hook) (v : value) : Prop :=
  match h with
  | None => v = VUndefined
  | Some f => ∀ fetchDataArgs w, f fetchDataArgs w = (inr (Resolved v), w)
  end.

(** The call recorded for a hook that is present. *)
Definition call_events (h : option hook) (e : event) : list event :=
  match h with
  | Some _ => [e]
  | None => []
  end.

(** The [fetchData] calls made for an array of components whose first
    index is [k]. *)
Fixpoint fetchData_events (k : nat) (components : list Component) : list event :=
  match components with
  | [] => []
  | c :: rest =>
      call_events (c_fetchData c) (CallFetchData k) ++ fetchData_events (S k) rest
  end.

(** [results.find(r => r != null)] *)
Definition first_non_null (results : list value) : value :=
  default VUndefined (find (λ r, negb (nullish r)) results).

(** Whether a policy field is enabled: its own value where the component
    gives one, else the default; only the boolean [true] enables. *)
Definition enabled (fields : gmap string value) (k : string) : bool :=
  match fields !! k with
  | Some v => is_true v
  | None => is_true (default VUndefined (default_policy !! k))
  end.

End Vocabulary2.

(** * A realm

    The built-in objects that property reads reach from the values of the
    model, after ECMA-262 (edition 2023 with Annex B) and the DOMException
    interface: the prototype objects, their methods, the constructors and
    what these hold.  A built-in object is named by its path from the
    global object.  The [stack] of an error is engine-specific text.  Two
    kinds of read that throw in an engine are not listed: the accessors
    [caller] and [arguments] of a built-in function, and the accessors of
    [DOMException.prototype] read on the prototype itself. *)

Module StandardRealm.

Definition prototype_of (v : value) : string :=
  match v with
  | VBool _ => "Boolean.prototype"
  | VNum _ | VDecimal _ _ | VNaN => "Number.prototype"
  | VBigInt _ => "BigInt.prototype"
  | VStr _ => "String.prototype"
  | VArr _ => "Array.prototype"
  | VError _ => "Error.prototype"
  | VDOMException _ _ => "DOMException.prototype"
  | VObj _ | VUndefined | VNull => "Object.prototype"
  end.

(** Each prototype object with its constructor. *)
Definition prototypes : list (string * string) :=
  [("Object.prototype", "Object"); ("Function.prototype", "Function");
   ("Array.prototype", "Array"); ("String.prototype", "String");
   ("Number.prototype", "Number"); ("Boolean.prototype", "Boolean");
   ("BigInt.prototype", "BigInt"); ("Error.prototype", "Error");
   ("DOMException.prototype", "DOMException")].

(** The prototype of a prototype object. *)
Definition parent (proto : string) : option string :=
  if bool_decide (proto = "Object.prototype") then None
  else if bool_decide (proto = "DOMException.prototype") then Some "Error.prototype"
  else Some "Object.prototype".

(** The methods a built-in object owns. *)
Definition methods : list (string * list string) :=
  [("Object.prototype",
    ["__defineGetter__"; "__defineSetter__"; "__lookupGetter__"; "__lookupSetter__";
     "hasOwnProperty"; "isPrototypeOf"; "propertyIsEnumerable"; "toLocaleString";
     "toString"; "valueOf"]);
   ("Function.prototype", ["apply"; "bind"; "call"; "toString"]);
   ("Array.prototype",
    ["at"; "concat"; "copyWithin"; "entries"; "every"; "fill"; "filter"; "find";
     "findIndex"; "findLast"; "findLastIndex"; "flat"; "flatMap"; "forEach";
     "includes"; "indexOf"; "join"; "keys"; "lastIndexOf"; "map"; "pop"; "push";
     "reduce"; "reduceRight"; "reverse"; "shift"; "slice"; "some"; "sort";
     "splice"; "toLocaleString"; "toReversed"; "toSorted"; "toSpliced";
     "toString"; "unshift"; "values"; "with"]);
   ("String.prototype",
    ["anchor"; "at"; "big"; "blink"; "bold"; "charAt"; "charCodeAt"; "codePointAt";
     "concat"; "endsWith"; "fixed"; "fontcolor"; "fontsize"; "includes"; "indexOf";
     "isWellFormed"; "italics"; "lastIndexOf"; "link"; "localeCompare"; "match";
     "matchAll"; "normalize"; "padEnd"; "padStart"; "repeat"; "replace";
     "replaceAll"; "search"; "slice"; "small"; "split"; "startsWith"; "strike";
     "sub"; "substr"; "substring"; "sup"; "toLocaleLowerCase";
     "toLocaleUpperCase"; "toLowerCase"; "toString"; "toUpperCase";
     "toWellFormed"; "trim"; "trimEnd"; "trimLeft"; "trimRight"; "trimStart";
     "valueOf"]);
   ("Number.prototype",
    ["toExponential"; "toFixed"; "toLocaleString"; "toPrecision"; "toString";
     "valueOf"]);
   ("Boolean.prototype", ["toString"; "valueOf"]);
   ("BigInt.prototype", ["toLocaleString"; "toString"; "valueOf"]);
   ("Error.prototype", ["toString"]);
   ("Object",
    ["assign"; "create"; "defineProperties"; "defineProperty"; "entries"; "freeze";
     "fromEntries"; "getOwnPropertyDescriptor"; "getOwnPropertyDescriptors";
     "getOwnPropertyNames"; "getOwnPropertySymbols"; "getPrototypeOf"; "hasOwn";
     "is"; "isExtensible"; "isFrozen"; "isSealed"; "keys"; "preventExtensions";
     "seal"; "setPrototypeOf"; "values"]);
   ("Array", ["from"; "isArray"; "of"]);
   ("String", ["fromCharCode"; "fromCodePoint"; "raw"]);
   ("Number",
    ["isFinite"; "isInteger"; "isNaN"; "isSafeInteger"; "parseFloat"; "parseInt"]);
   ("BigInt", ["asIntN"; "asUintN"])].

(** The constants of the DOMException interface. *)
Definition error_constants : list (string * Z) :=
  [("INDEX_SIZE_ERR", 1); ("DOMSTRING_SIZE_ERR", 2); ("HIERARCHY_REQUEST_ERR", 3);
   ("WRONG_DOCUMENT_ERR", 4); ("INVALID_CHARACTER_ERR", 5);
   ("NO_DATA_ALLOWED_ERR", 6); ("NO_MODIFICATION_ALLOWED_ERR", 7);
   ("NOT_FOUND_ERR", 8); ("NOT_SUPPORTED_ERR", 9); ("INUSE_ATTRIBUTE_ERR", 10);
   ("INVALID_STATE_ERR", 11); ("SYNTAX_ERR", 12); ("INVALID_MODIFICATION_ERR", 13);
   ("NAMESPACE_ERR", 14); ("INVALID_ACCESS_ERR", 15); ("VALIDATION_ERR", 16);
   ("TYPE_MISMATCH_ERR", 17); ("SECURITY_ERR", 18); ("NETWORK_ERR", 19);
   ("ABORT_ERR", 20); ("URL_MISMATCH_ERR", 21); ("QUOTA_EXCEEDED_ERR", 22);
   ("TIMEOUT_ERR", 23); ("INVALID_NODE_TYPE_ERR", 24); ("DATA_CLONE_ERR", 25)].

(** The [code] of a DOMException, by its name. *)
Definition legacy_codes : list (string * Z) :=
  [("IndexSizeError", 1); ("HierarchyRequestError", 3); ("WrongDocumentError", 4);
   ("InvalidCharacterError", 5); ("NoModificationAllowedError", 7);
   ("NotFoundError", 8); ("NotSupportedError", 9); ("InUseAttributeError", 10);
   ("InvalidStateError", 11); ("SyntaxError", 12);
   ("InvalidModificationError", 13); ("NamespaceError", 14);
   ("InvalidAccessError", 15); ("TypeMismatchError", 17); ("SecurityError", 18);
   ("NetworkError", 19); ("AbortError", 20); ("URLMismatchError", 21);
   ("QuotaExceededError", 22); ("TimeoutError", 23); ("InvalidNodeTypeError", 24);
   ("DataCloneError", 25)].

(** The data properties the built-in objects own. *)
Definition constants : list (string * list (string * reach)) :=
  [("Function.prototype",
    [("length", Data (VNum 0)); ("name", Data (VStr EmptyString))]);
   ("Array.prototype", [("length", Data (VNum 0))]);
   ("String.prototype", [("length", Data (VNum 0))]);
   ("Error.prototype",
    [("name", Data (VStr "Error")); ("message", Data (VStr EmptyString))]);
   ("DOMException.prototype", prod_map id (Data ∘ VNum) <$> error_constants);
   ("DOMException", prod_map id (Data ∘ VNum) <$> error_constants);
   ("Number",
    [("MAX_SAFE_INTEGER", Data (VNum (2 ^ 53 - 1)));
     ("MIN_SAFE_INTEGER", Data (VNum (1 - 2 ^ 53)));
     ("MAX_VALUE", Data (VNum (2 ^ 1024 - 2 ^ 971)));
     ("POSITIVE_INFINITY", Data (VNum (2 ^ 1024)));
     ("NEGATIVE_INFINITY", Data (VNum (- 2 ^ 1024)));
     ("NaN", Data VNaN);
     ("EPSILON", Data (VDecimal 2220446049250313 (- 31)));
     ("MIN_VALUE", Data (VDecimal 5 (- 324)))])].

(** Two names of one method. *)
Definition method_name (k : string) : string :=
  if bool_decide (k = "trimLeft") then "trimStart"
  else if bool_decide (k = "trimRight") then "trimEnd"
  else k.

(** The property [k] the built-in object [b] owns. *)
Definition owned (b k : string) : option reach :=
  match assoc k (default [] (assoc b constants)) with
  | Some r => Some r
  | None =>
      if bool_decide (k = "constructor") then Builtin <$> assoc b prototypes
      else if bool_decide (k = "prototype") then
        Builtin <$> assoc b (prod_swap <$> prototypes)
      else if bool_decide (k ∈ default [] (assoc b methods)) then
        Some (Builtin (b +:+ "." +:+ method_name k))
      else None
  end.

(** The property [k] found on [proto] or further up its chain. *)
Fixpoint inherited (fuel : nat) (proto k : string) : reach :=
  match owned proto k with
  | Some r => r
  | None =>
      match fuel, parent proto with
      | S fuel, Some p => inherited fuel p k
      | _, _ => Data VUndefined
      end
  end.

Definition dot : ascii := "."%char.

(** The text after the last dot of a name. *)
Fixpoint after_last_dot (s : string) : string :=
  match s with
  | EmptyString => EmptyString
  | String c rest =>
      if bool_decide (dot ∈ String.list_ascii_of_string rest) then after_last_dot rest
      else if bool_decide (c = dot) then rest
      else s
  end.

(** The functions that declare no parameter, two parameters, three. *)
Definition arity0 : list string :=
  ["DOMException"; "Array.of";
   "Object.prototype.toLocaleString"; "Object.prototype.toString";
   "Object.prototype.valueOf"; "Function.prototype.toString";
   "Array.prototype.entries"; "Array.prototype.flat"; "Array.prototype.keys";
   "Array.prototype.pop"; "Array.prototype.reverse"; "Array.prototype.shift";
   "Array.prototype.toLocaleString"; "Array.prototype.toReversed";
   "Array.prototype.toString"; "Array.prototype.values";
   "String.prototype.big"; "String.prototype.blink"; "String.prototype.bold";
   "String.prototype.fixed"; "String.prototype.isWellFormed";
   "String.prototype.italics"; "String.prototype.normalize";
   "String.prototype.small"; "String.prototype.strike"; "String.prototype.sub";
   "String.prototype.sup"; "String.prototype.toLocaleLowerCase";
   "String.prototype.toLocaleUpperCase"; "String.prototype.toLowerCase";
   "String.prototype.toString"; "String.prototype.toUpperCase";
   "String.prototype.toWellFormed"; "String.prototype.trim";
   "String.prototype.trimEnd"; "String.prototype.trimStart";
   "String.prototype.valueOf"; "Number.prototype.toLocaleString";
   "Number.prototype.valueOf"; "Boolean.prototype.toString";
   "Boolean.prototype.valueOf"; "BigInt.prototype.toLocaleString";
   "BigInt.prototype.toString"; "BigInt.prototype.valueOf";
   "Error.prototype.toString"].

Definition arity2 : list string :=
  ["Object.prototype.__defineGetter__"; "Object.prototype.__defineSetter__";
   "Function.prototype.apply"; "Array.prototype.copyWithin";
   "Array.prototype.slice"; "Array.prototype.splice"; "Array.prototype.toSpliced";
   "Array.prototype.with"; "String.prototype.replace";
   "String.prototype.replaceAll"; "String.prototype.slice";
   "String.prototype.split"; "String.prototype.substr";
   "String.prototype.substring"; "Object.assign"; "Object.create";
   "Object.defineProperties"; "Object.getOwnPropertyDescriptor"; "Object.hasOwn";
   "Object.is"; "Object.setPrototypeOf"; "Number.parseInt"; "BigInt.asIntN";
   "BigInt.asUintN"].

Definition arity (f : string) : Z :=
  if bool_decide (f ∈ arity0) then 0
  else if bool_decide (f ∈ arity2) then 2
  else if bool_decide (f = "Object.defineProperty") then 3
  else 1.

(** The text an engine gives the [stack] of an error starts with its name
    and message. *)
Definition stack (name message : string) : string :=
  (if bool_decide (message = EmptyString) then name else name +:+ ": " +:+ message)
  +:+ String "010"%char "    at <anonymous>".

(** A read on a value that does not own the key. *)
Definition read_value (v : value) (k : string) : reach :=
  if nullish v then Data VUndefined
  else if bool_decide (k = "__proto__") then Builtin (prototype_of v)
  else match v with
       | VError message =>
           if bool_decide (k = "stack") then Data (VStr (stack "Error" message))
           else inherited 3 (prototype_of v) k
       | VDOMException name message =>
           if bool_decide (k = "stack") then Data (VStr (stack name message))
           else if bool_decide (k = "code") then
             Data (VNum (default 0 (assoc name legacy_codes)))
           else inherited 3 (prototype_of v) k
       | _ => inherited 3 (prototype_of v) k
       end.

(** A read on a built-in object: a prototype object or a function. *)
Definition read_builtin (b k : string) : reach :=
  if bool_decide (is_Some (assoc b prototypes)) then
    if bool_decide (k = "__proto__") then
      match parent b with
      | Some p => Builtin p
      | None => Data VNull
      end
    else inherited 3 b k
  else if bool_decide (k = "__proto__") then Builtin "Function.prototype"
  else if bool_decide (k = "name") then Data (VStr (after_last_dot b))
  else if bool_decide (k = "length") then Data (VNum (arity b))
  else match owned b k with
       | Some r => r
       | None => inherited 3 "Function.prototype" k
       end.

Definition read (r : reach) (k : string) : reach :=
  match r with
  | Data v => read_value v k
  | Builtin b => read_builtin b k
  end.

End StandardRealm.

(** * A concrete host

    The store of the test suite: a list of registered paths next to a state
    tree.  The router is identified with its current route, the realm is the
    one above. *)

Module Scenario.

Record TestStore : Type := mkTestStore {
  activeModules : list (list string);
  stateTree : value;
}.

Definition testHost : Host := {|
  App := unit;
  RouterT := Route;
  SsrContext := unit;
  VuexModule := string;
  Store := TestStore;
  hasModule st m := bool_decide (m ∈ activeModules st);
  registerModule st m _ _ := mkTestStore (activeModules st ++ [m]) (stateTree st);
  unregisterModule st m :=
    mkTestStore (filter (λ m', m' ≠ m) (activeModules st)) (stateTree st);
  state := stateTree;
|}.

Definition testRealm : Realm := StandardRealm.read.

#[local] Existing Instance testHost.
#[local] Existing Instance testRealm.

Definition route (p : string) : Route :=
  {| route_name := PUndefined;
     route_path := PStr p;
     route_fullPath := PStr p;
     route_hash := PUndefined;
     route_query := None;
     route_params := ∅ |}.

(** [/d?foo=1] *)
Definition route_d_foo : Route :=
  {| route_name := PUndefined;
     route_path := PStr "/d";
     route_fullPath := PStr "/d?foo=1";
     route_hash := PUndefined;
     route_query := Some {[ "foo" := QStr "1" ]};
     route_params := ∅ |}.

Definition named (n : string) (r : Route) : Route :=
  {| route_name := PStr n;
     route_path := route_path r;
     route_fullPath := route_fullPath r;
     route_hash := route_hash r;
     route_query := route_query r;
     route_params := route_params r |}.

(** [s.replace('/', '')]: the string without its first slash. *)
Fixpoint without_first_slash (s : string) : string :=
  match s with
  | EmptyString => EmptyString
  | String c rest =>
      if bool_decide (c = slash) then rest else String c (without_first_slash rest)
  end.

(** [({ $route }) => $route.path.replace('/', '')] *)
Definition name_of_path : ModuleName :=
  NameFn (λ o,
    match o !! "$route" with
    | Some r => without_first_slash (template (route_path r))
    | None => "undefined"
    end).

(** [({ route }) => route ? 'route' : 'no-route'] *)
Definition name_of_route_key : ModuleName :=
  NameFn (λ o, match o !! "route" with Some _ => "route" | None => "no-route" end).

Definition plain : Component :=
  {| c_shouldProcessRouteUpdate := PolicyAbsent; c_vuex := None; c_fetchData := None |}.

Definition declaring (names : list ModuleName) : Component :=
  {| c_shouldProcessRouteUpdate := PolicyAbsent;
     c_vuex := Some (VuexMany (map (λ n, mkVuexModuleDef n "testModule") names));
     c_fetchData := None |}.

(** A component whose [fetchData] rejects with [e]. *)
Definition rejecting (e : value) : Component :=
  {| c_shouldProcessRouteUpdate := PolicyAbsent;
     c_vuex := None;
     c_fetchData := Some (λ _, ret (Rejected 0 e)) |}.

(** A component that declares [test] and never wants route updates. *)
Definition reluctant : Component :=
  {| c_shouldProcessRouteUpdate := PolicyFn (λ _, VBool false);
     c_vuex := Some (VuexOne (mkVuexModuleDef (NameLiteral "test") "testModule"));
     c_fetchData := None |}.

(** The routing table: [/x] declares [a/b] and [a], [/nested] declares
    [foo/bar/baz], [/reject] and [/oops] reject in [fetchData], every other
    path below declares the module named after it, anything else is
    malformed. *)
Definition getMatchedComponents (r : Route) : value + list Component :=
  match route_path r with
  | PStr "/x" => inr [declaring [NameLiteral "a/b"; NameLiteral "a"]]
  | PStr "/y" | PStr "/z" => inr [plain]
  | PStr "/nested" => inr [declaring [NameLiteral "foo/bar/baz"]]
  | PStr "/reject" => inr [rejecting (VStr "error")]
  | PStr "/oops" => inr [rejecting (VObj [("error", VStr "oops")])]
  | PStr "/a" | PStr "/b" | PStr "/c" | PStr "/d" => inr [declaring [name_of_path]]
  | PStr "/server" => inr [reluctant; declaring [name_of_path]]
  | _ => inl (VError "Cannot read properties of undefined")
  end.

Definition router_getMatchedComponents (router : Route) (location : option Route)
    : list Component :=
  match getMatchedComponents (default router location) with
  | inr components => components
  | inl _ => []
  end.

Definition currentRoute (router : Route) : Route := router.

Definition world0 (modules : list (list string)) (q : list string) : world :=
  mkWorld (mkTestStore modules (VObj [])) q [].

(** Options whose three hooks all resolve. *)
Definition all_hooks : Opts :=
  {| middleware := Some (λ _, ret (Resolved VUndefined));
     globalFetchData := Some (λ _, ret (Resolved VUndefined));
     postMiddleware := Some (λ _, ret (Resolved VUndefined)) |}.

(** Options whose post-middleware rejects with [e]. *)
Definition rejecting_late (e : value) : Opts :=
  {| middleware := Some (λ _, ret (Resolved VUndefined));
     globalFetchData := None;
     postMiddleware := Some (λ _, ret (Rejected 0 e)) |}.

(** Options whose global fetch throws [e] before it returns a promise. *)
Definition throwing_fetch (e : value) : Opts :=
  {| middleware := None;
     globalFetchData := Some (λ _, throw e);
     postMiddleware := None |}.

(** The JSON text of [{error:'oops'}], character by character: brace,
    quoted key, colon, quoted string, brace. *)
Definition oops_json : string :=
  String.string_of_list_ascii
    (ascii_of_nat <$>
       [123; 34; 101; 114; 114; 111; 114; 34; 58; 34; 111; 111; 112; 115; 34; 125]%nat).

(** The JSON text of [{b: undefined, a: [undefined, 1.5], 2: null, 1:
    true}], character by character: the keys [1] and [2] come first, the
    key [b] is dropped. *)
Definition ordered_json : string :=
  String.string_of_list_ascii
    (ascii_of_nat <$>
       [123; 34; 49; 34; 58; 116; 114; 117; 101; 44; 34; 50; 34; 58; 110; 117; 108; 108; 44; 34; 97; 34; 58; 91; 110; 117; 108; 108; 44; 49; 46; 53; 93; 125]%nat).

End Scenario.

(** * Further cases at the concrete host *)

Module Cases.
Import Scenario.
#[local] Existing Instance testHost.
#[local] Existing Instance testRealm.

(** A policy that gives [path] a truthy value that is not [true] and
    enables [query]. *)
Definition picky : Component :=
  {| c_shouldProcessRouteUpdate :=
       PolicyObj {[ "path" := VNum 1; "query" := VBool true ]};
     c_vuex := None;
     c_fetchData := None |}.

(** A component whose [fetchData] resolves with [v]. *)
Definition fetching (v : value) : Component :=
  {| c_shouldProcessRouteUpdate := PolicyAbsent;
     c_vuex := None;
     c_fetchData := Some (λ _, ret (Resolved v)) |}.

(** A component that fetches although its policy declines every update. *)
Definition reluctant_fetching (v : value) : Component :=
  {| c_shouldProcessRouteUpdate := PolicyFn (λ _, VBool false);
     c_vuex := None;
     c_fetchData := Some (λ _, ret (Resolved v)) |}.

(** The routing table of [Scenario], with [/dup] declaring the module [m]
    twice and [/fetch] fetching null, a redirect and nothing. *)
Definition getMatchedComponents (r : Route) : value + list Component :=
  match route_path r with
  | PStr "/dup" => inr [declaring [NameLiteral "m"; NameLiteral "m"]]
  | PStr "/fetch" => inr [fetching VNull; fetching (VStr "/login"); plain]
  | _ => Scenario.getMatchedComponents r
  end.

Definition router_getMatchedComponents (router : Route) (location : option Route)
    : list Component :=
  match route_path (default router location) with
  | PStr "/fetch" => [reluctant_fetching VNull; plain; fetching (VStr "done")]
  | _ => Scenario.router_getMatchedComponents router location
  end.

(** Hooks that resolve with a value of their own. *)
Definition telling_hooks : Opts :=
  {| middleware := Some (λ _, ret (Resolved (VStr "ignored")));
     globalFetchData := Some (λ _, ret (Resolved VUndefined));
     postMiddleware := None |}.

End Cases.

(** * Properties *)

(** ** Strings and lodash helpers *)

Lemma split_slash_nonempty s : split_slash s ≠ [].
Proof.
  destruct s as [|c rest]; simpl; [done|].
  case_bool_decide; [done|]. by destruct (split_slash rest).
Qed.

Lemma join_slash_cons_string c seg segs :
  join_slash (String c seg :: segs) = String c (join_slash (seg :: segs)).
Proof. by destruct segs. Qed.

Lemma join_split_slash s : join_slash (split_slash s) = s.
Proof.
  induction s as [|c rest IH]; simpl; [done|].
  pose proof (split_slash_nonempty rest) as Hne.
  case_bool_decide as Hc.
  - subst c. destruct (split_slash rest) as [|seg segs]; [done|].
    simpl in *. by rewrite IH.
  - destruct (split_slash rest) as [|seg segs]; [done|].
    by rewrite join_slash_cons_string, IH.
Qed.

Lemma split_slash_inj s1 s2 : split_slash s1 = split_slash s2 → s1 = s2.
Proof.
  intros Heq. rewrite <-(join_split_slash s1), <-(join_split_slash s2).
  by rewrite Heq.
Qed.

Lemma depth_positive m : (0 < depth m)%nat.
Proof.
  unfold depth. pose proof (split_slash_nonempty m).
  destruct (split_slash m); simpl; [done|lia].
Qed.

Lemma elem_of_uniq_into result l x :
  x ∈ uniq_into result l ↔ x ∈ result ∨ x ∈ l.
Proof.
  revert result. induction l as [|y l IH]; intros result; simpl.
  - set_solver.
  - case_bool_decide; rewrite IH; set_solver.
Qed.

Lemma NoDup_uniq_into result l : NoDup result → NoDup (uniq_into result l).
Proof.
  revert result. induction l as [|y l IH]; intros result Hnd; simpl; [done|].
  case_bool_decide; apply IH; [done|].
  apply NoDup_app. split_and!; [done|set_solver|apply NoDup_singleton].
Qed.

Lemma elem_of_uniq l x : x ∈ uniq l ↔ x ∈ l.
Proof. unfold uniq. rewrite elem_of_uniq_into. set_solver. Qed.

Lemma NoDup_uniq l : NoDup (uniq l).
Proof. apply NoDup_uniq_into, NoDup_nil_2. Qed.

Section SortBy.
Context {A : Type} (key : A → nat).

Lemma insert_by_Permutation x l : insert_by key x l ≡ₚ x :: l.
Proof.
  induction l as [|y l IH]; simpl; [done|].
  case_bool_decide; [done|]. by rewrite IH, Permutation_swap.
Qed.

Lemma sortBy_Permutation l : sortBy l key ≡ₚ l.
Proof.
  induction l as [|x l IH]; simpl; [done|].
  unfold sortBy in *. simpl. by rewrite insert_by_Permutation, IH.
Qed.

Lemma insert_by_sorted x l :
  StronglySorted (key_le key) l → StronglySorted (key_le key) (insert_by key x l).
Proof.
  induction 1 as [|y l Hs IH Hall]; simpl.
  - repeat constructor.
  - case_bool_decide as Hle.
    + constructor; [by constructor|].
      constructor; [done|].
      eapply Forall_impl; [exact Hall|]. unfold key_le. intros; lia.
    + constructor; [done|].
      rewrite insert_by_Permutation. constructor; [|done].
      unfold key_le. lia.
Qed.

Lemma sortBy_sorted l : StronglySorted (key_le key) (sortBy l key).
Proof.
  induction l as [|x l IH]; [constructor|].
  unfold sortBy in *. simpl. by apply insert_by_sorted.
Qed.

Lemma elem_of_sortBy l x : x ∈ sortBy l key ↔ x ∈ l.
Proof. by rewrite sortBy_Permutation. Qed.

Lemma NoDup_sortBy l : NoDup l → NoDup (sortBy l key).
Proof. by rewrite sortBy_Permutation. Qed.

End SortBy.

Section Sorted.
Context {A : Type} (R : relation A).

Lemma StronglySorted_reverse l :
  StronglySorted R l → StronglySorted (flip R) (reverse l).
Proof.
  induction 1 as [|x l Hs IH Hall]; [constructor|].
  rewrite reverse_cons. apply StronglySorted_app_2; [|done|repeat constructor].
  intros x1 x2 Hx1 Hx2. rewrite elem_of_reverse in Hx1.
  apply list_elem_of_singleton in Hx2 as ->.
  rewrite Forall_forall in Hall. by apply Hall.
Qed.

Lemma StronglySorted_fmap_2 {B} (f : B → A) l :
  StronglySorted (λ a b, R (f a) (f b)) l → StronglySorted R (f <$> l).
Proof.
  induction 1 as [|x l Hs IH Hall]; [constructor|].
  rewrite fmap_cons. constructor; [done|]. by apply Forall_fmap.
Qed.

Lemma StronglySorted_sublist l1 l2 :
  l1 `sublist_of` l2 → StronglySorted R l2 → StronglySorted R l1.
Proof.
  induction 1 as [|x l1 l2 Hsub IH|x l1 l2 Hsub IH];
    intros Hs; [constructor| |].
  - apply StronglySorted_cons in Hs as [Hall Hs].
    constructor; [by apply IH|].
    rewrite Forall_forall in *. intros y Hy. apply Hall.
    by eapply elem_of_sublist.
  - apply StronglySorted_cons in Hs as [_ Hs]. by apply IH.
Qed.

Lemma StronglySorted_lookup l i j a b :
  StronglySorted R l →
  l !! i = Some a → l !! j = Some b → (i < j)%nat → R a b.
Proof.
  intros Hs. revert i j. induction Hs as [|x l Hs IH Hall]; intros i j Hi Hj Hlt.
  - by rewrite lookup_nil in Hi.
  - destruct j as [|j]; [lia|]. destruct i as [|i]; simpl in *.
    + injection Hi as ->. rewrite Forall_forall in Hall.
      apply Hall. by eapply list_elem_of_lookup_2.
    + apply (IH i j); [done|done|lia].
Qed.

End Sorted.

(** ** The drain loop *)

Section Drain.
Context {H : Host} {R : Realm}.

Lemma pop_nil {A} : pop (@nil A) = None.
Proof. done. Qed.

Lemma pop_snoc {A} (arr : list A) x : pop (arr ++ [x]) = Some (x, arr).
Proof. unfold pop. by rewrite reverse_snoc, reverse_involutive. Qed.

(** With the queue length as fuel the loop runs to an empty queue. *)
Lemma drain_spec toNames fromNames q requeueModules st tr :
  drain (length q) toNames fromNames requeueModules (mkWorld st q tr)
  = (inr (requeueModules ++ requeued (toNames ++ fromNames) q),
     mkWorld (drained (toNames ++ fromNames) (reverse q) st).1 []
             (tr ++ (drained (toNames ++ fromNames) (reverse q) st).2)).
Proof.
  revert requeueModules st tr.
  induction q as [|name q IH] using rev_ind; intros requeueModules st tr.
  - simpl. unfold requeued. simpl. by rewrite !app_nil_r.
  - rewrite length_app, Nat.add_1_r. unfold requeued. rewrite reverse_snoc.
    cbn [drain]. unfold mbind, M_bind, bind, get_queue. cbn [w_queue].
    rewrite pop_snoc. unfold put_queue. cbn [w_store w_queue w_trace].
    rewrite filter_cons. cbn [drained].
    case_bool_decide as Hact.
    + rewrite decide_True by done.
      unfold emit. cbn [w_store w_queue w_trace].
      rewrite IH. unfold requeued.
      destruct (drained _ (reverse q) st) as [st' evs]. cbn [fst snd].
      by rewrite <-!app_assoc.
    + rewrite decide_False by done.
      unfold store_hasModule, store_unregisterModule, mbind, M_bind, bind,
        get_store, mret, M_ret, ret, emit, put_store.
      cbn [w_store w_queue w_trace].
      destruct (hasModule st (split_slash name)); cbn [w_store w_queue w_trace].
      * rewrite IH. unfold requeued.
        destruct (drained _ (reverse q) _) as [st' evs]. cbn [fst snd].
        by rewrite <-!app_assoc.
      * rewrite IH. unfold requeued.
        destruct (drained _ (reverse q) st) as [st' evs]. cbn [fst snd].
        by rewrite <-!app_assoc.
Qed.

(** Every path the pass unregisters is the path of a queued name that is
    not active. *)
Lemma drained_unregister_calls active names st :
  unregister_calls (drained active names st).2
  `sublist_of` split_slash <$> filter (λ n, n ∉ active) names.
Proof.
  revert st. induction names as [|name rest IH]; intros st; simpl; [done|].
  rewrite filter_cons. case_bool_decide as Hact.
  - rewrite decide_False by tauto.
    specialize (IH st). destruct (drained active rest st) as [st' evs]. done.
  - rewrite decide_True by done. rewrite fmap_cons.
    destruct (hasModule st (split_slash name)).
    + specialize (IH (unregisterModule st (split_slash name))).
      destruct (drained active rest _) as [st' evs]. simpl in *.
      by apply sublist_skip.
    + specialize (IH st). destruct (drained active rest st) as [st' evs].
      simpl in *. by apply sublist_cons.
Qed.

Lemma drained_active_not_unregistered active names st name :
  name ∈ active →
  split_slash name ∉ unregister_calls (drained active names st).2.
Proof.
  intros Hact Hin.
  eapply elem_of_sublist in Hin; [|apply drained_unregister_calls].
  apply list_elem_of_fmap in Hin as (n & Heq & Hn).
  apply list_elem_of_filter in Hn as [Hn _].
  apply split_slash_inj in Heq. by subst.
Qed.

End Drain.

(** ** The post-commit hook *)

Section AfterEach.
Context {H : Host} {R : Realm}.
Variable getMatchedComponents : Route → value + list Component.

Abbreviation afterEach := (useRouteVuexModulesClient_afterEach getMatchedComponents).

Lemma filter_length_zero {A} (f : A → bool) (l : list A) :
  (length (List.filter f l) =? 0)%nat = true ↔ ∀ x, x ∈ l → f x = false.
Proof.
  rewrite Nat.eqb_eq. induction l as [|y l IH]; simpl.
  - split; [|done]. intros _ x Hx. by apply elem_of_nil in Hx.
  - destruct (f y) eqn:Hy; simpl.
    + split; [done|]. intros Hall. specialize (Hall y (list_elem_of_here _ _)).
      congruence.
    + rewrite IH. split.
      * intros Hall x [->|Hx]%elem_of_cons; auto.
      * intros Hall x Hx. apply Hall. by right.
Qed.

Lemma filter_length_nonzero {A} (f : A → bool) (l : list A) :
  (length (List.filter f l) =? 0)%nat = false ↔ ∃ x, x ∈ l ∧ f x = true.
Proof.
  split.
  - intros Hlen. induction l as [|y l IH]; simpl in *; [done|].
    destruct (f y) eqn:Hy.
    + exists y. split; [left|done].
    + destruct (IH Hlen) as (x & Hx & Hfx). exists x. split; [by right|done].
  - intros (x & Hx & Hfx).
    destruct (length (List.filter f l) =? 0)%nat eqn:Hlen; [|done].
    rewrite filter_length_zero in Hlen. rewrite (Hlen x Hx) in Hfx. done.
Qed.

(** The hook does nothing when no matched component passes the gate. *)
Lemma afterEach_skipped app router to from w components :
  getMatchedComponents to = inr components →
  (∀ c, c ∈ components →
     shouldProcessRouteUpdate c
       (getFetchDataArgs None app router (w_store w) to (Some from)) = false) →
  afterEach app router to from w = (inr (), w).
Proof.
  intros Hto Hgate. apply filter_length_zero in Hgate.
  unfold useRouteVuexModulesClient_afterEach, mbind, M_bind, bind, get_store, lift.
  rewrite Hto. cbn [w_store]. by rewrite Hgate.
Qed.

(** The hook when some matched component passes the gate. *)
Lemma afterEach_processed app router to from w toComponents fromComponents :
  getMatchedComponents to = inr toComponents →
  getMatchedComponents from = inr fromComponents →
  (∃ c, c ∈ toComponents ∧
     shouldProcessRouteUpdate c
       (getFetchDataArgs None app router (w_store w) to (Some from)) = true) →
  let toModuleNames := moduleNamesOf toComponents to in
  let fromModuleNames := moduleNamesOf fromComponents from in
  let active := toModuleNames ++ fromModuleNames in
  let pass := drained active (reverse (w_queue w)) (w_store w) in
  afterEach app router to from w
  = (inr (),
     mkWorld pass.1
       (sortBy (uniq (requeued active (w_queue w) ++ fromModuleNames)) depth)
       (w_trace w ++ pass.2)).
Proof.
  intros Hto Hfrom Hgate. apply filter_length_nonzero in Hgate.
  destruct w as [st q tr]. cbn [w_store w_queue w_trace] in *.
  unfold useRouteVuexModulesClient_afterEach, mbind, M_bind, bind, get_store, lift.
  rewrite Hto. cbn [w_store]. rewrite Hgate. cbn [negb].
  rewrite Hfrom. unfold get_queue at 1. cbn [w_queue].
  rewrite drain_spec. unfold get_queue, put_queue. by cbn.
Qed.

End AfterEach.

(** ** The route-update gate *)

Section Gate.
Context {H : Host} {R : Realm}.

Lemma default_policy_lookup :
  default_policy !! "path" = Some (VBool true)
  ∧ default_policy !! "query" = Some (VBool false)
  ∧ default_policy !! "hash" = Some (VBool false).
Proof. by vm_compute. Qed.

Lemma spread_default_policy p k :
  policy_is_default p →
  k ∈ ["path"; "query"; "hash"] →
  spread_over_defaults p !! k = default_policy !! k.
Proof.
  destruct p as [|f|fields]; simpl; [done|done|].
  intros Hdef Hk. rewrite lookup_union.
  destruct (Hdef k Hk) as [-> | ->].
  - by rewrite (left_id None _).
  - by destruct (default_policy !! k).
Qed.

Lemma strict_neq_false a b : strict_neq a b = false ↔ a = b.
Proof. unfold strict_neq. by rewrite negb_false_iff, bool_decide_eq_true. Qed.

Lemma strict_neq_true a b : strict_neq a b = true ↔ a ≠ b.
Proof. unfold strict_neq. by rewrite negb_true_iff, bool_decide_eq_false. Qed.

(** C6. Between two route-table entries ([from.name !== route.name]) the
    gate answers true for every component, whatever its policy: absent, an
    object or a function. *)
Theorem shouldProcessRouteUpdate_name_change (c : Component) (fetchDataArgs : FetchDataArgs) :
  get (fda_from fetchDataArgs) route_name ≠ route_name (fda_route fetchDataArgs) →
  shouldProcessRouteUpdate c fetchDataArgs = true.
Proof.
  intros Hne. unfold shouldProcessRouteUpdate.
  apply strict_neq_true in Hne. simpl. by rewrite Hne.
Qed.

Lemma gate_default_policy (c : Component) (fetchDataArgs : FetchDataArgs) :
  get (fda_from fetchDataArgs) route_name = route_name (fda_route fetchDataArgs) →
  policy_is_default (c_shouldProcessRouteUpdate c) →
  shouldProcessRouteUpdate c fetchDataArgs
  = strict_neq (get (fda_from fetchDataArgs) route_path)
      (route_path (fda_route fetchDataArgs)).
Proof.
  intros Hname Hdef. unfold shouldProcessRouteUpdate.
  apply strict_neq_false in Hname. simpl. rewrite Hname.
  destruct default_policy_lookup as (Hp & Hq & Hh).
  assert (∀ k, k ∈ ["path"; "query"; "hash"] →
            field_is_true (spread_over_defaults (c_shouldProcessRouteUpdate c)) k
            = is_true (default VUndefined (default_policy !! k))) as Hfield.
  { intros k Hk. unfold field_is_true. by rewrite spread_default_policy. }
  destruct (c_shouldProcessRouteUpdate c) as [|f|fields] eqn:Hpol; [|done|].
  all: rewrite !Hfield by set_solver; rewrite Hp, Hq, Hh; simpl.
  all: by rewrite !orb_false_r.
Qed.

(** C5. Within one route-table entry ([from.name === route.name]), for a
    component without a policy or with an object policy whose [path],
    [query] and [hash] fields, where given, equal the defaults, the gate
    answers false exactly when the path is unchanged; query and hash play
    no part. *)
Theorem shouldProcessRouteUpdate_default_policy (c : Component)
    (fetchDataArgs : FetchDataArgs) :
  get (fda_from fetchDataArgs) route_name = route_name (fda_route fetchDataArgs) →
  policy_is_default (c_shouldProcessRouteUpdate c) →
  shouldProcessRouteUpdate c fetchDataArgs = false
  ↔ get (fda_from fetchDataArgs) route_path = route_path (fda_route fetchDataArgs).
Proof.
  intros Hname Hdef. rewrite gate_default_policy by done.
  apply strict_neq_false.
Qed.

End Gate.

(** ** The shared registration routine *)

Section Registration.
Context {H : Host} {R : Realm}.

Lemma emitted_app w st q evs :
  emitted w (mkWorld st q (w_trace w ++ evs)) = evs.
Proof. unfold emitted. simpl. by rewrite drop_app_length. Qed.

Lemma emitted_refl w : emitted w w = [].
Proof. unfold emitted. by rewrite drop_all. Qed.









Lemma safelyRegisterModule_present name m w :
  hasModule (w_store w) (split_slash name) = true →
  safelyRegisterModule name m w
  = (inr (),
     mkWorld (w_store w) (w_queue w)
       (w_trace w
        ++ [LoggerInfo ("Skipping duplicate dynamic Vuex module registration: "
                        +:+ name)])).
Proof.
  intros Hhas. unfold safelyRegisterModule, store_hasModule, mbind, M_bind, bind,
    get_store, mret, M_ret, ret. by rewrite Hhas.
Qed.

Lemma safelyRegisterModule_absent name m w :
  hasModule (w_store w) (split_slash name) = false →
  let preserveState :=
    negb (nullish_reach (getModuleState (w_store w) (split_slash name))) in
  safelyRegisterModule name m w
  = (inr (),
     mkWorld (registerModule (w_store w) (split_slash name) m preserveState)
       (w_queue w)
       (w_trace w
        ++ [LoggerInfo ("Registering dynamic Vuex module: " +:+ name);
            RegisterModule (split_slash name) m preserveState])).
Proof.
  intros Hhas. unfold safelyRegisterModule, store_hasModule, store_registerModule,
    mbind, M_bind, bind, get_store, mret, M_ret, ret, emit, put_store.
  rewrite Hhas. cbn. by rewrite <-app_assoc.
Qed.


End Registration.

(** ** Registering the declarations of a route *)

Section Declarations.
Context {H : Host} {R : Realm}.

Lemma flat_map_vuex_of_filter components :
  flat_map vuex_of (List.filter has_vuex components) = flat_map vuex_of components.
Proof.
  induction components as [|c l IH]; simpl; [done|].
  destruct (has_vuex c) eqn:Hhas; simpl; rewrite IH; [done|].
  unfold has_vuex in Hhas. apply bool_decide_eq_false in Hhas.
  unfold vuex_of at 2. destruct (c_vuex c); [|done].
  exfalso. apply Hhas. eauto.
Qed.


(** [forEach] over declarations runs the pass [registering] and never
    throws. *)
Lemma forEach_register route defs w :
  forEach
    (λ vuexModuleDef,
       safelyRegisterModule (getModuleName vuexModuleDef route) (module vuexModuleDef))
    defs w
  = let modules :=
      map (λ vuexModuleDef, (getModuleName vuexModuleDef route, module vuexModuleDef))
          defs in
    (inr (),
     mkWorld (registering modules (w_store w)).1 (w_queue w)
       (w_trace w ++ (registering modules (w_store w)).2)).
Proof.
  revert w. induction defs as [|def rest IH]; intros [st q tr]; simpl.
  - by rewrite app_nil_r.
  - unfold mbind, M_bind, bind.
    destruct (hasModule st (split_slash (getModuleName def route))) eqn:Hhas.
    + rewrite safelyRegisterModule_present by done. rewrite IH. simpl.
      destruct (registering _ st) as [st' evs]. simpl. by rewrite <-app_assoc.
    + rewrite safelyRegisterModule_absent by done. rewrite IH. simpl.
      destruct (registering _ (registerModule _ _ _ _)) as [st' evs]. simpl.
      by rewrite <-app_assoc.
Qed.

(** Every path the pass registers is the split name of one of the modules. *)
Lemma registering_register_calls modules st p :
  p ∈ register_calls (registering modules st).2 →
  ∃ name m, (name, m) ∈ modules ∧ p = split_slash name.
Proof.
  revert st. induction modules as [|[name m] rest IH]; intros st; simpl.
  - by intros ?%elem_of_nil.
  - destruct (hasModule st (split_slash name)).
    + specialize (IH st). destruct (registering rest st) as [st' evs]. simpl in *.
      intros (n & m' & Hin & ->)%IH. exists n, m'. split; [by right|done].
    + specialize (IH (registerModule st (split_slash name) m
                        (negb (nullish_reach
                                 (getModuleState st (split_slash name)))))).
      destruct (registering rest _) as [st' evs]. simpl in *.
      intros [->|Hin]%elem_of_cons.
      * exists name, m. split; [left|done].
      * destruct (IH Hin) as (n & m' & Hin' & ->).
        exists n, m'. split; [by right|done].
Qed.

(** A module present before the pass is still present after it. *)
Lemma registering_preserves `{!HostLaws H} modules st p :
  hasModule st p = true → hasModule (registering modules st).1 p = true.
Proof.
  revert st. induction modules as [|[name m] rest IH]; intros st Hp; simpl; [done|].
  destruct (hasModule st (split_slash name)) eqn:Hhas.
  - specialize (IH st Hp). by destruct (registering rest st).
  - set (st1 := registerModule st _ m _).
    assert (hasModule st1 p = true) as Hp1 by by apply hasModule_preserved.
    specialize (IH st1 Hp1). by destruct (registering rest st1).
Qed.

(** After the pass every module of the list is present. *)
Lemma registering_present `{!HostLaws H} modules st name m :
  (name, m) ∈ modules →
  hasModule (registering modules st).1 (split_slash name) = true.
Proof.
  revert st. induction modules as [|[name' m'] rest IH]; intros st Hin.
  - by apply elem_of_nil in Hin.
  - simpl. apply elem_of_cons in Hin as [[= <- <-]|Hin].
    + destruct (hasModule st (split_slash name)) eqn:Hhas.
      * pose proof (registering_preserves rest st _ Hhas).
        by destruct (registering rest st).
      * set (st1 := registerModule st _ m _).
        pose proof (registering_preserves rest st1 (split_slash name)
                      (hasModule_registered _ _ _ _)).
        by destruct (registering rest st1).
    + destruct (hasModule st (split_slash name')).
      * specialize (IH st Hin). by destruct (registering rest st).
      * set (st1 := registerModule st _ m' _).
        specialize (IH st1 Hin). by destruct (registering rest st1).
Qed.

(** The pass enters the routine once per module: it either registers the
    module or logs the skip. *)
Lemma registering_each modules st name m :
  (name, m) ∈ modules →
  (∃ preserveState,
     RegisterModule (split_slash name) m preserveState ∈ (registering modules st).2)
  ∨ LoggerInfo ("Skipping duplicate dynamic Vuex module registration: " +:+ name)
    ∈ (registering modules st).2.
Proof.
  revert st. induction modules as [|[name' m'] rest IH]; intros st Hin.
  - by apply elem_of_nil in Hin.
  - simpl. destruct (hasModule st (split_slash name')) eqn:Hhas.
    + apply elem_of_cons in Hin as [[= <- <-]|Hin].
      * right. destruct (registering rest st). left.
      * destruct (IH st Hin) as [[b Hb]|Hs]; destruct (registering rest st);
          [left; exists b|right]; by right.
    + set (st1 := registerModule st _ m' _).
      apply elem_of_cons in Hin as [[= <- <-]|Hin].
      * left. eexists. destruct (registering rest st1). simpl. right. left.
      * destruct (IH st1 Hin) as [[b Hb]|Hs]; destruct (registering rest st1);
          [left; exists b|right]; by do 2 right.
Qed.

Lemma filter_filter_comm {A} (f g : A → bool) (l : list A) :
  List.filter f (List.filter g l) = List.filter g (List.filter f l).
Proof.
  induction l as [|x l IH]; simpl; [done|].
  destruct (g x) eqn:Hg, (f x) eqn:Hf; simpl; rewrite ?Hg, ?Hf, IH; done.
Qed.

Lemma elem_of_declared components route c vuexModuleDef :
  c ∈ components →
  vuexModuleDef ∈ vuex_of c →
  (getModuleName vuexModuleDef route, module vuexModuleDef)
  ∈ declared components route.
Proof.
  intros Hc Hdef. unfold declared.
  apply (list_elem_of_fmap_2
           (λ d, (getModuleName d route, module d))).
  apply list_elem_of_In, in_flat_map. exists c.
  by rewrite <-!list_elem_of_In.
Qed.

Lemma elem_of_List_filter {A} (f : A → bool) (l : list A) x :
  x ∈ List.filter f l ↔ x ∈ l ∧ f x = true.
Proof. rewrite !list_elem_of_In. apply filter_In. Qed.

End Declarations.

(** ** The pre-commit hook of the client lifecycle manager *)

Section BeforeResolve.
Context {H : Host} {R : Realm}.
Variable getMatchedComponents : Route → value + list Component.

Abbreviation beforeResolve :=
  (useRouteVuexModulesClient_beforeResolve getMatchedComponents).

(** With a well-formed destination the hook registers the declarations of
    the components that pass the gate, resolved against the destination,
    and continues. *)
Lemma beforeResolve_registers app router to from w components :
  getMatchedComponents to = inr components →
  let fetchDataArgs := getFetchDataArgs None app router (w_store w) to (Some from) in
  let passing :=
    List.filter (λ c, shouldProcessRouteUpdate c fetchDataArgs) components in
  let pass := registering (declared passing to) (w_store w) in
  beforeResolve app router to from w
  = (inr (), mkWorld pass.1 (w_queue w) (w_trace w ++ pass.2 ++ [Next VUndefined])).
Proof.
  intros Hto fetchDataArgs passing pass.
  unfold useRouteVuexModulesClient_beforeResolve, try_catch, mbind, M_bind, bind,
    get_store, lift.
  rewrite Hto. rewrite filter_filter_comm, flat_map_vuex_of_filter.
  rewrite forEach_register. cbn. by rewrite <-app_assoc.
Qed.

(** C3 (as amended). A function-valued [moduleName] is invoked with the
    single argument [{ $route: route }] and its result is the name; a
    literal is the name itself.  On the client every declaration of a
    matched component that passes the gate reaches the registration routine
    under the name resolved against the destination route, and every path
    handed to [store.registerModule] is such a name split on ['/'].  The
    name [foo/bar/baz] splits into [foo], [bar], [baz]. *)
Theorem getModuleName_resolution (app : App) (router : RouterT) (to from : Route)
    (w : world) (components : list Component) :
  getMatchedComponents to = inr components →
  let fetchDataArgs := getFetchDataArgs None app router (w_store w) to (Some from) in
  let resolve vuexModuleDef :=
    match moduleName vuexModuleDef with
    | NameFn f => f {[ "$route" := to ]}
    | NameLiteral s => s
    end in
  let evs := emitted w (beforeResolve app router to from w).2 in
  (∀ vuexModuleDef route f,
     moduleName vuexModuleDef = NameFn f →
     getModuleName vuexModuleDef route = f {[ "$route" := route ]})
  ∧ (∀ vuexModuleDef route s,
       moduleName vuexModuleDef = NameLiteral s →
       getModuleName vuexModuleDef route = s)
  ∧ (∀ c vuexModuleDef,
       c ∈ components →
       shouldProcessRouteUpdate c fetchDataArgs = true →
       vuexModuleDef ∈ vuex_of c →
       (∃ preserveState,
          RegisterModule (split_slash (resolve vuexModuleDef)) (module vuexModuleDef)
            preserveState ∈ evs)
       ∨ LoggerInfo ("Skipping duplicate dynamic Vuex module registration: "
                     +:+ resolve vuexModuleDef) ∈ evs)
  ∧ (∀ p, p ∈ register_calls evs →
       ∃ c vuexModuleDef,
         c ∈ components ∧ vuexModuleDef ∈ vuex_of c
         ∧ p = split_slash (resolve vuexModuleDef))
  ∧ split_slash "foo/bar/baz" = ["foo"; "bar"; "baz"].
Proof.
  intros Hto fetchDataArgs resolve evs.
  assert (∀ d, getModuleName d to = resolve d) as Hres by done.
  split_and!.
  - intros d r f Hf. unfold getModuleName. by rewrite Hf.
  - intros d r s Hs. unfold getModuleName. by rewrite Hs.
  - intros c d Hc Hgate Hd. subst evs.
    rewrite (beforeResolve_registers _ _ _ _ _ _ Hto). cbn [snd].
    rewrite emitted_app.
    assert ((getModuleName d to, module d)
            ∈ declared
                (List.filter (λ c, shouldProcessRouteUpdate c fetchDataArgs) components)
                to) as Hin.
    { eapply elem_of_declared; [|done]. by apply elem_of_List_filter. }
    rewrite Hres in Hin.
    destruct (registering_each _ (w_store w) _ _ Hin) as [[b Hb]|Hs].
    + left. exists b. apply elem_of_app. by left.
    + right. apply elem_of_app. by left.
  - intros p. subst evs.
    rewrite (beforeResolve_registers _ _ _ _ _ _ Hto). cbn [snd].
    rewrite emitted_app. unfold register_calls. rewrite omap_app. simpl.
    rewrite app_nil_r.
    intros (name & m & Hin & ->)%registering_register_calls.
    unfold declared in Hin. apply list_elem_of_fmap in Hin as (d & [= -> ->] & Hd).
    apply list_elem_of_In, in_flat_map in Hd as (c & Hc & Hd).
    apply list_elem_of_In, elem_of_List_filter in Hc as [Hc _].
    exists c, d. by rewrite <-list_elem_of_In in Hd.
  - done.
Qed.

End BeforeResolve.

(** ** The server-side one-shot registration *)

Section Server.
Context {H : Host} {R : Realm}.
Variable router_getMatchedComponents : RouterT → option Route → list Component.
Variable currentRoute : RouterT → Route.

Lemma useRouteVuexModulesServer_spec router w :
  let modules :=
    declared (router_getMatchedComponents router None) (currentRoute router) in
  useRouteVuexModulesServer router_getMatchedComponents currentRoute router w
  = (inr (),
     mkWorld (registering modules (w_store w)).1 (w_queue w)
       (w_trace w ++ (registering modules (w_store w)).2)).
Proof.
  unfold useRouteVuexModulesServer.
  by rewrite flat_map_vuex_of_filter, forEach_register.
Qed.

End Server.

Section ServerUngated.
Context {R : Realm}.


End ServerUngated.

(** ** Deregistration *)

Section Deregistration.
Context {H : Host} {R : Realm}.
Variable getMatchedComponents : Route → value + list Component.

Abbreviation afterEach := (useRouteVuexModulesClient_afterEach getMatchedComponents).

(** Whatever the hook does, the paths it unregisters are, in order, paths
    of queued names taken from the tail of the queue. *)
Lemma afterEach_unregister_calls app router to from w :
  unregister_calls (emitted w (afterEach app router to from w).2)
  `sublist_of` split_slash <$> reverse (w_queue w).
Proof.
  destruct (getMatchedComponents to) as [e|toComponents] eqn:Hto.
  { unfold useRouteVuexModulesClient_afterEach, mbind, M_bind, bind, get_store, lift.
    rewrite Hto. simpl. rewrite emitted_refl. apply sublist_nil_l. }
  set (fetchDataArgs := getFetchDataArgs None app router (w_store w) to (Some from)).
  destruct (length (List.filter (λ c, shouldProcessRouteUpdate c fetchDataArgs)
                      toComponents) =? 0)%nat eqn:Hgate.
  { rewrite filter_length_zero in Hgate.
    rewrite (afterEach_skipped _ _ _ _ _ _ _ Hto Hgate). simpl.
    rewrite emitted_refl. apply sublist_nil_l. }
  destruct (getMatchedComponents from) as [e|fromComponents] eqn:Hfrom.
  { unfold useRouteVuexModulesClient_afterEach, mbind, M_bind, bind, get_store, lift.
    rewrite Hto. fold fetchDataArgs. rewrite Hgate. simpl. rewrite Hfrom.
    simpl. rewrite emitted_refl. apply sublist_nil_l. }
  rewrite filter_length_nonzero in Hgate.
  rewrite (afterEach_processed _ _ _ _ _ _ _ _ Hto Hfrom Hgate). cbn [snd].
  rewrite emitted_app.
  etrans; [apply drained_unregister_calls|].
  apply fmap_sublist, sublist_filter.
Qed.

Lemma drain_from_world toNames fromNames w :
  drain (length (w_queue w)) toNames fromNames [] w
  = (inr (requeued (toNames ++ fromNames) (w_queue w)),
     mkWorld (drained (toNames ++ fromNames) (reverse (w_queue w)) (w_store w)).1 []
       (w_trace w
        ++ (drained (toNames ++ fromNames) (reverse (w_queue w)) (w_store w)).2)).
Proof. destruct w as [st q tr]. by rewrite drain_spec. Qed.

(** C1. In the post-commit hook a name required by the arriving or the
    just-left route is never handed to [store.unregisterModule]: the drain
    loop moves it to the requeue list, and it is queued again when the hook
    returns. *)
Theorem afterEach_keeps_active_modules (app : App) (router : RouterT) (to from : Route)
    (w : world) (toComponents fromComponents : list Component) (name : string) :
  getMatchedComponents to = inr toComponents →
  getMatchedComponents from = inr fromComponents →
  let toModuleNames := moduleNamesOf toComponents to in
  let fromModuleNames := moduleNamesOf fromComponents from in
  name ∈ toModuleNames ++ fromModuleNames →
  (split_slash name
     ∉ unregister_calls (emitted w (afterEach app router to from w).2))
  ∧ (name ∈ w_queue w → name ∈ w_queue (afterEach app router to from w).2)
  ∧ ∃ requeueModules w1,
      drain (length (w_queue w)) toModuleNames fromModuleNames [] w
      = (inr requeueModules, w1)
      ∧ (split_slash name ∉ unregister_calls (emitted w w1))
      ∧ (name ∈ w_queue w → name ∈ requeueModules).
Proof.
  intros Hto Hfrom toModuleNames fromModuleNames Hactive.
  assert (name ∈ w_queue w →
          name ∈ requeued (toModuleNames ++ fromModuleNames) (w_queue w)) as Hrq.
  { intros Hq. unfold requeued. apply list_elem_of_filter. split; [done|].
    by apply elem_of_reverse. }
  set (fetchDataArgs := getFetchDataArgs None app router (w_store w) to (Some from)).
  split_and!.
  - destruct (length (List.filter (λ c, shouldProcessRouteUpdate c fetchDataArgs)
                        toComponents) =? 0)%nat eqn:Hgate.
    + rewrite filter_length_zero in Hgate.
      rewrite (afterEach_skipped _ _ _ _ _ _ _ Hto Hgate). simpl.
      rewrite emitted_refl. apply not_elem_of_nil.
    + rewrite filter_length_nonzero in Hgate.
      rewrite (afterEach_processed _ _ _ _ _ _ _ _ Hto Hfrom Hgate). cbn [snd].
      rewrite emitted_app. by apply drained_active_not_unregistered.
  - intros Hq.
    destruct (length (List.filter (λ c, shouldProcessRouteUpdate c fetchDataArgs)
                        toComponents) =? 0)%nat eqn:Hgate.
    + rewrite filter_length_zero in Hgate.
      by rewrite (afterEach_skipped _ _ _ _ _ _ _ Hto Hgate).
    + rewrite filter_length_nonzero in Hgate.
      rewrite (afterEach_processed _ _ _ _ _ _ _ _ Hto Hfrom Hgate). cbn [snd w_queue].
      apply elem_of_sortBy, elem_of_uniq, elem_of_app. left. by apply Hrq.
  - eexists _, _. split; [apply drain_from_world|]. split; [|done].
    rewrite emitted_app. by apply drained_active_not_unregistered.
Qed.

(** C7. When no component matched by the destination passes the gate, the
    post-commit hook returns at once: the store, the removal queue and the
    calls made are those it started with, so nothing is drained, queued or
    unregistered.  In particular with equal names, equal paths and no policy
    on any matched component, as for [/d -> /d?foo=1], the world is left as
    it was. *)
Theorem afterEach_gate_closed (app : App) (router : RouterT) (to from : Route)
    (w : world) (components : list Component) :
  getMatchedComponents to = inr components →
  ((∀ c, c ∈ components →
      shouldProcessRouteUpdate c
        (getFetchDataArgs None app router (w_store w) to (Some from)) = false) →
   afterEach app router to from w = (inr (), w))
  ∧ (route_name from = route_name to →
     route_path from = route_path to →
     (∀ c, c ∈ components → policy_is_default (c_shouldProcessRouteUpdate c)) →
     afterEach app router to from w = (inr (), w)).
Proof.
  intros Hto. split.
  - by apply afterEach_skipped.
  - intros Hname Hpath Hdef. eapply afterEach_skipped; [done|].
    intros c Hc. rewrite gate_default_policy by auto.
    apply strict_neq_false. simpl. done.
Qed.

(** C2. After a processed post-commit hook the removal queue is the
    de-duplicated union of the requeued names and [fromModuleNames], sorted
    ascending by path-segment depth.  The queue being drained from its
    tail, the [unregisterModule] calls of the following navigation go from
    deeper to shallower paths: a path is never unregistered after a
    shallower one, so [a/b] goes before [a]. *)
Theorem afterEach_next_queue (app : App) (router : RouterT) (to from : Route)
    (w : world) (toComponents fromComponents : list Component) :
  getMatchedComponents to = inr toComponents →
  getMatchedComponents from = inr fromComponents →
  (∃ c, c ∈ toComponents ∧
     shouldProcessRouteUpdate c
       (getFetchDataArgs None app router (w_store w) to (Some from)) = true) →
  let toModuleNames := moduleNamesOf toComponents to in
  let fromModuleNames := moduleNamesOf fromComponents from in
  let w' := (afterEach app router to from w).2 in
  ∃ requeueModules w1,
    drain (length (w_queue w)) toModuleNames fromModuleNames [] w
    = (inr requeueModules, w1)
    ∧ w_queue w1 = []
    ∧ (∀ n, n ∈ requeueModules
            ↔ n ∈ w_queue w ∧ n ∈ toModuleNames ++ fromModuleNames)
    ∧ w_queue w' = sortBy (uniq (requeueModules ++ fromModuleNames)) depth
    ∧ StronglySorted (key_le depth) (w_queue w')
    ∧ NoDup (w_queue w')
    ∧ (∀ n, n ∈ w_queue w' ↔ n ∈ requeueModules ∨ n ∈ fromModuleNames)
    ∧ (∀ app2 router2 to2 from2 w2,
         w_queue w2 = w_queue w' →
         let calls :=
           unregister_calls (emitted w2 (afterEach app2 router2 to2 from2 w2).2) in
         ∀ i j p_i p_j,
           calls !! i = Some p_i → calls !! j = Some p_j → (i < j)%nat →
           (length p_j ≤ length p_i)%nat).
Proof.
  intros Hto Hfrom Hgate toModuleNames fromModuleNames w'.
  assert (w_queue w'
          = sortBy (uniq (requeued (toModuleNames ++ fromModuleNames) (w_queue w)
                          ++ fromModuleNames)) depth) as Hq.
  { subst w'. by rewrite (afterEach_processed _ _ _ _ _ _ _ _ Hto Hfrom Hgate). }
  assert (StronglySorted (key_le depth) (w_queue w')) as Hsorted.
  { rewrite Hq. apply sortBy_sorted. }
  eexists _, _. split; [apply drain_from_world|]. split_and!; try done.
  - intros n. unfold requeued. rewrite list_elem_of_filter, elem_of_reverse. tauto.
  - rewrite Hq. apply NoDup_sortBy, NoDup_uniq.
  - intros n. by rewrite Hq, elem_of_sortBy, elem_of_uniq, elem_of_app.
  - intros app2 router2 to2 from2 w2 Hq2 calls i j p_i p_j Hi Hj Hlt.
    assert (StronglySorted (λ p1 p2, length p2 ≤ length p1)%nat calls) as Hcalls;
      [|exact (StronglySorted_lookup _ _ _ _ _ _ Hcalls Hi Hj Hlt)].
    eapply StronglySorted_sublist; [apply afterEach_unregister_calls|].
    rewrite Hq2. apply StronglySorted_fmap_2.
    by apply StronglySorted_reverse in Hsorted.
Qed.

End Deregistration.

(** ** The fetch pipeline *)

Section Fetch.
Context {H : Host} {R : Realm}.

Lemma bind_inr {A B} (m : M A) (k : A → M B) w a w' :
  m w = (inr a, w') → (m ≫= k) w = k a w'.
Proof. intros Hm. unfold mbind, M_bind, bind. by rewrite Hm. Qed.

Lemma bind_inl {A B} (m : M A) (k : A → M B) w e w' :
  m w = (inl e, w') → (m ≫= k) w = (inl e, w').
Proof. intros Hm. unfold mbind, M_bind, bind. by rewrite Hm. Qed.

Lemma emit_logged e w : emit e w = (inr (), logged w [e]).
Proof. done. Qed.

Lemma logged_logged w evs1 evs2 :
  logged (logged w evs1) evs2 = logged w (evs1 ++ evs2).
Proof. unfold logged. simpl. by rewrite app_assoc. Qed.

Lemma logged_nil w : logged w [] = w.
Proof. destruct w. unfold logged. simpl. by rewrite app_nil_r. Qed.

(** The catch block hands the router the normalized rejection. *)
Lemma normalize_and_cancel_spec e w :
  normalize_and_cancel e w
  = (inr (),
     logged w [LoggerWarn "Error fetching component data, preventing routing" e;
               Next (normalized e)]).
Proof.
  unfold normalize_and_cancel, normalized.
  rewrite (bind_inr _ _ _ _ _ (emit_logged _ w)).
  destruct (instanceof_Error e) eqn:Herr.
  { by rewrite emit_logged, logged_logged. }
  destruct e; try discriminate Herr;
    try (by rewrite emit_logged, logged_logged);
    unfold try_catch, throw;
    match goal with
    | |- context [JSON_stringify ?v] => destruct (JSON_stringify v)
    end; by rewrite emit_logged, logged_logged.
Qed.

Lemma instanceof_Error_normalized e : instanceof_Error (normalized e) = true.
Proof.
  unfold normalized. destruct (instanceof_Error e) eqn:Herr; [done|].
  destruct e; try done;
    match goal with
    | |- context [JSON_stringify ?v] => by destruct (JSON_stringify v)
    end.
Qed.

Lemma first_rejection_elem_of ps t e :
  first_rejection ps = Some (t, e) → Rejected t e ∈ ps.
Proof.
  revert t e. induction ps as [|[v|t' e'] ps IH]; intros t e Hfirst; simpl in *.
  - done.
  - right. by apply IH.
  - destruct (first_rejection ps) as [[t'' e'']|].
    + destruct (t'' <? t')%nat; simplify_eq; [right; by apply IH|left].
    + simplify_eq. left.
Qed.

Lemma Promise_all_rejected ps t e w :
  first_rejection ps = Some (t, e) → Promise_all ps w = (inl e, w).
Proof. intros Hfirst. unfold Promise_all. by rewrite Hfirst. Qed.

Lemma await_if_present_rejected (h : hook) ev fetchDataArgs w t e w' :
  h fetchDataArgs (logged w [ev]) = (inr (Rejected t e), w') →
  await_if_present (Some h) ev fetchDataArgs w = (inl e, w').
Proof.
  intros Hh. unfold logged in Hh.
  unfold await_if_present, await, mbind, M_bind, bind, emit, throw.
  by rewrite Hh.
Qed.

Lemma await_if_present_thrown (h : hook) ev fetchDataArgs w e w' :
  h fetchDataArgs (logged w [ev]) = (inl e, w') →
  await_if_present (Some h) ev fetchDataArgs w = (inl e, w').
Proof.
  intros Hh. unfold logged in Hh.
  unfold await_if_present, await, mbind, M_bind, bind, emit.
  by rewrite Hh.
Qed.

(** An awaited hook throws at the await exactly when the hook fails, with
    the value it failed with. *)
Lemma await_if_present_fails h ev fetchDataArgs w e w' :
  await_if_present h ev fetchDataArgs w = (inl e, w')
  ↔ fails h fetchDataArgs (logged w [ev]) e w'.
Proof.
  unfold fails, logged. destruct h as [f|]; simpl.
  - unfold await, mbind, M_bind, bind, emit, throw, mret, M_ret, ret.
    cbn [w_store w_queue w_trace].
    destruct (f fetchDataArgs _) as [[e0|[v|t e0]] w0] eqn:Hf;
      (split;
       [intros Heq; simplify_eq; eauto 6
       |intros (f' & [= <-] & [Hf'|[t' Hf']]); congruence]).
  - split; [intros [=]|intros (f & [=] & _)].
Qed.

(** A hook called for its promise throws exactly when the hook throws. *)
Lemma call_if_present_throws h ev fetchDataArgs w e w' :
  call_if_present h ev fetchDataArgs w = (inl e, w')
  ↔ ∃ f, h = Some f ∧ f fetchDataArgs (logged w [ev]) = (inl e, w').
Proof.
  unfold logged. destruct h as [f|]; simpl.
  - unfold mbind, M_bind, bind, emit. cbn [w_store w_queue w_trace].
    split; [eauto|]. by intros (f' & [= <-] & Hf).
  - split; [intros [=]|intros (f & [=] & _)].
Qed.

(** Evaluating an array literal throws exactly when one element throws
    after the elements before it have been evaluated. *)
Lemma sequence_throws {A} (ms : list (M A)) w e w' :
  sequence ms w = (inl e, w')
  ↔ ∃ i m results w1,
      ms !! i = Some m
      ∧ sequence (take i ms) w = (inr results, w1)
      ∧ m w1 = (inl e, w').
Proof.
  revert w. induction ms as [|m0 rest IH]; intros w.
  { split; [intros [=]|by intros (i & m & results & w1 & Hi & _)]. }
  split.
  - cbn [sequence]. unfold mbind, M_bind, bind.
    destruct (m0 w) as [[e0|a] w0] eqn:Hm0.
    + intros [= -> ->]. by exists 0%nat, m0, [], w.
    + destruct (sequence rest w0) as [[e1|results] w2] eqn:Hrest; [|intros [=]].
      intros [= -> ->].
      apply IH in Hrest as (i & m & results & w1 & Hi & Hbefore & Hm).
      exists (S i), m, (a :: results), w1. split_and!; [done| |done].
      cbn [take sequence]. unfold mbind, M_bind, bind. by rewrite Hm0, Hbefore.
  - intros ([|i] & m & results & w1 & Hi & Hbefore & Hm).
    + cbn in Hi. cbn [take sequence] in Hbefore.
      unfold mret, M_ret, ret in Hbefore. simplify_eq.
      cbn [sequence]. unfold mbind, M_bind, bind. by rewrite Hm.
    + cbn [take sequence] in Hbefore. cbn in Hi.
      unfold mbind, M_bind, bind in Hbefore.
      cbn [sequence]. unfold mbind, M_bind, bind.
      destruct (m0 w) as [[e0|a] w0] eqn:Hm0; [done|].
      destruct (sequence (take i rest) w0) as [[?|rs] w3] eqn:Htake; [done|].
      assert (sequence rest w0 = (inl e, w')) as ->; [|done].
      apply IH. exists i, m, rs, w3.
      unfold mret, M_ret, ret in Hbefore. by simplify_eq.
Qed.

(** The stages of the pipeline end in a thrown value exactly when one of
    them fails, and then in the value it failed with. *)
Lemma pipeline_fails_stages opts components fetchDataArgs w0 mid post
    (finish : list promise → world → world) e w' :
  match await_if_present (opt opts middleware) CallMiddleware fetchDataArgs w0 with
  | (inl e0, w1) => (inl e0, w1)
  | (inr _, w1) =>
      match sequence (fetchCalls opts components fetchDataArgs) (logged w1 mid) with
      | (inl e0, w2) => (inl e0, w2)
      | (inr ps, w2) =>
          match first_rejection ps with
          | Some (_, e0) => (inl e0, w2)
          | None =>
              match await_if_present (opt opts postMiddleware) CallPostMiddleware
                      fetchDataArgs (logged w2 post) with
              | (inl e0, w3) => (inl e0, w3)
              | (inr _, w3) => (inr (), finish ps w3)
              end
          end
      end
  end = (inl e, w')
  ↔ pipeline_fails opts components fetchDataArgs w0 mid post e w'.
Proof.
  unfold pipeline_fails. cbv zeta. rewrite <-await_if_present_fails.
  destruct (await_if_present (opt opts middleware) _ _ w0) as [[e0|[]] w1] eqn:Hmw.
  { split; [by left|]. by intros [?|(w1' & [=] & _)]. }
  split; [intros H0|].
  - right. exists w1. split; [done|]. revert H0.
    destruct (sequence _ (logged w1 mid)) as [[e0|ps] w2];
      [intros [= -> ->]; by left|].
    intros Hrun. right. destruct (first_rejection ps) as [[t e0]|] eqn:Hfirst.
    + left. exists ps, t. by simplify_eq.
    + right. exists ps, w2. split_and!; [done..|].
      rewrite <-logged_logged. apply await_if_present_fails.
      by destruct (await_if_present _ _ _ (logged w2 post)) as [[e0|[]] w3].
  - intros [[=]|(w1' & [= <-] & Hrest)].
    destruct Hrest as [->|[(ps & t & -> & ->)|(ps & w2 & -> & -> & Hpost)]];
      [done..|].
    rewrite <-logged_logged in Hpost. apply await_if_present_fails in Hpost.
    by rewrite Hpost.
Qed.

Variable getMatchedComponents : Route → value + list Component.
Variable router_getMatchedComponents : RouterT → option Route → list Component.
Variable currentRoute : RouterT → Route.

Abbreviation clientHook := (useFetchDataClient_beforeResolve getMatchedComponents).
Abbreviation serverFetch :=
  (useFetchDataServer router_getMatchedComponents currentRoute).


Lemma filter_nonempty_length {A} (l : list A) :
  l ≠ [] → (length l =? 0)%nat = false.
Proof. by destruct l. Qed.

(** The server pipeline, stage by stage. *)
Lemma serverFetch_stages ssrContext app router opts w :
  let route := currentRoute router in
  let fetchDataArgs := getFetchDataArgs ssrContext app router (w_store w) route None in
  serverFetch ssrContext app router opts w
  = match await_if_present (opt opts middleware) CallMiddleware fetchDataArgs
            (logged w [ConsoleLog]) with
    | (inl e, w1) => (inl e, w1)
    | (inr _, w1) =>
        match sequence
                (fetchCalls opts (router_getMatchedComponents router (Some route))
                   fetchDataArgs) (logged w1 []) with
        | (inl e, w2) => (inl e, w2)
        | (inr ps, w2) =>
            match first_rejection ps with
            | Some (_, e) => (inl e, w2)
            | None =>
                match await_if_present (opt opts postMiddleware) CallPostMiddleware
                        fetchDataArgs (logged w2 []) with
                | (inl e, w3) => (inl e, w3)
                | (inr _, w3) => (inr (), w3)
                end
            end
        end
    end.
Proof.
  intros route fetchDataArgs.
  unfold useFetchDataServer, mbind, M_bind, bind, get_store, emit.
  fold route. cbn [w_store w_queue w_trace]. fold fetchDataArgs.
  change (mkWorld (w_store w) (w_queue w) (w_trace w ++ [ConsoleLog]))
    with (logged w [ConsoleLog]).
  destruct (await_if_present _ _ _ _) as [[e|[]] w1]; [done|].
  rewrite logged_nil.
  destruct (sequence _ w1) as [[e|ps] w2]; [done|].
  unfold Promise_all. destruct (first_rejection ps) as [[t e]|]; [done|].
  unfold mret, M_ret, ret. rewrite logged_nil.
  by destruct (await_if_present _ _ _ w2) as [[e|[]] w3].
Qed.

(** The try block of the client pipeline, stage by stage. *)
Lemma useFetchDataClient_try_stages app router opts to from w components :
  getMatchedComponents to = inr components →
  let routeUpdateStr :=
    template (route_fullPath from) +:+ " -> " +:+ template (route_fullPath to) in
  let fetchDataArgs := getFetchDataArgs None app router (w_store w) to (Some from) in
  let passing :=
    List.filter (λ c, shouldProcessRouteUpdate c fetchDataArgs) components in
  passing ≠ [] →
  useFetchDataClient_try getMatchedComponents opts to routeUpdateStr fetchDataArgs w
  = match await_if_present (opt opts middleware) CallMiddleware fetchDataArgs
            (logged w
               [LoggerDebug
                  ("Running middleware/fetchData for route update "
                   +:+ routeUpdateStr);
                PerfMeasure "beforeResolve"]) with
    | (inl e, w1) => (inl e, w1)
    | (inr _, w1) =>
        match sequence (fetchCalls opts passing fetchDataArgs)
                (logged w1 [PerfMeasure "middleware-complete"]) with
        | (inl e, w2) => (inl e, w2)
        | (inr ps, w2) =>
            match first_rejection ps with
            | Some (_, e) => (inl e, w2)
            | None =>
                match await_if_present (opt opts postMiddleware) CallPostMiddleware
                        fetchDataArgs (logged w2 [PerfMeasure "fetchData-complete"]) with
                | (inl e, w3) => (inl e, w3)
                | (inr _, w3) =>
                    (inr (),
                     logged w3
                       [Next (default VUndefined
                                (find (λ r, negb (nullish r))
                                   (map resolved_value ps)))])
                end
            end
        end
    end.
Proof.
  intros Hto routeUpdateStr fetchDataArgs passing Hpass.
  apply filter_nonempty_length in Hpass.
  unfold useFetchDataClient_try, mbind, M_bind, bind, lift.
  rewrite Hto. fold passing. rewrite Hpass.
  unfold perfMeasure, emit, logged. cbn [w_store w_queue w_trace].
  rewrite <-!app_assoc. cbn [List.app].
  destruct (await_if_present _ _ _ _) as [[e|[]] w1]; [done|].
  cbn [w_store w_queue w_trace].
  destruct (sequence _ _) as [[e|ps] w2]; [done|].
  unfold Promise_all. destruct (first_rejection ps) as [[t e]|]; [done|].
  unfold mret, M_ret, ret. cbn [w_store w_queue w_trace].
  by destruct (await_if_present _ _ _ _) as [[e|[]] w3].
Qed.

(** C9. In the [beforeResolve] hook of the client fetch pipeline, when no
    component matched by the destination passes the gate, the hook logs that
    it ignores the update and calls the continuation once, with no value:
    no middleware, global fetch, component fetch or post-middleware is
    invoked, and the store is untouched. *)
Theorem useFetchDataClient_short_circuit (app : App) (router : RouterT)
    (opts : option Opts) (to from : Route) (w : world) (components : list Component) :
  getMatchedComponents to = inr components →
  (∀ c, c ∈ components →
     shouldProcessRouteUpdate c
       (getFetchDataArgs None app router (w_store w) to (Some from)) = false) →
  clientHook app router opts to from w
  = (inr (),
     logged w
       [LoggerDebug
          ("Ignoring route update "
           +:+ template (route_fullPath from) +:+ " -> "
           +:+ template (route_fullPath to));
        Next VUndefined]).
Proof.
  intros Hto Hgate. rewrite <-filter_length_zero in Hgate.
  unfold useFetchDataClient_beforeResolve, useFetchDataClient_try, try_catch,
    mbind, M_bind, bind, get_store, lift.
  rewrite Hto. cbn [w_store]. rewrite Hgate.
  unfold emit, logged. cbn. by rewrite <-app_assoc.
Qed.

Lemma clientHook_fetch_rejected app router opts to from w components w1 w2 ps t e :
  getMatchedComponents to = inr components →
  let fetchDataArgs := getFetchDataArgs None app router (w_store w) to (Some from) in
  let passing :=
    List.filter (λ c, shouldProcessRouteUpdate c fetchDataArgs) components in
  passing ≠ [] →
  await_if_present (opt opts middleware) CallMiddleware fetchDataArgs
    (logged w
       [LoggerDebug
          ("Running middleware/fetchData for route update "
           +:+ template (route_fullPath from) +:+ " -> "
           +:+ template (route_fullPath to));
        PerfMeasure "beforeResolve"])
  = (inr (), w1) →
  sequence (fetchCalls opts passing fetchDataArgs)
    (logged w1 [PerfMeasure "middleware-complete"])
  = (inr ps, w2) →
  first_rejection ps = Some (t, e) →
  clientHook app router opts to from w
  = (inr (),
     logged w2 [LoggerWarn "Error fetching component data, preventing routing" e;
                Next (normalized e)]).
Proof.
  intros Hto fetchDataArgs passing Hpass Hmw Hseq Hfirst.
  apply filter_nonempty_length in Hpass.
  unfold logged in Hmw, Hseq. cbn [w_store w_queue w_trace] in Hmw, Hseq.
  unfold useFetchDataClient_beforeResolve, useFetchDataClient_try, try_catch,
    mbind, M_bind, bind, get_store, lift.
  rewrite Hto. cbn [w_store]. fold fetchDataArgs. fold passing. rewrite Hpass.
  unfold perfMeasure, emit. cbn [w_store w_queue w_trace].
  rewrite <-!app_assoc. cbn [List.app]. rewrite Hmw, Hseq.
  rewrite (Promise_all_rejected _ _ _ _ Hfirst).
  apply normalize_and_cancel_spec.
Qed.

Lemma clientHook_middleware_rejected app router opts to from w components h w1 t e :
  getMatchedComponents to = inr components →
  let fetchDataArgs := getFetchDataArgs None app router (w_store w) to (Some from) in
  List.filter (λ c, shouldProcessRouteUpdate c fetchDataArgs) components ≠ [] →
  opt opts middleware = Some h →
  h fetchDataArgs
    (logged w
       [LoggerDebug
          ("Running middleware/fetchData for route update "
           +:+ template (route_fullPath from) +:+ " -> "
           +:+ template (route_fullPath to));
        PerfMeasure "beforeResolve";
        CallMiddleware])
  = (inr (Rejected t e), w1) →
  clientHook app router opts to from w
  = (inr (),
     logged w1 [LoggerWarn "Error fetching component data, preventing routing" e;
                Next (normalized e)]).
Proof.
  intros Hto fetchDataArgs Hpass Hopt Hh.
  apply filter_nonempty_length in Hpass.
  unfold logged in Hh. cbn [w_store w_queue w_trace] in Hh.
  unfold useFetchDataClient_beforeResolve, useFetchDataClient_try, try_catch,
    mbind, M_bind, bind, get_store, lift.
  rewrite Hto. cbn [w_store]. fold fetchDataArgs. rewrite Hpass, Hopt.
  unfold perfMeasure, await_if_present, await, mbind, M_bind, bind, emit, throw.
  cbn [w_store w_queue w_trace].
  rewrite <-!app_assoc. cbn [List.app]. rewrite Hh.
  apply normalize_and_cancel_spec.
Qed.

Lemma serverFetch_fetch_rejected ssrContext app router opts w w1 w2 ps t e :
  let route := currentRoute router in
  let fetchDataArgs := getFetchDataArgs ssrContext app router (w_store w) route None in
  await_if_present (opt opts middleware) CallMiddleware fetchDataArgs
    (logged w [ConsoleLog])
  = (inr (), w1) →
  sequence
    (fetchCalls opts (router_getMatchedComponents router (Some route)) fetchDataArgs) w1
  = (inr ps, w2) →
  first_rejection ps = Some (t, e) →
  serverFetch ssrContext app router opts w = (inl e, w2).
Proof.
  intros route fetchDataArgs Hmw Hseq Hfirst.
  unfold logged in Hmw.
  unfold useFetchDataServer, mbind, M_bind, bind, get_store, emit.
  fold route. cbn [w_store]. fold fetchDataArgs.
  rewrite Hmw, Hseq. by rewrite (Promise_all_rejected _ _ _ _ Hfirst).
Qed.

Lemma serverFetch_middleware_rejected ssrContext app router opts w h w1 t e :
  let route := currentRoute router in
  let fetchDataArgs := getFetchDataArgs ssrContext app router (w_store w) route None in
  opt opts middleware = Some h →
  h fetchDataArgs (logged w [ConsoleLog; CallMiddleware]) = (inr (Rejected t e), w1) →
  serverFetch ssrContext app router opts w = (inl e, w1).
Proof.
  intros route fetchDataArgs Hopt Hh.
  unfold logged in Hh. cbn [w_store w_queue w_trace] in Hh.
  unfold useFetchDataServer, mbind, M_bind, bind, get_store, emit.
  fold route. cbn [w_store]. fold fetchDataArgs. rewrite Hopt.
  unfold await_if_present, await, mbind, M_bind, bind, emit, throw.
  cbn [w_store w_queue w_trace].
  rewrite <-!app_assoc. cbn [List.app]. by rewrite Hh.
Qed.

(** C8. The client pipeline hands the router's cancellation callback an
    Error for every rejection: an Error instance as it is, a string [s] as
    [new Error(s)], any other value as an Error carrying its JSON text, so
    that the string [error] becomes an Error with message [error] and the
    object [{error:'oops'}] an Error whose message is the JSON text of the
    object.  This holds for whatever the try block throws, and the try
    block throws exactly when the components provider throws or a stage of
    the pipeline fails: the awaited middleware, a call that throws while
    the array for [Promise.all] is built, the rejection [Promise.all]
    surfaces, the awaited post-middleware.  The server variant rejects
    exactly when one of these stages fails, with the value the stage failed
    with, unchanged. *)
Theorem fetch_rejection_shape :
  (∀ e w,
     normalize_and_cancel e w
     = (inr (),
        logged w [LoggerWarn "Error fetching component data, preventing routing" e;
                  Next (normalized e)]))
  ∧ (∀ e, instanceof_Error (normalized e) = true)
  ∧ (∀ e, instanceof_Error e = true → normalized e = e)
  ∧ (∀ s, normalized (VStr s) = VError s)
  ∧ (∀ e t,
       instanceof_Error e = false → (∀ s, e ≠ VStr s) →
       JSON_stringify e = JsonText t → normalized e = VError t)
  ∧ normalized (VStr "error") = VError "error"
  ∧ normalized (VObj [("error", VStr "oops")]) = VError Scenario.oops_json
  ∧ (∀ app router opts to from w e w1,
       useFetchDataClient_try getMatchedComponents opts to
         (template (route_fullPath from) +:+ " -> " +:+ template (route_fullPath to))
         (getFetchDataArgs None app router (w_store w) to (Some from)) w
       = (inl e, w1) →
       clientHook app router opts to from w
       = (inr (),
          logged w1
            [LoggerWarn "Error fetching component data, preventing routing" e;
             Next (normalized e)]))
  ∧ (∀ app router opts to from w components w1 w2 ps t e,
       getMatchedComponents to = inr components →
       let fetchDataArgs :=
         getFetchDataArgs None app router (w_store w) to (Some from) in
       let passing :=
         List.filter (λ c, shouldProcessRouteUpdate c fetchDataArgs) components in
       passing ≠ [] →
       await_if_present (opt opts middleware) CallMiddleware fetchDataArgs
         (logged w
            [LoggerDebug
               ("Running middleware/fetchData for route update "
                +:+ template (route_fullPath from) +:+ " -> "
                +:+ template (route_fullPath to));
             PerfMeasure "beforeResolve"])
       = (inr (), w1) →
       sequence (fetchCalls opts passing fetchDataArgs)
         (logged w1 [PerfMeasure "middleware-complete"])
       = (inr ps, w2) →
       first_rejection ps = Some (t, e) →
       Rejected t e ∈ ps
       ∧ clientHook app router opts to from w
         = (inr (),
            logged w2
              [LoggerWarn "Error fetching component data, preventing routing" e;
               Next (normalized e)]))
  ∧ (∀ app router opts to from w components h w1 t e,
       getMatchedComponents to = inr components →
       let fetchDataArgs :=
         getFetchDataArgs None app router (w_store w) to (Some from) in
       List.filter (λ c, shouldProcessRouteUpdate c fetchDataArgs) components ≠ [] →
       opt opts middleware = Some h →
       h fetchDataArgs
         (logged w
            [LoggerDebug
               ("Running middleware/fetchData for route update "
                +:+ template (route_fullPath from) +:+ " -> "
                +:+ template (route_fullPath to));
             PerfMeasure "beforeResolve";
             CallMiddleware])
       = (inr (Rejected t e), w1) →
       clientHook app router opts to from w
       = (inr (),
          logged w1
            [LoggerWarn "Error fetching component data, preventing routing" e;
             Next (normalized e)]))
  ∧ (∀ ssrContext app router opts w w1 w2 ps t e,
       let route := currentRoute router in
       let fetchDataArgs :=
         getFetchDataArgs ssrContext app router (w_store w) route None in
       await_if_present (opt opts middleware) CallMiddleware fetchDataArgs
         (logged w [ConsoleLog])
       = (inr (), w1) →
       sequence
         (fetchCalls opts (router_getMatchedComponents router (Some route))
            fetchDataArgs) w1
       = (inr ps, w2) →
       first_rejection ps = Some (t, e) →
       Rejected t e ∈ ps
       ∧ serverFetch ssrContext app router opts w = (inl e, w2))
  ∧ (∀ ssrContext app router opts w h w1 t e,
       let route := currentRoute router in
       let fetchDataArgs :=
         getFetchDataArgs ssrContext app router (w_store w) route None in
       opt opts middleware = Some h →
       h fetchDataArgs (logged w [ConsoleLog; CallMiddleware])
       = (inr (Rejected t e), w1) →
       serverFetch ssrContext app router opts w = (inl e, w1))
  ∧ (∀ app router opts to from w e,
       getMatchedComponents to = inl e →
       useFetchDataClient_try getMatchedComponents opts to
         (template (route_fullPath from) +:+ " -> " +:+ template (route_fullPath to))
         (getFetchDataArgs None app router (w_store w) to (Some from)) w
       = (inl e, w))
  ∧ (∀ app router opts to from w components e w',
       getMatchedComponents to = inr components →
       let routeUpdateStr :=
         template (route_fullPath from) +:+ " -> " +:+ template (route_fullPath to) in
       let fetchDataArgs :=
         getFetchDataArgs None app router (w_store w) to (Some from) in
       let passing :=
         List.filter (λ c, shouldProcessRouteUpdate c fetchDataArgs) components in
       passing ≠ [] →
       useFetchDataClient_try getMatchedComponents opts to routeUpdateStr
         fetchDataArgs w
       = (inl e, w')
       ↔ pipeline_fails opts passing fetchDataArgs
           (logged w
              [LoggerDebug
                 ("Running middleware/fetchData for route update "
                  +:+ routeUpdateStr);
               PerfMeasure "beforeResolve"])
           [PerfMeasure "middleware-complete"] [PerfMeasure "fetchData-complete"]
           e w')
  ∧ (∀ ssrContext app router opts w e w',
       let route := currentRoute router in
       let fetchDataArgs :=
         getFetchDataArgs ssrContext app router (w_store w) route None in
       serverFetch ssrContext app router opts w = (inl e, w')
       ↔ pipeline_fails opts (router_getMatchedComponents router (Some route))
           fetchDataArgs (logged w [ConsoleLog]) [] [] e w')
  ∧ (∀ (calls : list (M promise)) w e w',
       sequence calls w = (inl e, w')
       ↔ ∃ i call ps w1,
           calls !! i = Some call
           ∧ sequence (take i calls) w = (inr ps, w1)
           ∧ call w1 = (inl e, w'))
  ∧ (∀ h ev fetchDataArgs w e w',
       call_if_present h ev fetchDataArgs w = (inl e, w')
       ↔ ∃ f, h = Some f ∧ f fetchDataArgs (logged w [ev]) = (inl e, w')).
Proof.
  split_and!.
  - apply normalize_and_cancel_spec.
  - apply instanceof_Error_normalized.
  - intros e He. unfold normalized. by rewrite He.
  - done.
  - intros e t He Hstr Hjson. unfold normalized. rewrite He, Hjson.
    destruct e; try done. by destruct (Hstr s).
  - done.
  - by vm_compute.
  - intros app router opts to from w e w1 Htry.
    unfold useFetchDataClient_beforeResolve, try_catch, mbind, M_bind, bind, get_store.
    rewrite Htry. apply normalize_and_cancel_spec.
  - intros. split; [by apply first_rejection_elem_of|].
    by eapply clientHook_fetch_rejected.
  - intros. by eapply clientHook_middleware_rejected.
  - intros. split; [by apply first_rejection_elem_of|].
    by eapply serverFetch_fetch_rejected.
  - intros. by eapply serverFetch_middleware_rejected.
  - intros app router opts to from w e Hto.
    unfold useFetchDataClient_try, mbind, M_bind, bind, lift. by rewrite Hto.
  - intros app router opts to from w components e w' Hto
      routeUpdateStr fetchDataArgs passing Hpass.
    subst routeUpdateStr fetchDataArgs passing.
    rewrite (useFetchDataClient_try_stages app router opts to from w components
               Hto Hpass).
    apply (pipeline_fails_stages opts _ _ _ _ _
             (λ ps w3,
                logged w3
                  [Next (default VUndefined
                           (find (λ r, negb (nullish r)) (map resolved_value ps)))])).
  - intros ssrContext app router opts w e w' route fetchDataArgs.
    subst route fetchDataArgs. rewrite serverFetch_stages.
    apply (pipeline_fails_stages opts _ _ _ _ _ (λ _ w3, w3)).
  - apply @sequence_throws.
  - apply call_if_present_throws.
Qed.

End Fetch.

(** * The statements at the concrete host *)

Lemma testHost_laws : HostLaws Scenario.testHost.
Proof.
  split.
  - intros st p m b. simpl. apply bool_decide_eq_true, elem_of_app.
    right. apply list_elem_of_singleton. done.
  - intros st p m b p' _ Hp'. simpl in *. apply bool_decide_eq_true in Hp'.
    apply bool_decide_eq_true, elem_of_app. by left.
Qed.

Section Witnesses.
Import Scenario.
#[local] Existing Instance testHost.
#[local] Existing Instance testRealm.

(** C6 at [/a -> /a] between the entries named [1] and [2], for a component
    whose policy function declines. *)
Lemma shouldProcessRouteUpdate_name_change_witness :
  let fetchDataArgs :=
    getFetchDataArgs None () (route "/") (mkTestStore [] (VObj []))
      (named "2" (route "/a")) (Some (named "1" (route "/a"))) in
  get (fda_from fetchDataArgs) route_name ≠ route_name (fda_route fetchDataArgs)
  ∧ shouldProcessRouteUpdate reluctant fetchDataArgs = true.
Proof.
  assert (PStr "1" ≠ PStr "2") as Hne by discriminate.
  split; [exact Hne|].
  apply (shouldProcessRouteUpdate_name_change reluctant). exact Hne.
Defined.

(** C5 at [/d -> /d?foo=1] and at [/c -> /d], without a policy. *)
Lemma shouldProcessRouteUpdate_default_policy_witness :
  let st := mkTestStore [] (VObj []) in
  shouldProcessRouteUpdate plain
    (getFetchDataArgs None () (route "/") st route_d_foo (Some (route "/d"))) = false
  ∧ shouldProcessRouteUpdate plain
      (getFetchDataArgs None () (route "/") st (route "/d") (Some (route "/c")))
    ≠ false.
Proof.
  split.
  - apply (shouldProcessRouteUpdate_default_policy plain); [reflexivity|exact I|].
    reflexivity.
  - intros Hfalse.
    apply (shouldProcessRouteUpdate_default_policy plain) in Hfalse;
      [|reflexivity|exact I].
    discriminate Hfalse.
Defined.



(** C3: a name function that reads the key [route] is handed no such key. *)
Lemma getModuleName_route_key_counterexample :
  let vuexModuleDef := mkVuexModuleDef name_of_route_key "testModule" in
  getModuleName vuexModuleDef (route "/a") = "no-route"
  ∧ getModuleName_route_key vuexModuleDef (route "/a") = "route"
  ∧ getModuleName vuexModuleDef (route "/a")
    ≠ getModuleName_route_key vuexModuleDef (route "/a").
Proof. split_and!; [by vm_compute|by vm_compute|by vm_compute]. Qed.

(** C3 (as amended) at [/a -> /nested]: the path handed to
    [store.registerModule] is [foo], [bar], [baz]. *)
Lemma getModuleName_resolution_witness :
  let w := world0 [] [] in
  register_calls
    (emitted w
       (useRouteVuexModulesClient_beforeResolve getMatchedComponents () (route "/")
          (route "/nested") (route "/a") w).2)
  = [["foo"; "bar"; "baz"]]
  ∧ ∃ c vuexModuleDef,
      c ∈ [declaring [NameLiteral "foo/bar/baz"]]
      ∧ vuexModuleDef ∈ vuex_of c
      ∧ ["foo"; "bar"; "baz"]
        = split_slash (match moduleName vuexModuleDef with
                       | NameFn f => f {[ "$route" := route "/nested" ]}
                       | NameLiteral s => s
                       end).
Proof.
  split; [by vm_compute|].
  destruct (getModuleName_resolution getMatchedComponents () (route "/")
              (route "/nested") (route "/a") (world0 [] [])
              [declaring [NameLiteral "foo/bar/baz"]] eq_refl)
    as (_ & _ & _ & Hcalls & _).
  apply Hcalls. apply (bool_decide_unpack _). by vm_compute.
Defined.

(** C1 at [/y -> /x] with [a] and [a/b] queued: [/x] declares both, so
    neither is unregistered and [a/b] stays queued. *)
Lemma afterEach_keeps_active_modules_witness :
  let w := world0 [["a"]; ["a"; "b"]] ["a"; "a/b"] in
  let w' :=
    (useRouteVuexModulesClient_afterEach getMatchedComponents () (route "/")
       (route "/x") (route "/y") w).2 in
  ("a/b" ∈ moduleNamesOf [declaring [NameLiteral "a/b"; NameLiteral "a"]] (route "/x")
           ++ moduleNamesOf [plain] (route "/y"))
  ∧ (split_slash "a/b" ∉ unregister_calls (emitted w w'))
  ∧ ("a/b" ∈ w_queue w').
Proof.
  intros w w'.
  assert ("a/b" ∈ moduleNamesOf [declaring [NameLiteral "a/b"; NameLiteral "a"]]
                    (route "/x")
                  ++ moduleNamesOf [plain] (route "/y")) as Hactive
    by (apply (bool_decide_unpack _); by vm_compute).
  destruct (afterEach_keeps_active_modules getMatchedComponents () (route "/")
              (route "/x") (route "/y") w
              [declaring [NameLiteral "a/b"; NameLiteral "a"]] [plain] "a/b"
              eq_refl eq_refl Hactive) as (Hcalls & Hqueue & _).
  split_and!; [exact Hactive|exact Hcalls|].
  apply Hqueue. apply (bool_decide_unpack _). by vm_compute.
Defined.

(** C2 at [/x -> /y], where [/x] declares [a/b] and [a]: the queue becomes
    [a], [a/b]; leaving for [/z], [a/b] is unregistered before [a]. *)
Lemma afterEach_next_queue_witness :
  let w := world0 [["a"]; ["a"; "b"]] [] in
  let w' :=
    (useRouteVuexModulesClient_afterEach getMatchedComponents () (route "/")
       (route "/y") (route "/x") w).2 in
  let calls :=
    unregister_calls
      (emitted w'
         (useRouteVuexModulesClient_afterEach getMatchedComponents () (route "/")
            (route "/z") (route "/y") w').2) in
  (∃ c, c ∈ [plain] ∧
     shouldProcessRouteUpdate c
       (getFetchDataArgs None () (route "/") (w_store w) (route "/y")
          (Some (route "/x"))) = true)
  ∧ w_queue w' = ["a"; "a/b"]
  ∧ calls = [["a"; "b"]; ["a"]]
  ∧ ∀ i j p_i p_j,
      calls !! i = Some p_i → calls !! j = Some p_j → (i < j)%nat →
      (length p_j ≤ length p_i)%nat.
Proof.
  intros w w' calls.
  assert (∃ c, c ∈ [plain] ∧
            shouldProcessRouteUpdate c
              (getFetchDataArgs None () (route "/") (w_store w) (route "/y")
                 (Some (route "/x"))) = true) as Hgate.
  { exists plain. split; [left|reflexivity]. }
  destruct (afterEach_next_queue getMatchedComponents () (route "/")
              (route "/y") (route "/x") w [plain]
              [declaring [NameLiteral "a/b"; NameLiteral "a"]]
              eq_refl eq_refl Hgate)
    as (requeueModules & w1 & _ & _ & _ & _ & _ & _ & _ & Hnext).
  split_and!; [exact Hgate|by vm_compute|by vm_compute|].
  exact (Hnext () (route "/") (route "/z") (route "/y") w' eq_refl).
Defined.

(** C7 at [/d -> /d?foo=1] with [c] queued: the hook changes nothing. *)
Lemma afterEach_gate_closed_witness :
  let w := world0 [["c"]; ["d"]] ["c"] in
  useRouteVuexModulesClient_afterEach getMatchedComponents () (route "/")
    route_d_foo (route "/d") w
  = (inr (), w).
Proof.
  intros w.
  destruct (afterEach_gate_closed getMatchedComponents () (route "/")
              route_d_foo (route "/d") w [declaring [name_of_path]] eq_refl)
    as [_ Hdefault].
  apply Hdefault; [reflexivity|reflexivity|].
  intros c Hc. apply list_elem_of_singleton in Hc as ->. exact I.
Defined.

(** C9 at [/d -> /d?foo=1] with all three option hooks set: none runs. *)
Lemma useFetchDataClient_short_circuit_witness :
  useFetchDataClient_beforeResolve getMatchedComponents () (route "/")
    (Some all_hooks) route_d_foo (route "/d") (world0 [] [])
  = (inr (),
     mkWorld (mkTestStore [] (VObj [])) []
       [LoggerDebug "Ignoring route update /d -> /d?foo=1"; Next VUndefined]).
Proof.
  apply (useFetchDataClient_short_circuit getMatchedComponents () (route "/")
           (Some all_hooks) route_d_foo (route "/d") (world0 [] [])
           [declaring [name_of_path]] eq_refl).
  intros c Hc. apply list_elem_of_singleton in Hc as ->. reflexivity.
Defined.

(** C8 at [/a -> /reject] and [/a -> /oops], whose components reject with
    the string [error] and with the object [{error:'oops'}]: the router
    receives an Error with the string, respectively the JSON text, as its
    message; the server caller receives the string itself.  At [/a -> /b]
    with a post-middleware that rejects with the number 1e21, and with a
    global fetch that throws an array of numbers before it returns a
    promise: the router receives an Error with the text of the number,
    respectively of the array, the server caller the number and the thrown
    value themselves.  The table gives what the catch block hands the
    router for further rejections. *)
Lemma fetch_rejection_shape_witness :
  useFetchDataClient_beforeResolve getMatchedComponents () (route "/")
    (Some all_hooks) (route "/reject") (route "/a") (world0 [] [])
  = (inr (),
     mkWorld (mkTestStore [] (VObj [])) []
       [LoggerDebug "Running middleware/fetchData for route update /a -> /reject";
        PerfMeasure "beforeResolve"; CallMiddleware;
        PerfMeasure "middleware-complete"; CallGlobalFetchData; CallFetchData 0;
        LoggerWarn "Error fetching component data, preventing routing" (VStr "error");
        Next (VError "error")])
  ∧ useFetchDataClient_beforeResolve getMatchedComponents () (route "/")
      None (route "/oops") (route "/a") (world0 [] [])
    = (inr (),
       mkWorld (mkTestStore [] (VObj [])) []
         [LoggerDebug "Running middleware/fetchData for route update /a -> /oops";
          PerfMeasure "beforeResolve"; PerfMeasure "middleware-complete";
          CallFetchData 0;
          LoggerWarn "Error fetching component data, preventing routing"
            (VObj [("error", VStr "oops")]);
          Next (VError oops_json)])
  ∧ useFetchDataServer router_getMatchedComponents currentRoute None ()
      (route "/reject") (Some all_hooks) (world0 [] [])
    = (inl (VStr "error"),
       mkWorld (mkTestStore [] (VObj [])) []
         [ConsoleLog; CallMiddleware; CallGlobalFetchData; CallFetchData 0])
  ∧ useFetchDataClient_beforeResolve getMatchedComponents () (route "/")
      (Some (rejecting_late (VNum (10 ^ 21)))) (route "/b") (route "/a")
      (world0 [] [])
    = (inr (),
       mkWorld (mkTestStore [] (VObj [])) []
         [LoggerDebug "Running middleware/fetchData for route update /a -> /b";
          PerfMeasure "beforeResolve"; CallMiddleware;
          PerfMeasure "middleware-complete"; PerfMeasure "fetchData-complete";
          CallPostMiddleware;
          LoggerWarn "Error fetching component data, preventing routing"
            (VNum (10 ^ 21));
          Next (VError "1e+21")])
  ∧ useFetchDataClient_beforeResolve getMatchedComponents () (route "/")
      (Some (throwing_fetch (VArr [VNum (2 ^ 53 + 1); VNaN; VNum (- 2 ^ 1024); VDecimal 1 (- 1);
                  VDecimal 1 (- 7)])))
      (route "/b") (route "/a") (world0 [] [])
    = (inr (),
       mkWorld (mkTestStore [] (VObj [])) []
         [LoggerDebug "Running middleware/fetchData for route update /a -> /b";
          PerfMeasure "beforeResolve"; PerfMeasure "middleware-complete";
          CallGlobalFetchData;
          LoggerWarn "Error fetching component data, preventing routing"
            (VArr [VNum (2 ^ 53 + 1); VNaN; VNum (- 2 ^ 1024); VDecimal 1 (- 1);
                  VDecimal 1 (- 7)]);
          Next (VError "[9007199254740992,null,null,0.1,1e-7]")])
  ∧ useFetchDataServer router_getMatchedComponents currentRoute None ()
      (route "/b") (Some (rejecting_late (VNum (10 ^ 21)))) (world0 [] [])
    = (inl (VNum (10 ^ 21)),
       mkWorld (mkTestStore [] (VObj [])) []
         [ConsoleLog; CallMiddleware; CallPostMiddleware])
  ∧ useFetchDataServer router_getMatchedComponents currentRoute None ()
      (route "/b") (Some (throwing_fetch (VStr "sync"))) (world0 [] [])
    = (inl (VStr "sync"),
       mkWorld (mkTestStore [] (VObj [])) [] [ConsoleLog; CallGlobalFetchData])
  ∧ (λ e, last (w_trace (normalize_and_cancel e (world0 [] [])).2))
    <$> [VStr EmptyString; VUndefined; VNull; VBool false; VNum 0;
         VDecimal 15 (- 1); VBigInt 1; VArr [VBigInt 1]; VError "boom";
         VDOMException "AbortError" "stop";
         VObj [("b", VUndefined); ("a", VArr [VUndefined; VDecimal 15 (- 1)]);
               ("2", VNull); ("1", VBool true)]]
    = (λ e, Some (Next e))
      <$> [VError EmptyString; VError EmptyString; VError "null"; VError "false";
           VError "0"; VError "1.5"; VError "Unknown routing error";
           VError "Unknown routing error"; VError "boom";
           VDOMException "AbortError" "stop"; VError ordered_json].
Proof.
  destruct (fetch_rejection_shape getMatchedComponents router_getMatchedComponents
              currentRoute)
    as (_ & _ & _ & _ & _ & _ & _ & Hany & Hclient & _ & Hserver & _ & _ & Htry
        & Hstages & _).
  assert (normalized (VNum (10 ^ 21)) = VError "1e+21") as Hnumber
    by (by vm_compute).
  assert (normalized (VArr [VNum (2 ^ 53 + 1); VNaN; VNum (- 2 ^ 1024); VDecimal 1 (- 1);
                  VDecimal 1 (- 7)])
          = VError "[9007199254740992,null,null,0.1,1e-7]") as Harray
    by (by vm_compute).
  split_and!.
  - refine (proj2 (Hclient () (route "/") (Some all_hooks) (route "/reject")
                     (route "/a") (world0 [] []) [rejecting (VStr "error")]
                     _ _ [Resolved VUndefined; Rejected 0 (VStr "error")] 0%nat
                     (VStr "error") eq_refl _ eq_refl eq_refl eq_refl)).
    discriminate.
  - refine (proj2 (Hclient () (route "/") None (route "/oops")
                     (route "/a") (world0 [] [])
                     [rejecting (VObj [("error", VStr "oops")])]
                     _ _ [Resolved VUndefined;
                          Rejected 0 (VObj [("error", VStr "oops")])] 0%nat
                     (VObj [("error", VStr "oops")])
                     eq_refl _ eq_refl eq_refl eq_refl)).
    discriminate.
  - exact (proj2 (Hserver None () (route "/reject") (Some all_hooks) (world0 [] [])
                    _ _ [Resolved VUndefined; Rejected 0 (VStr "error")] 0%nat
                    (VStr "error") eq_refl eq_refl eq_refl)).
  - rewrite (Hany () (route "/") (Some (rejecting_late (VNum (10 ^ 21))))
               (route "/b") (route "/a") (world0 [] []) (VNum (10 ^ 21))
               (logged (world0 [] [])
                  [LoggerDebug "Running middleware/fetchData for route update /a -> /b";
                   PerfMeasure "beforeResolve"; CallMiddleware;
                   PerfMeasure "middleware-complete";
                   PerfMeasure "fetchData-complete"; CallPostMiddleware])).
    { by rewrite Hnumber. }
    apply (Htry () (route "/") (Some (rejecting_late (VNum (10 ^ 21))))
             (route "/b") (route "/a") (world0 [] [])
             [declaring [name_of_path]] _ _ eq_refl); [discriminate|].
    right. eexists. split; [reflexivity|]. right. right.
    exists [Resolved VUndefined; Resolved VUndefined]. eexists.
    split_and!; [reflexivity..|].
    eexists. split; [reflexivity|]. right. by exists 0%nat.
  - rewrite (Hany () (route "/")
               (Some (throwing_fetch
                        (VArr [VNum (2 ^ 53 + 1); VNaN; VNum (- 2 ^ 1024); VDecimal 1 (- 1);
                  VDecimal 1 (- 7)])))
               (route "/b") (route "/a") (world0 [] [])
               (VArr [VNum (2 ^ 53 + 1); VNaN; VNum (- 2 ^ 1024); VDecimal 1 (- 1);
                  VDecimal 1 (- 7)])
               (logged (world0 [] [])
                  [LoggerDebug "Running middleware/fetchData for route update /a -> /b";
                   PerfMeasure "beforeResolve"; PerfMeasure "middleware-complete";
                   CallGlobalFetchData])).
    { by rewrite Harray. }
    apply (Htry () (route "/")
             (Some (throwing_fetch
                      (VArr [VNum (2 ^ 53 + 1); VNaN; VNum (- 2 ^ 1024); VDecimal 1 (- 1);
                  VDecimal 1 (- 7)])))
             (route "/b") (route "/a") (world0 [] [])
             [declaring [name_of_path]] _ _ eq_refl); [discriminate|].
    right. eexists. split; [reflexivity|]. by left.
  - apply (Hstages None () (route "/b") (Some (rejecting_late (VNum (10 ^ 21))))
             (world0 [] [])).
    right. eexists. split; [reflexivity|]. right. right.
    exists [Resolved VUndefined; Resolved VUndefined]. eexists.
    split_and!; [reflexivity..|].
    eexists. split; [reflexivity|]. right. by exists 0%nat.
  - apply (Hstages None () (route "/b") (Some (throwing_fetch (VStr "sync")))
             (world0 [] [])).
    right. eexists. split; [reflexivity|]. by left.
  - by vm_compute.
Defined.


End Witnesses.

(** * Further properties *)

(** ** The hooks of the client lifecycle manager *)

Section Lifecycle.
Context {H : Host} {R : Realm}.
Variable getMatchedComponents : Route → value + list Component.

Abbreviation preCommit :=
  (useRouteVuexModulesClient_beforeResolve getMatchedComponents).
Abbreviation postCommit :=
  (useRouteVuexModulesClient_afterEach getMatchedComponents).

Lemma replay_app st evs1 evs2 :
  replay st (evs1 ++ evs2)
  = match replay st evs1 with
    | Some st' => replay st' evs2
    | None => None
    end.
Proof.
  revert st. induction evs1 as [|e evs1 IH]; intros st; simpl; [done|].
  destruct (apply_store_call st e); [apply IH|done].
Qed.

Lemma replay_drained active names st :
  replay st (drained active names st).2 = Some (drained active names st).1.
Proof.
  revert st. induction names as [|name rest IH]; intros st; simpl; [done|].
  case_bool_decide.
  - specialize (IH st). by destruct (drained active rest st).
  - destruct (hasModule st (split_slash name)) eqn:Hhas.
    + specialize (IH (unregisterModule st (split_slash name))).
      destruct (drained active rest _). simpl. by rewrite Hhas.
    + specialize (IH st). by destruct (drained active rest st).
Qed.

Lemma replay_registering modules st :
  replay st (registering modules st).2 = Some (registering modules st).1.
Proof.
  revert st. induction modules as [|[name m] rest IH]; intros st; simpl; [done|].
  destruct (hasModule st (split_slash name)) eqn:Hhas.
  - specialize (IH st). by destruct (registering rest st).
  - set (st1 := registerModule st _ m _). specialize (IH st1).
    destruct (registering rest st1). simpl. by rewrite Hhas.
Qed.


Lemma drained_no_register active names st :
  register_calls (drained active names st).2 = []
  ∧ next_calls (drained active names st).2 = [].
Proof.
  revert st. induction names as [|name rest IH]; intros st; simpl; [done|].
  case_bool_decide.
  - specialize (IH st). by destruct (drained active rest st).
  - destruct (hasModule st (split_slash name)).
    + specialize (IH (unregisterModule st (split_slash name))).
      by destruct (drained active rest _).
    + specialize (IH st). by destruct (drained active rest st).
Qed.

(** The hook when the components provider throws. *)
Lemma preCommit_thrown app router to from w e :
  getMatchedComponents to = inl e →
  ∃ msg, preCommit app router to from w
         = (inr (), logged w [LoggerError msg e; Next e]).
Proof.
  intros Hto.
  unfold useRouteVuexModulesClient_beforeResolve, try_catch, mbind, M_bind, bind,
    get_store, lift.
  rewrite Hto. unfold logged, emit.
  destruct (instanceof_DOMException e); eexists; cbn [w_store w_queue w_trace];
    rewrite <-app_assoc; reflexivity.
Qed.

(** The four ways the post-commit hook can go. *)
Lemma postCommit_cases app router to from w :
  let fetchDataArgs := getFetchDataArgs None app router (w_store w) to (Some from) in
  (∃ e, postCommit app router to from w = (inl e, w)
        ∧ (getMatchedComponents to = inl e
           ∨ getMatchedComponents from = inl e))
  ∨ (postCommit app router to from w = (inr (), w))
  ∨ (∃ toComponents fromComponents,
       getMatchedComponents to = inr toComponents
       ∧ getMatchedComponents from = inr fromComponents
       ∧ (∃ c, c ∈ toComponents ∧ shouldProcessRouteUpdate c fetchDataArgs = true)).
Proof.
  intros fetchDataArgs.
  destruct (getMatchedComponents to) as [e|toComponents] eqn:Hto.
  { left. exists e. split; [|by left].
    unfold useRouteVuexModulesClient_afterEach, mbind, M_bind, bind, get_store, lift.
    by rewrite Hto. }
  destruct (length (List.filter (λ c, shouldProcessRouteUpdate c fetchDataArgs)
                      toComponents) =? 0)%nat eqn:Hgate.
  { right. left. rewrite filter_length_zero in Hgate.
    by apply afterEach_skipped with (components := toComponents). }
  destruct (getMatchedComponents from) as [e|fromComponents] eqn:Hfrom.
  { left. exists e. split; [|by right].
    unfold useRouteVuexModulesClient_afterEach, mbind, M_bind, bind, get_store, lift.
    rewrite Hto. fold fetchDataArgs. rewrite Hgate. simpl. by rewrite Hfrom. }
  right. right. rewrite filter_length_nonzero in Hgate. eauto.
Qed.

Lemma preCommit_queue app router to from w :
  w_queue (preCommit app router to from w).2 = w_queue w.
Proof.
  destruct (getMatchedComponents to) as [e|components] eqn:Hto.
  - by destruct (preCommit_thrown app router to from w e Hto) as [msg ->].
  - by rewrite (beforeResolve_registers _ _ _ _ _ _ _ Hto).
Qed.


Lemma declared_nil components route :
  (∀ c, c ∈ components → has_vuex c = false) → declared components route = [].
Proof.
  intros Hnone. unfold declared.
  rewrite <-flat_map_vuex_of_filter.
  assert (List.filter has_vuex components = []) as ->; [|done].
  induction components as [|c l IH]; simpl; [done|].
  rewrite (Hnone c) by left. apply IH. intros c' Hc'. apply Hnone. by right.
Qed.

(** X3. When every matched component that declares modules fails the gate,
    the pre-commit hook registers nothing: it only calls [next()]. *)
Theorem preCommit_gate_closed (app : App) (router : RouterT) (to from : Route)
    (w : world) (components : list Component) :
  getMatchedComponents to = inr components →
  (∀ c, c ∈ components → has_vuex c = true →
     shouldProcessRouteUpdate c
       (getFetchDataArgs None app router (w_store w) to (Some from)) = false) →
  preCommit app router to from w = (inr (), logged w [Next VUndefined]).
Proof.
  intros Hto Hgate. rewrite (beforeResolve_registers _ _ _ _ _ _ _ Hto).
  rewrite declared_nil; [done|].
  intros c [Hc Hpass]%elem_of_List_filter.
  destruct (has_vuex c) eqn:Hv; [|done].
  rewrite (Hgate c Hc Hv) in Hpass. done.
Qed.

Lemma postCommit_emitted app router to from w :
  (postCommit app router to from w).2 = w
  ∨ ∃ active,
      (postCommit app router to from w).1 = inr ()
      ∧ w_store (postCommit app router to from w).2
        = (drained active (reverse (w_queue w)) (w_store w)).1
      ∧ emitted w (postCommit app router to from w).2
        = (drained active (reverse (w_queue w)) (w_store w)).2
      ∧ ∃ l, w_queue (postCommit app router to from w).2 = sortBy (uniq l) depth.
Proof.
  destruct (postCommit_cases app router to from w)
    as [(e & -> & _)|[->|(toC & fromC & Hto & Hfrom & Hgate)]]; [by left..|].
  right. rewrite (afterEach_processed _ _ _ _ _ _ _ _ Hto Hfrom Hgate).
  cbn [fst snd w_store w_queue]. rewrite emitted_app. eauto 10.
Qed.

(** X5. The post-commit hook never registers a module and never calls
    [next]; every path it unregisters is the path of a name that was queued
    when it started, so it makes at most one call per queued name and none
    when the queue is empty. *)
Theorem postCommit_unregisters_only_queued (app : App) (router : RouterT)
    (to from : Route) (w : world) :
  let evs := emitted w (postCommit app router to from w).2 in
  register_calls evs = []
  ∧ next_calls evs = []
  ∧ (∀ p, p ∈ unregister_calls evs →
       ∃ name, name ∈ w_queue w ∧ p = split_slash name)
  ∧ (length (unregister_calls evs) ≤ length (w_queue w))%nat.
Proof.
  intros evs.
  pose proof (afterEach_unregister_calls getMatchedComponents app router to from w)
    as Hsub. fold evs in Hsub.
  assert (register_calls evs = [] ∧ next_calls evs = []) as [Hreg Hnext].
  { subst evs. destruct (postCommit_emitted app router to from w)
      as [->|(active & _ & _ & -> & _)].
    - by rewrite emitted_refl.
    - apply drained_no_register. }
  split_and!; [done|done| |].
  - intros p Hp. eapply elem_of_sublist in Hp; [|exact Hsub].
    apply list_elem_of_fmap in Hp as (name & -> & Hname).
    exists name. by rewrite elem_of_reverse in Hname.
  - apply sublist_length in Hsub.
    by rewrite length_fmap, length_reverse in Hsub.
Qed.

Lemma drained_inactive active names st name :
  name ∈ names → name ∉ active →
  UnregisterModule (split_slash name) ∈ (drained active names st).2
  ∨ LoggerInfo ("No existing dynamic module to unregister: " +:+ name)
    ∈ (drained active names st).2.
Proof.
  revert st. induction names as [|n rest IH]; intros st Hin Hact.
  - by apply elem_of_nil in Hin.
  - simpl. apply elem_of_cons in Hin as [<-|Hin].
    + rewrite bool_decide_eq_false_2 by done.
      destruct (hasModule st (split_slash name)).
      * left. destruct (drained active rest _). simpl. right. left.
      * right. destruct (drained active rest st). simpl. left.
    + case_bool_decide.
      * destruct (IH st Hin Hact); destruct (drained active rest st);
          [left|right]; by right.
      * destruct (hasModule st (split_slash n)).
        -- destruct (IH (unregisterModule st (split_slash n)) Hin Hact);
             destruct (drained active rest _); [left|right]; by do 2 right.
        -- destruct (IH st Hin Hact); destruct (drained active rest st);
             [left|right]; by right.
Qed.

(** X6. In a processed post-commit hook a queued name that neither route
    requires leaves the queue: the hook unregisters its path, or logs that
    the store has no such module, and does not queue it again. *)
Theorem postCommit_inactive_leaves_queue (app : App) (router : RouterT)
    (to from : Route) (w : world) (toComponents fromComponents : list Component)
    (name : string) :
  getMatchedComponents to = inr toComponents →
  getMatchedComponents from = inr fromComponents →
  (∃ c, c ∈ toComponents ∧
     shouldProcessRouteUpdate c
       (getFetchDataArgs None app router (w_store w) to (Some from)) = true) →
  name ∈ w_queue w →
  name ∉ moduleNamesOf toComponents to ++ moduleNamesOf fromComponents from →
  let w' := (postCommit app router to from w).2 in
  (name ∉ w_queue w')
  ∧ (UnregisterModule (split_slash name) ∈ emitted w w'
     ∨ LoggerInfo ("No existing dynamic module to unregister: " +:+ name)
       ∈ emitted w w').
Proof.
  intros Hto Hfrom Hgate Hq Hinactive w'. subst w'.
  rewrite (afterEach_processed _ _ _ _ _ _ _ _ Hto Hfrom Hgate).
  cbn [snd w_queue]. rewrite emitted_app. split.
  - rewrite elem_of_sortBy, elem_of_uniq, elem_of_app.
    intros [Hrq|Hfr].
    + unfold requeued in Hrq. apply list_elem_of_filter in Hrq as [Hact _]. done.
    + apply Hinactive, elem_of_app. by right.
  - apply drained_inactive; [by apply elem_of_reverse|done].
Qed.

(** X7. The removal queue stays sorted by depth and free of duplicates
    through any sequence of invocations of the two hooks, whatever the
    routes and whether or not an invocation is processed or throws. *)
Theorem lifecycle_queue_invariant (w w' : world) :
  queue_ok w →
  rtc (lifecycle_step getMatchedComponents) w w' →
  queue_ok w'.
Proof.
  intros Hok Hsteps. induction Hsteps as [|w1 w2 w3 Hstep _ IH]; [done|].
  apply IH. clear IH. destruct Hstep as [app router to from w1|app router to from w1].
  - unfold queue_ok. by rewrite preCommit_queue.
  - destruct (postCommit_emitted app router to from w1)
      as [->|(active & _ & _ & _ & l & Hq)]; [done|].
    unfold queue_ok. rewrite Hq. split.
    + apply sortBy_sorted.
    + apply NoDup_sortBy, NoDup_uniq.
Qed.

(** X8. The post-commit hook has no error handler: when the components
    provider throws, for the destination or, once the gate is open, for the
    route just left, the hook throws that error and leaves the store, the
    queue and the trace as they were. *)
Theorem postCommit_provider_throws (app : App) (router : RouterT) (to from : Route)
    (w : world) (e : value) :
  (getMatchedComponents to = inl e →
   postCommit app router to from w = (inl e, w))
  ∧ (∀ toComponents,
       getMatchedComponents to = inr toComponents →
       (∃ c, c ∈ toComponents ∧
          shouldProcessRouteUpdate c
            (getFetchDataArgs None app router (w_store w) to (Some from)) = true) →
       getMatchedComponents from = inl e →
       postCommit app router to from w = (inl e, w)).
Proof.
  split.
  - intros Hto.
    unfold useRouteVuexModulesClient_afterEach, mbind, M_bind, bind, get_store, lift.
    by rewrite Hto.
  - intros toComponents Hto Hgate Hfrom. rewrite <-filter_length_nonzero in Hgate.
    unfold useRouteVuexModulesClient_afterEach, mbind, M_bind, bind, get_store, lift.
    rewrite Hto. cbn [w_store]. rewrite Hgate. simpl. by rewrite Hfrom.
Qed.

End Lifecycle.

(** ** Registration passes *)

Section Passes.
Context {H : Host} {R : Realm}.

Lemma registering_calls_were_free `{!HostLaws H} modules st p :
  p ∈ register_calls (registering modules st).2 → hasModule st p = false.
Proof.
  revert st. induction modules as [|[name m] rest IH]; intros st; simpl.
  - by intros ?%elem_of_nil.
  - destruct (hasModule st (split_slash name)) eqn:Hhas.
    + specialize (IH st). by destruct (registering rest st).
    + set (st1 := registerModule st _ m _). specialize (IH st1).
      destruct (registering rest st1) as [st' evs]. simpl in *.
      intros [->|Hin]%elem_of_cons; [done|].
      specialize (IH Hin). destruct (hasModule st p) eqn:Hp; [|done].
      subst st1. by rewrite (hasModule_preserved st _ m _ p Hhas Hp) in IH.
Qed.

Lemma NoDup_register_calls `{!HostLaws H} modules st :
  NoDup (register_calls (registering modules st).2).
Proof.
  revert st. induction modules as [|[name m] rest IH]; intros st; simpl.
  - apply NoDup_nil_2.
  - destruct (hasModule st (split_slash name)) eqn:Hhas.
    + specialize (IH st). by destruct (registering rest st).
    + set (st1 := registerModule st _ m _).
      pose proof (IH st1) as Hnd.
      pose proof (registering_calls_were_free rest st1 (split_slash name)) as Hfree.
      destruct (registering rest st1) as [st' evs]. simpl in *.
      apply NoDup_cons. split; [|done].
      intros Hin. specialize (Hfree Hin).
      subst st1. by rewrite hasModule_registered in Hfree.
Qed.

Lemma registering_all_present modules st :
  (∀ name m, (name, m) ∈ modules → hasModule st (split_slash name) = true) →
  (registering modules st).1 = st
  ∧ register_calls (registering modules st).2 = [].
Proof.
  induction modules as [|[name m] rest IH]; intros Hall; simpl; [done|].
  rewrite (Hall name m) by left.
  destruct IH as [Hst Hcalls]. { intros n m' Hin. apply (Hall n m'). by right. }
  by destruct (registering rest st).
Qed.

Variable getMatchedComponents : Route → value + list Component.
Variable router_getMatchedComponents : RouterT → option Route → list Component.
Variable currentRoute : RouterT → Route.

(** X4. Every store call of the lifecycle hooks and of the server-side
    registration is legal at the moment it is made: [registerModule] only at
    a path the store has no module at, [unregisterModule] only at a path it
    has one at.  Replaying the calls of a run on the store it started with
    gives the store it ends with. *)
Theorem lifecycle_store_calls_guarded (app : App) (router : RouterT)
    (to from : Route) (w : world) :
  let preCommit :=
    useRouteVuexModulesClient_beforeResolve getMatchedComponents app router to from in
  let postCommit :=
    useRouteVuexModulesClient_afterEach getMatchedComponents app router to from in
  let server :=
    useRouteVuexModulesServer router_getMatchedComponents currentRoute router in
  replay (w_store w) (emitted w (preCommit w).2) = Some (w_store (preCommit w).2)
  ∧ replay (w_store w) (emitted w (postCommit w).2) = Some (w_store (postCommit w).2)
  ∧ replay (w_store w) (emitted w (server w).2) = Some (w_store (server w).2).
Proof.
  intros preCommit postCommit server. subst preCommit postCommit server.
  split_and!.
  - destruct (getMatchedComponents to) as [e|components] eqn:Hto.
    + destruct (preCommit_thrown getMatchedComponents app router to from w e Hto)
        as [msg ->].
      unfold logged. cbn [snd w_store]. by rewrite emitted_app.
    + rewrite (beforeResolve_registers _ _ _ _ _ _ _ Hto). cbn [snd w_store].
      rewrite emitted_app, replay_app, replay_registering. done.
  - destruct (postCommit_emitted getMatchedComponents app router to from w)
      as [->|(active & _ & -> & -> & _)].
    + by rewrite emitted_refl.
    + apply replay_drained.
  - rewrite useRouteVuexModulesServer_spec. cbn [snd w_store].
    rewrite emitted_app. apply replay_registering.
Qed.

(** X9. Given a store that reports a module once it is registered, one
    registration pass, on the client before a navigation commits or on the
    server, never registers the same path twice and never registers a path
    the store already had a module at, however many components declare the
    same name. *)
Theorem registration_pass_no_duplicates `{!HostLaws H} (app : App) (router : RouterT)
    (to from : Route) (w : world) :
  let client :=
    register_calls
      (emitted w
         (useRouteVuexModulesClient_beforeResolve getMatchedComponents
            app router to from w).2) in
  let server :=
    register_calls
      (emitted w
         (useRouteVuexModulesServer router_getMatchedComponents currentRoute
            router w).2) in
  NoDup client
  ∧ (∀ p, p ∈ client → hasModule (w_store w) p = false)
  ∧ NoDup server
  ∧ (∀ p, p ∈ server → hasModule (w_store w) p = false).
Proof.
  intros client server. subst client server.
  rewrite useRouteVuexModulesServer_spec. cbn [snd]. rewrite emitted_app.
  destruct (getMatchedComponents to) as [e|components] eqn:Hto.
  - destruct (preCommit_thrown getMatchedComponents app router to from w e Hto)
      as [msg ->].
    unfold logged. cbn [snd]. rewrite emitted_app. simpl.
    split_and!; [apply NoDup_nil_2|by intros p ?%elem_of_nil| |].
    + apply NoDup_register_calls.
    + apply registering_calls_were_free.
  - rewrite (beforeResolve_registers _ _ _ _ _ _ _ Hto). cbn [snd].
    rewrite emitted_app. unfold register_calls at 1 2.
    rewrite omap_app. simpl. rewrite app_nil_r.
    split_and!.
    + apply NoDup_register_calls.
    + apply registering_calls_were_free.
    + apply NoDup_register_calls.
    + apply registering_calls_were_free.
Qed.

(** X10. Given such a store, the server-side registration is idempotent:
    a second run for the same route finds every module present, registers
    nothing and leaves the store as the first run left it. *)
Theorem useRouteVuexModulesServer_idempotent `{!HostLaws H} (router : RouterT) (w : world) :
  let run :=
    useRouteVuexModulesServer router_getMatchedComponents currentRoute router in
  let w1 := (run w).2 in
  register_calls (emitted w1 (run w1).2) = []
  ∧ w_store (run w1).2 = w_store w1.
Proof.
  intros run w1. subst run w1.
  rewrite !useRouteVuexModulesServer_spec. cbn [snd w_store w_trace w_queue].
  rewrite !emitted_app.
  set (modules := declared _ _).
  destruct (registering_all_present modules (registering modules (w_store w)).1)
    as [Hst Hcalls].
  { intros name m Hin. by apply registering_present with (m := m). }
  done.
Qed.

End Passes.

(** ** The gate within one route-table entry *)

Section GateCases.
Context {H : Host} {R : Realm}.

Lemma field_is_true_spread fields k :
  field_is_true (spread_over_defaults (PolicyObj fields)) k = enabled fields k.
Proof.
  unfold field_is_true, enabled. simpl. rewrite lookup_union.
  destruct (fields !! k) as [v|]; [by destruct (default_policy !! k)|].
  by destruct (default_policy !! k).
Qed.

(** X1. Within one route-table entry ([from.name === route.name]) a
    policy function opens the gate only by returning the boolean [true]
    (any other value, truthy or not, closes it); an object policy opens it
    exactly when a field among [path], [query], [hash] is enabled and
    differs between the two routes, a field being enabled when the value
    the component gives it, or else the default, is the boolean [true].
    Other keys of the object play no part. *)
Theorem shouldProcessRouteUpdate_same_entry (c : Component)
    (fetchDataArgs : FetchDataArgs) :
  get (fda_from fetchDataArgs) route_name = route_name (fda_route fetchDataArgs) →
  let from := fda_from fetchDataArgs in
  let route := Some (fda_route fetchDataArgs) in
  match c_shouldProcessRouteUpdate c with
  | PolicyFn f =>
      shouldProcessRouteUpdate c fetchDataArgs = true ↔ f fetchDataArgs = VBool true
  | PolicyAbsent =>
      shouldProcessRouteUpdate c fetchDataArgs
      = strict_neq (get from route_path) (get route route_path)
  | PolicyObj fields =>
      shouldProcessRouteUpdate c fetchDataArgs
      = (enabled fields "path"
           && strict_neq (get from route_path) (get route route_path))
        || (enabled fields "query"
           && negb (isEqual (get_query from) (get_query route)))
        || (enabled fields "hash"
           && strict_neq (get from route_hash) (get route route_hash))
  end.
Proof.
  intros Hname from route. apply strict_neq_false in Hname.
  change (route_name (fda_route fetchDataArgs))
    with (get (Some (fda_route fetchDataArgs)) route_name) in Hname.
  unfold shouldProcessRouteUpdate. cbv zeta. rewrite Hname.
  destruct (c_shouldProcessRouteUpdate c) as [|f|fields] eqn:Hpol.
  - destruct default_policy_lookup as (Hp & Hq & Hh).
    unfold field_is_true. simpl. rewrite Hp, Hq, Hh. simpl.
    by rewrite !orb_false_r.
  - destruct (f fetchDataArgs) as [| |[]| | | | | | | | |]; simpl; split; done.
  - by rewrite !field_is_true_spread.
Qed.

End GateCases.

(** ** The fetch pipeline, beyond rejections *)

Section Pipeline.
Context {H : Host} {R : Realm}.
Variable getMatchedComponents : Route → value + list Component.
Variable router_getMatchedComponents : RouterT → option Route → list Component.
Variable currentRoute : RouterT → Route.

Lemma bind_inr_inv {A B} (m : M A) (k : A → M B) w b w' :
  (m ≫= k) w = (inr b, w') →
  ∃ a w1, m w = (inr a, w1) ∧ k a w1 = (inr b, w').
Proof.
  unfold mbind, M_bind, bind. destruct (m w) as [[e|a] w1]; [done|]. eauto.
Qed.

Lemma filter_all {A} (f : A → bool) (l : list A) :
  (∀ x, x ∈ l → f x = true) → List.filter f l = l.
Proof.
  induction l as [|x l IH]; intros Hall; simpl; [done|].
  rewrite (Hall x) by left. f_equal. apply IH. intros y Hy. apply Hall. by right.
Qed.

(** A try block that completes ends with its [next] call. *)
Lemma useFetchDataClient_try_ends opts to routeUpdateStr fetchDataArgs w u w' :
  useFetchDataClient_try getMatchedComponents opts to routeUpdateStr fetchDataArgs w
  = (inr u, w') →
  ∃ x, last (w_trace w') = Some (Next x).
Proof.
  unfold useFetchDataClient_try. intros Hbody.
  apply bind_inr_inv in Hbody as (matched & w1 & _ & Hbody).
  destruct (length _ =? 0)%nat.
  - apply bind_inr_inv in Hbody as (? & w2 & _ & Hbody).
    unfold emit in Hbody. injection Hbody as _ <-. simpl.
    eexists. apply last_snoc.
  - repeat (apply bind_inr_inv in Hbody as (? & ? & _ & Hbody)).
    unfold emit in Hbody. injection Hbody as _ <-. simpl.
    eexists. apply last_snoc.
Qed.

(** X11. The [beforeResolve] hook of the client fetch pipeline never
    throws, whatever the hooks and the components provider do, and its last
    action is a [next] call.  Unless the try block ran to completion, the
    value handed to [next] is an Error. *)
Theorem useFetchDataClient_always_continues (app : App) (router : RouterT)
    (opts : option Opts) (to from : Route) (w : world) :
  let r := useFetchDataClient_beforeResolve getMatchedComponents app router opts
             to from w in
  let attempt :=
    useFetchDataClient_try getMatchedComponents opts to
      (template (route_fullPath from) +:+ " -> " +:+ template (route_fullPath to))
      (getFetchDataArgs None app router (w_store w) to (Some from)) w in
  r.1 = inr ()
  ∧ ∃ x, last (w_trace r.2) = Some (Next x)
         ∧ (attempt.1 = inr () ∨ instanceof_Error x = true).
Proof.
  intros r attempt. subst r.
  unfold useFetchDataClient_beforeResolve, try_catch, mbind, M_bind, bind, get_store.
  fold attempt. destruct attempt as [[e|[]] w1] eqn:Hattempt.
  - rewrite normalize_and_cancel_spec. split; [done|].
    exists (normalized e). unfold logged. simpl. split.
    + by rewrite last_app.
    + right. apply instanceof_Error_normalized.
  - split; [done|].
    destruct (useFetchDataClient_try_ends _ _ _ _ _ _ _ Hattempt) as [x Hx].
    exists x. split; [done|by left].
Qed.

Lemma call_if_present_returns h v e fetchDataArgs w :
  returns h v →
  call_if_present h e fetchDataArgs w = (inr (Resolved v), logged w (call_events h e)).
Proof.
  destruct h as [f|]; simpl; intros Hret.
  - unfold mbind, M_bind, bind, emit. by rewrite Hret.
  - subst v. by rewrite logged_nil.
Qed.

Lemma await_if_present_returns h v e fetchDataArgs w :
  returns h v →
  await_if_present h e fetchDataArgs w = (inr (), logged w (call_events h e)).
Proof.
  destruct h as [f|]; simpl; intros Hret.
  - unfold await, mbind, M_bind, bind, emit. by rewrite Hret.
  - by rewrite logged_nil.
Qed.

Lemma sequence_fetchData fetchDataArgs components values k w :
  Forall2 (λ c v, returns (c_fetchData c) v) components values →
  sequence
    (imap (λ i c, call_if_present (c_fetchData c) (CallFetchData (k + i)) fetchDataArgs)
       components) w
  = (inr (Resolved <$> values), logged w (fetchData_events k components)).
Proof.
  intros Hall. revert k w.
  induction Hall as [|c v components values Hc _ IH]; intros k w.
  - simpl. by rewrite logged_nil.
  - rewrite imap_cons. cbn [sequence fetchData_events].
    unfold mbind, M_bind, bind. rewrite Nat.add_0_r.
    rewrite (call_if_present_returns _ v) by done.
    rewrite (imap_ext _
               (λ i c, call_if_present (c_fetchData c) (CallFetchData (S k + i))
                         fetchDataArgs)).
    2:{ intros i x _. simpl. by rewrite Nat.add_succ_r. }
    rewrite IH. by rewrite logged_logged.
Qed.

Lemma first_rejection_resolved values :
  first_rejection (Resolved <$> values) = None
  ∧ map resolved_value (Resolved <$> values) = values.
Proof.
  induction values as [|v values [IH1 IH2]]; [done|].
  simpl. split; [done|]. by f_equal.
Qed.

Lemma fetchCalls_return {B} opts components fetchDataArgs global values
    (k : list value → M B) w :
  returns (opt opts globalFetchData) global →
  Forall2 (λ c v, returns (c_fetchData c) v) components values →
  (ps ← sequence (fetchCalls opts components fetchDataArgs);
   results ← Promise_all ps;
   k results) w
  = k (global :: values)
      (logged w
         (call_events (opt opts globalFetchData) CallGlobalFetchData
          ++ fetchData_events 0 components)).
Proof.
  intros Hglobal Hall. unfold fetchCalls. cbn [sequence].
  unfold mbind, M_bind, bind.
  rewrite (call_if_present_returns _ global) by done.
  change (imap (λ i c, call_if_present (c_fetchData c) (CallFetchData i) fetchDataArgs)
            components)
    with (imap (λ i c, call_if_present (c_fetchData c) (CallFetchData (0 + i))
                         fetchDataArgs) components).
  rewrite (sequence_fetchData _ _ values) by done.
  unfold Promise_all, ret. cbn [first_rejection].
  destruct (first_rejection_resolved values) as [-> Hvalues].
  rewrite map_cons, Hvalues. cbn [resolved_value].
  by rewrite logged_logged.
Qed.

(** X12. When every hook resolves (or is absent), the client pipeline
    calls, in this order, the middleware, the global fetch, the [fetchData]
    of every gate-passing component in array order and the post-middleware,
    then calls [next] once with the first result that is neither null nor
    undefined, the global fetch coming first, or with no value when there
    is none. *)
Theorem useFetchDataClient_resolves (app : App) (router : RouterT)
    (opts : option Opts) (to from : Route) (w : world)
    (components : list Component) (before global after : value)
    (values : list value) :
  getMatchedComponents to = inr components →
  components ≠ [] →
  (∀ c, c ∈ components →
     shouldProcessRouteUpdate c
       (getFetchDataArgs None app router (w_store w) to (Some from)) = true) →
  returns (opt opts middleware) before →
  returns (opt opts globalFetchData) global →
  Forall2 (λ c v, returns (c_fetchData c) v) components values →
  returns (opt opts postMiddleware) after →
  useFetchDataClient_beforeResolve getMatchedComponents app router opts to from w
  = (inr (),
     logged w
       ([LoggerDebug
           ("Running middleware/fetchData for route update "
            +:+ template (route_fullPath from) +:+ " -> "
            +:+ template (route_fullPath to));
         PerfMeasure "beforeResolve"]
        ++ call_events (opt opts middleware) CallMiddleware
        ++ [PerfMeasure "middleware-complete"]
        ++ call_events (opt opts globalFetchData) CallGlobalFetchData
        ++ fetchData_events 0 components
        ++ [PerfMeasure "fetchData-complete"]
        ++ call_events (opt opts postMiddleware) CallPostMiddleware
        ++ [Next (first_non_null (global :: values))])).
Proof.
  intros Hto Hne Hgate Hbefore Hglobal Hall Hafter.
  unfold useFetchDataClient_beforeResolve, useFetchDataClient_try, try_catch.
  unfold mbind at 1, M_bind at 1, bind at 1, get_store.
  unfold mbind at 1, M_bind at 1, bind at 1, lift. rewrite Hto.
  rewrite (filter_all _ _ Hgate), (filter_nonempty_length _ Hne).
  unfold perfMeasure.
  rewrite (bind_inr _ _ _ _ _ (emit_logged _ _)).
  rewrite (bind_inr _ _ _ _ _ (emit_logged _ _)).
  rewrite (bind_inr _ _ _ _ _ (await_if_present_returns _ _ _ _ _ Hbefore)).
  rewrite (bind_inr _ _ _ _ _ (emit_logged _ _)).
  rewrite (fetchCalls_return _ _ _ global values) by done.
  rewrite (bind_inr _ _ _ _ _ (emit_logged _ _)).
  rewrite (bind_inr _ _ _ _ _ (await_if_present_returns _ _ _ _ _ Hafter)).
  rewrite emit_logged. rewrite !logged_logged.
  unfold first_non_null. by rewrite <-!app_assoc.
Qed.

(** X13. The server pipeline applies no gate: when every hook resolves
    (or is absent) it calls the middleware, the global fetch, the
    [fetchData] of every matched component in array order, whatever its
    policy, and the post-middleware, then resolves; it never calls [next]. *)
Theorem useFetchDataServer_resolves (ssrContext : option SsrContext) (app : App)
    (router : RouterT) (opts : option Opts) (w : world)
    (before global after : value) (values : list value) :
  let components := router_getMatchedComponents router (Some (currentRoute router)) in
  returns (opt opts middleware) before →
  returns (opt opts globalFetchData) global →
  Forall2 (λ c v, returns (c_fetchData c) v) components values →
  returns (opt opts postMiddleware) after →
  useFetchDataServer router_getMatchedComponents currentRoute ssrContext app router
    opts w
  = (inr (),
     logged w
       ([ConsoleLog]
        ++ call_events (opt opts middleware) CallMiddleware
        ++ call_events (opt opts globalFetchData) CallGlobalFetchData
        ++ fetchData_events 0 components
        ++ call_events (opt opts postMiddleware) CallPostMiddleware)).
Proof.
  intros components Hbefore Hglobal Hall Hafter.
  unfold useFetchDataServer.
  unfold mbind at 1, M_bind at 1, bind at 1, get_store.
  rewrite (bind_inr _ _ _ _ _ (emit_logged _ _)).
  rewrite (bind_inr _ _ _ _ _ (await_if_present_returns _ _ _ _ _ Hbefore)).
  rewrite (fetchCalls_return _ _ _ global values) by done.
  rewrite (await_if_present_returns _ _ _ _ _ Hafter).
  rewrite !logged_logged. by rewrite <-!app_assoc.
Qed.

End Pipeline.

(** ** The timing instrumentation *)

Section Timing.
Import Perf.

Lemma append_cons c (a b : string) : String c a +:+ b = String c (a +:+ b).
Proof. reflexivity. Qed.

Lemma append_nil (b : string) : EmptyString +:+ b = b.
Proof. reflexivity. Qed.

Lemma append_assoc_string (a b c : string) : (a +:+ b) +:+ c = a +:+ (b +:+ c).
Proof.
  induction a as [|x a IH]; [reflexivity|]. by rewrite !append_cons, IH.
Qed.

Lemma startsWith_append p s : startsWith (p +:+ s) p = true.
Proof.
  induction p as [|c p IH]; [by destruct s|]. rewrite append_cons. simpl.
  by rewrite bool_decide_eq_true_2, IH.
Qed.

Lemma endsWith_append s p : endsWith (s +:+ p) p = true.
Proof.
  induction s as [|c s IH].
  - rewrite append_nil. destruct p; simpl; by rewrite ?bool_decide_eq_true_2.
  - rewrite append_cons. simpl. rewrite IH. apply orb_true_r.
Qed.

Lemma split_bar_nonempty s : split_bar s ≠ [].
Proof.
  destruct s as [|c rest]; simpl; [done|].
  case_bool_decide; [done|]. by destruct (split_bar rest).
Qed.

Lemma split_bar_append a b :
  split_bar (a +:+ String bar b) = split_bar a ++ split_bar b.
Proof.
  induction a as [|c a IH].
  - rewrite append_nil. simpl. by rewrite ?bool_decide_eq_true_2.
  - rewrite append_cons. simpl. case_bool_decide; rewrite IH; [done|].
    pose proof (split_bar_nonempty a). by destruct (split_bar a).
Qed.

Lemma split_bar_no_bar s : bar ∉ chars s → split_bar s = [s].
Proof.
  induction s as [|c s IH]; simpl; [done|].
  intros Hno. rewrite bool_decide_eq_false_2 by (intros ->; apply Hno; left).
  rewrite IH; [done|]. intros Hin. apply Hno. by right.
Qed.

Lemma filter_filter {A} (f g : A → bool) (l : list A) :
  List.filter f (List.filter g l) = List.filter (λ x, g x && f x) l.
Proof.
  induction l as [|x l IH]; simpl; [done|].
  destruct (g x); simpl; [destruct (f x)|]; by rewrite IH.
Qed.

Lemma clear_all mark (L es : list PerformanceEntry) :
  foldl (λ acc m, clearEntries mark (entry_name m) acc) es L
  = List.filter
      (λ e, negb (bool_decide (is_mark e = mark)
                  && bool_decide (entry_name e ∈ entry_name <$> L))) es.
Proof.
  revert es. induction L as [|m L IH]; intros es; simpl.
  - symmetry. apply filter_all. intros e _. by rewrite andb_false_r.
  - rewrite IH. unfold clearEntries. rewrite filter_filter.
    apply filter_ext. intros e.
    destruct (bool_decide (is_mark e = mark)); simpl; [|done].
    destruct (decide (entry_name e = entry_name m)) as [Heq|Hne].
    + rewrite bool_decide_eq_true_2 by done. simpl.
      symmetry. apply negb_false_iff, bool_decide_eq_true. rewrite Heq. left.
    + rewrite bool_decide_eq_false_2 by done. simpl. f_equal.
      apply bool_decide_ext. rewrite elem_of_cons. naive_solver.
Qed.

Lemma clear_prefixed mark es :
  foldl (λ acc m, clearEntries mark (entry_name m) acc) es
    (List.filter prefixed (getEntriesByType mark es))
  = List.filter (λ e, negb (bool_decide (is_mark e = mark) && prefixed e)) es.
Proof.
  rewrite clear_all. apply filter_ext_in. intros e He.
  destruct (bool_decide (is_mark e = mark)) eqn:Hm; simpl; [|done]. f_equal.
  destruct (prefixed e) eqn:Hp.
  - apply bool_decide_eq_true. apply list_elem_of_fmap. exists e. split; [done|].
    apply list_elem_of_In, filter_In. split; [|done].
    apply filter_In. split; [done|]. done.
  - apply bool_decide_eq_false. intros (m & Hname & Hin)%list_elem_of_fmap.
    apply list_elem_of_In, filter_In in Hin as [_ Hpm].
    unfold prefixed in *. rewrite <-Hname in Hpm. congruence.
Qed.

Lemma perfInit_filter to from es :
  perfInit to from es
  = List.filter (λ e, negb (prefixed e)) es ++ [MarkEntry (startMarkName to from)].
Proof.
  unfold perfInit. cbv zeta. f_equal.
  fold prefixed. rewrite !clear_prefixed, filter_filter.
  apply filter_ext. intros e.
  destruct e; simpl; by destruct (prefixed _).
Qed.

Lemma getCurrentPerfMark_fresh es name :
  startsWith name PERF_PREFIX = true →
  endsWith name "start" = true →
  getCurrentPerfMark (List.filter (λ e, negb (prefixed e)) es ++ [MarkEntry name])
  = Some (MarkEntry name).
Proof.
  intros Hp He. unfold getCurrentPerfMark, getEntriesByType.
  rewrite List.filter_app. simpl.
  induction es as [|e es IH]; simpl.
  - by rewrite Hp, He.
  - destruct (prefixed e) eqn:Hpe; simpl; [done|].
    destruct (bool_decide (is_mark e = true)); simpl; [|done].
    unfold prefixed in Hpe. by rewrite Hpe.
Qed.

Lemma startMarkName_shape to from :
  startMarkName to from
  = PERF_PREFIX
    +:+ String bar
          ((template (route_name from) +:+ "->" +:+ template (route_name to))
           +:+ String bar "start").
Proof.
  unfold startMarkName. f_equal. simpl. f_equal.
  by rewrite !append_assoc_string.
Qed.

Lemma startMarkName_prefixed to from :
  startsWith (startMarkName to from) PERF_PREFIX = true.
Proof. rewrite startMarkName_shape. apply startsWith_append. Qed.

Lemma startMarkName_ends to from :
  endsWith (startMarkName to from) "start" = true.
Proof.
  unfold startMarkName. change "|start" with ("|" +:+ "start").
  rewrite <-!append_assoc_string. apply endsWith_append.
Qed.

Lemma perfInit_current_mark to from es :
  getCurrentPerfMark (perfInit to from es) = Some (MarkEntry (startMarkName to from)).
Proof.
  rewrite perfInit_filter.
  apply getCurrentPerfMark_fresh;
    [apply startMarkName_prefixed|apply startMarkName_ends].
Qed.

(** X14. [perfInit] forgets every earlier trace: it removes exactly the
    marks and measures whose name starts with the prefix, keeps every other
    entry in place, and appends the one start mark of the new navigation,
    which is then the current mark. *)
Theorem perfInit_fresh_trace (to from : Route) (es : list PerformanceEntry) :
  perfInit to from es
  = List.filter (λ e, negb (startsWith (entry_name e) PERF_PREFIX)) es
    ++ [MarkEntry (startMarkName to from)]
  ∧ getCurrentPerfMark (perfInit to from es) = Some (MarkEntry (startMarkName to from))
  ∧ List.filter (λ e, startsWith (entry_name e) PERF_PREFIX) (perfInit to from es)
    = [MarkEntry (startMarkName to from)].
Proof.
  pose proof (startMarkName_prefixed to from) as Hp.
  split_and!; [apply perfInit_filter|apply perfInit_current_mark|].
  - rewrite perfInit_filter, List.filter_app, filter_filter.
    rewrite (filter_ext _ (λ _, false)).
    2:{ intros e. apply andb_negb_l. }
    assert (∀ l : list PerformanceEntry, List.filter (λ _, false) l = []) as ->
      by (by induction l).
    cbn [List.filter entry_name]. by rewrite Hp.
Qed.

Lemma chars_append a b : chars (a +:+ b) = chars a ++ chars b.
Proof.
  induction a as [|c a IH]; [reflexivity|].
  rewrite append_cons. unfold chars in *. simpl. by rewrite IH.
Qed.

Lemma split_bar_startMarkName to from :
  split_bar (startMarkName to from)
  = PERF_PREFIX
    :: split_bar (template (route_name from) +:+ "->" +:+ template (route_name to))
    ++ ["start"].
Proof. by rewrite startMarkName_shape, !split_bar_append. Qed.

(** X15. Right after [perfInit(to, from)], [perfMeasure(label)] returns
    true and appends one measure anchored at the start mark.  Its name is
    the prefix, the first bar-separated piece of [from.name->to.name] and
    the label, joined by bars: the whole of [from.name->to.name] when
    neither route name holds a bar, a truncated one otherwise. *)
Theorem perfMeasure_after_perfInit (to from : Route) (es : list PerformanceEntry)
    (label : string) :
  let route := template (route_name from) +:+ "->" +:+ template (route_name to) in
  let piece := default "undefined" (head (split_bar route)) in
  perfMeasure label (PerfObject (mkPerformance true (perfInit to from es)))
  = (inr true,
     PerfObject
       (mkPerformance true
          (perfInit to from es
           ++ [MeasureEntry (PERF_PREFIX +:+ "|" +:+ piece +:+ "|" +:+ label)
                 (startMarkName to from)])))
  ∧ (bar ∉ chars (template (route_name from)) →
     bar ∉ chars (template (route_name to)) →
     piece = route).
Proof.
  intros route piece. split.
  - pose proof (perfInit_current_mark to from es) as Hmark.
    unfold perfMeasure. cbn [perfAvailable has_getEntriesByType entries].
    rewrite Hmark. cbn [entry_name]. rewrite split_bar_startMarkName.
    do 4 f_equal. unfold template_elem. cbn [lookup list_lookup].
    fold route. subst piece.
    pose proof (split_bar_nonempty route).
    by destruct (split_bar route).
  - intros Hfrom Hto. subst piece. rewrite split_bar_no_bar; [done|].
    subst route. rewrite !chars_append. rewrite !elem_of_app.
    intros [?|[Hin|?]]; [done| |done].
    apply list_elem_of_In in Hin. simpl in Hin.
    destruct Hin as [Heq|[Heq|[]]]; discriminate Heq.
Qed.

(** X16. [perfMeasure] throws only when [window.performance] is undefined
    (null is handled, undefined is not).  When it returns false it has
    recorded nothing: the timing API is null, lacks [getEntriesByType], or
    holds no prefixed mark ending in [start].  When it returns true it has
    appended exactly one measure, anchored at such a mark, and removed
    nothing. *)
Theorem perfMeasure_outcomes (label : string) (wp : WindowPerformance) :
  match perfMeasure label wp with
  | (inl e, wp') => wp = PerfUndefined ∧ wp' = wp
  | (inr false, wp') =>
      wp' = wp
      ∧ (wp = PerfNull
         ∨ ∃ p, wp = PerfObject p
                ∧ (has_getEntriesByType p = false
                   ∨ getCurrentPerfMark (entries p) = None))
  | (inr true, wp') =>
      ∃ p mark name,
        wp = PerfObject p
        ∧ has_getEntriesByType p = true
        ∧ mark ∈ entries p
        ∧ is_mark mark = true
        ∧ startsWith (entry_name mark) PERF_PREFIX = true
        ∧ endsWith (entry_name mark) "start" = true
        ∧ wp' = PerfObject
                  (mkPerformance true
                     (entries p ++ [MeasureEntry name (entry_name mark)]))
  end.
Proof.
  unfold perfMeasure, perfAvailable.
  destruct wp as [| |[flag es]]; [by split; [|left]|done|].
  cbn [has_getEntriesByType entries].
  destruct flag.
  2:{ split; [done|]. right. eexists. split; [done|]. by left. }
  destruct (getCurrentPerfMark es) as [mark|] eqn:Hmark.
  2:{ split; [done|]. right. eexists. split; [done|]. by right. }
  unfold getCurrentPerfMark in Hmark. apply find_some in Hmark as [Hin Hmatch].
  apply filter_In in Hin as [Hin Hm]. apply andb_true_iff in Hmatch as [Hp He].
  apply bool_decide_eq_true in Hm.
  eexists (mkPerformance true es), mark, _.
  split_and!; try done. by apply list_elem_of_In.
Qed.

Section BeforeEach.
Context {H : Host} {R : Realm}.
Variable getMatchedComponents : Route → value + list Component.

Lemma filter_length_existsb {A} (f : A → bool) (l : list A) :
  (length (List.filter f l) =? 0)%nat = negb (existsb f l).
Proof.
  induction l as [|x l IH]; simpl; [done|]. by destruct (f x).
Qed.

(** X17. The [beforeEach] hook starts a fresh trace exactly when some
    matched component passes the gate, and otherwise leaves the entries as
    they are; either way it then calls [next()].  It has no error handler:
    when the components provider throws, the hook throws and [next] is
    never called. *)
Theorem useFetchDataClient_beforeEach_trace (app : App) (router : RouterT)
    (st : Store) (to from : Route) (es : list PerformanceEntry) :
  let fetchDataArgs := getFetchDataArgs None app router st to (Some from) in
  useFetchDataClient_beforeEach getMatchedComponents app router st to from es
  = match getMatchedComponents to with
    | inl e => inl e
    | inr matched =>
        inr (if existsb (λ c, shouldProcessRouteUpdate c fetchDataArgs) matched
             then List.filter (λ e, negb (startsWith (entry_name e) PERF_PREFIX)) es
                  ++ [MarkEntry (startMarkName to from)]
             else es,
             [Next VUndefined])
    end.
Proof.
  intros fetchDataArgs. unfold useFetchDataClient_beforeEach.
  destruct (getMatchedComponents to) as [e|matched]; [done|].
  fold fetchDataArgs. rewrite filter_length_existsb.
  destruct (existsb _ matched); simpl; [|done].
  by rewrite perfInit_filter.
Qed.

End BeforeEach.

End Timing.

(** ** The development server *)

Section Dev.
Import DevServer.

Lemma cb_calls_app out1 out2 : cb_calls (out1 ++ out2) = cb_calls out1 ++ cb_calls out2.
Proof. apply omap_app. Qed.

Lemma ready_calls_app out1 out2 :
  ready_calls (out1 ++ out2) = ready_calls out1 ++ ready_calls out2.
Proof. apply omap_app. Qed.

Lemma update_calls s :
  Forall complete_call (cb_calls (update s).2)
  ∧ ready_calls (update s).2
    = (if truthy (serverBundle s) && truthy (clientManifest s)
       then [VObj [("clientManifest", clientManifest s)]] else [])
  ∧ readyPromise (update s).1
    = match readyPromise s with
      | Some v => Some v
      | None => head (ready_calls (update s).2)
      end
  ∧ serverBundle (update s).1 = serverBundle s
  ∧ clientManifest (update s).1 = clientManifest s.
Proof.
  unfold update.
  destruct (truthy (serverBundle s)) eqn:Hb, (truthy (clientManifest s)) eqn:Hm;
    simpl; split_and!; try done; try (by destruct (readyPromise s)).
  repeat constructor; simpl; eauto.
Qed.

Lemma step_calls s c :
  Forall complete_call (cb_calls (step s c).2)
  ∧ readyPromise (step s c).1
    = match readyPromise s with
      | Some v => Some v
      | None => head (ready_calls (step s c).2)
      end
  ∧ (delivers_bundle c = false →
     truthy (serverBundle s) = false →
     truthy (serverBundle (step s c).1) = false ∧ cb_calls (step s c).2 = []
     ∧ ready_calls (step s c).2 = [])
  ∧ (delivers_manifest c = false →
     truthy (clientManifest s) = false →
     truthy (clientManifest (step s c).1) = false ∧ cb_calls (step s c).2 = []
     ∧ ready_calls (step s c).2 = []).
Proof.
  assert (∀ s', (truthy (serverBundle s') = false ∨ truthy (clientManifest s') = false) →
            update s' = (s', [])) as Hidle.
  { intros s' Hs'. unfold update.
    destruct Hs' as [-> | ->]; [done|]. by rewrite andb_false_r. }
  destruct c as [[e|t]|errors [e|m]|err errors [e|b]]; simpl.
  all: repeat match goal with
       | |- context [negb (?n =? 0)%nat] => destruct (n =? 0)%nat eqn:?; simpl
       | |- context [if truthy ?v then _ else _] => destruct (truthy v) eqn:?; simpl
       end.
  all: try (split_and!; [by constructor|by destruct (readyPromise s)|done|done]).
  all: match goal with
       | |- context [update ?s'] =>
           destruct (update_calls s') as (Hcb & Hrc & Hrp & Hsb & Hcm);
           pose proof (Hidle s') as Hidle'
       end.
  all: unfold after; simpl in *; split_and!; try done.
  all: try (intros Hd Hs; rewrite Hidle' by (simpl; auto); by simpl).
  all: try (intros Hd Hs; simpl in Hd; rewrite ?andb_true_l in Hd;
            rewrite Hidle' by (simpl; auto); by simpl).
Qed.

(** X18. The development server calls [cb] only with a server bundle and a
    client manifest that are both present (truthy), however the template
    changes and the two builds complete, fail or throw. *)
Theorem setupDevServer_cb_complete (s : state) (cs : list callback) :
  Forall complete_call (cb_calls (run s cs).2).
Proof.
  revert s. induction cs as [|c cs IH]; intros s; simpl; [constructor|].
  destruct (step_calls s c) as (Hcb & _).
  destruct (step s c) as [s1 out1]. specialize (IH s1).
  destruct (run s1 cs) as [s2 out2]. simpl in *.
  rewrite cb_calls_app. by apply Forall_app.
Qed.

(** X19. Until a server build has delivered a bundle, and likewise until a
    client build has delivered a manifest, the development server calls
    neither [cb] nor [ready]: failed builds, builds whose file cannot be
    read and template changes never trigger them. *)
Theorem setupDevServer_waits_for_both (contents : string) (cs : list callback) :
  existsb delivers_bundle cs = false ∨ existsb delivers_manifest cs = false →
  cb_calls (run (init contents) cs).2 = []
  ∧ ready_calls (run (init contents) cs).2 = []
  ∧ readyPromise (run (init contents) cs).1 = None.
Proof.
  assert (∀ s cs,
            (existsb delivers_bundle cs = false ∧ truthy (serverBundle s) = false)
            ∨ (existsb delivers_manifest cs = false
               ∧ truthy (clientManifest s) = false) →
            cb_calls (run s cs).2 = [] ∧ ready_calls (run s cs).2 = []
            ∧ readyPromise (run s cs).1 = readyPromise s) as Hgen.
  { clear. intros s cs. revert s. induction cs as [|c cs IH]; intros s Hcase; [done|].
    simpl in *.
    destruct (step_calls s c) as (_ & Hrp & Hbundle & Hmanifest).
    assert (cb_calls (step s c).2 = [] ∧ ready_calls (step s c).2 = []
            ∧ ((existsb delivers_bundle cs = false
                ∧ truthy (serverBundle (step s c).1) = false)
               ∨ (existsb delivers_manifest cs = false
                  ∧ truthy (clientManifest (step s c).1) = false)))
      as (Hcb1 & Hrc1 & Hnext).
    { destruct Hcase as [[Hex Hs]|[Hex Hs]]; apply orb_false_iff in Hex as [Hc Hex].
      - destruct (Hbundle Hc Hs) as (? & ? & ?). auto.
      - destruct (Hmanifest Hc Hs) as (? & ? & ?). auto. }
    rewrite Hrc1 in Hrp. simpl in Hrp.
    destruct (step s c) as [s1 out1]. destruct (IH s1 Hnext) as (Hcb2 & Hrc2 & Hrp2).
    destruct (run s1 cs) as [s2 out2]. simpl in *.
    rewrite cb_calls_app, ready_calls_app, Hcb1, Hrc1, Hcb2, Hrc2, Hrp2.
    split_and!; [done|done|]. by destruct (readyPromise s). }
  intros Hcase. apply (Hgen (init contents) cs).
  destruct Hcase; [left|right]; done.
Qed.

(** X20. The promise [setupDevServer] returns resolves once, with the
    argument of the first [ready] call, and keeps that value however often
    [ready] is called afterwards. *)
Theorem setupDevServer_ready_once (s : state) (cs : list callback) :
  readyPromise (run s cs).1
  = match readyPromise s with
    | Some v => Some v
    | None => head (ready_calls (run s cs).2)
    end.
Proof.
  revert s. induction cs as [|c cs IH]; intros s; simpl.
  - by destruct (readyPromise s).
  - destruct (step_calls s c) as (_ & Hrp & _).
    destruct (step s c) as [s1 out1]. specialize (IH s1).
    destruct (run s1 cs) as [s2 out2]. simpl in *.
    rewrite IH, Hrp, ready_calls_app.
    destruct (readyPromise s); [done|]. by destruct (ready_calls out1).
Qed.

End Dev.

(** * The further statements at the concrete host *)

Section FurtherWitnesses.
Import Scenario.
#[local] Existing Instance testHost.
#[local] Existing Instance testRealm.

(** X1 at [/b -> /c] for a policy whose [path] is the number 1 and whose
    [query] is true: the path check is off, the query check is on. *)
Lemma shouldProcessRouteUpdate_same_entry_witness :
  let fetchDataArgs :=
    getFetchDataArgs None () (route "/") (mkTestStore [] (VObj []))
      (route "/c") (Some (route "/b")) in
  let fields : gmap string value := {[ "path" := VNum 1; "query" := VBool true ]} in
  get (fda_from fetchDataArgs) route_name = route_name (fda_route fetchDataArgs)
  ∧ enabled fields "path" = false
  ∧ enabled fields "query" = true
  ∧ shouldProcessRouteUpdate Cases.picky fetchDataArgs
    = (enabled fields "path" && strict_neq (PStr "/b") (PStr "/c"))
      || (enabled fields "query" && negb (isEqual None None))
      || (enabled fields "hash" && strict_neq PUndefined PUndefined).
Proof.
  split_and!; [reflexivity|by vm_compute|by vm_compute|].
  exact (shouldProcessRouteUpdate_same_entry Cases.picky
           (getFetchDataArgs None () (route "/") (mkTestStore [] (VObj []))
              (route "/c") (Some (route "/b"))) eq_refl).
Defined.

(** X3 at [/d -> /d?foo=1]: nothing is registered. *)
Lemma preCommit_gate_closed_witness :
  let w := world0 [["c"]] ["c"] in
  useRouteVuexModulesClient_beforeResolve getMatchedComponents () (route "/")
    route_d_foo (route "/d") w
  = (inr (), logged w [Next VUndefined]).
Proof.
  apply (preCommit_gate_closed getMatchedComponents () (route "/") route_d_foo
           (route "/d") (world0 [["c"]] ["c"]) [declaring [name_of_path]] eq_refl).
  intros c Hc _. apply list_elem_of_singleton in Hc as ->. reflexivity.
Defined.

(** X6 at [/y -> /z] with [a] and [a/b] queued: [a] leaves the queue. *)
Lemma postCommit_inactive_leaves_queue_witness :
  let w := world0 [["a"]; ["a"; "b"]] ["a"; "a/b"] in
  let w' :=
    (useRouteVuexModulesClient_afterEach getMatchedComponents () (route "/")
       (route "/z") (route "/y") w).2 in
  ("a" ∉ w_queue w')
  ∧ (UnregisterModule (split_slash "a") ∈ emitted w w'
     ∨ LoggerInfo "No existing dynamic module to unregister: a" ∈ emitted w w').
Proof.
  apply (postCommit_inactive_leaves_queue getMatchedComponents () (route "/")
           (route "/z") (route "/y") (world0 [["a"]; ["a"; "b"]] ["a"; "a/b"])
           [plain] [plain] "a" eq_refl eq_refl).
  - exists plain. split; [left|reflexivity].
  - apply (bool_decide_unpack _). by vm_compute.
  - apply not_elem_of_nil.
Defined.

(** X7 for the navigation [/x -> /y], pre-commit then post-commit, from an
    empty queue. *)
Lemma lifecycle_queue_invariant_witness :
  let w0 := world0 [] [] in
  let w1 :=
    (useRouteVuexModulesClient_beforeResolve getMatchedComponents () (route "/")
       (route "/y") (route "/x") w0).2 in
  let w2 :=
    (useRouteVuexModulesClient_afterEach getMatchedComponents () (route "/")
       (route "/y") (route "/x") w1).2 in
  queue_ok w0
  ∧ rtc (lifecycle_step getMatchedComponents) w0 w2
  ∧ w_queue w2 = ["a"; "a/b"]
  ∧ queue_ok w2.
Proof.
  intros w0 w1 w2.
  assert (queue_ok w0) as Hok by (split; constructor).
  assert (rtc (lifecycle_step getMatchedComponents) w0 w2) as Hsteps.
  { apply (rtc_l _ w0 w1 w2).
    - exact (@step_beforeResolve testHost testRealm getMatchedComponents () (route "/")
               (route "/y") (route "/x") w0).
    - apply rtc_once.
      exact (@step_afterEach testHost testRealm getMatchedComponents () (route "/")
               (route "/y") (route "/x") w1). }
  split_and!; [exact Hok|exact Hsteps|by vm_compute|].
  exact (lifecycle_queue_invariant getMatchedComponents w0 w2 Hok Hsteps).
Defined.

(** X9 at [/a -> /dup], whose component declares [m] twice: one call. *)
Lemma registration_pass_no_duplicates_witness :
  let client :=
    register_calls
      (emitted (world0 [] [])
         (useRouteVuexModulesClient_beforeResolve Cases.getMatchedComponents
            () (route "/") (route "/dup") (route "/a") (world0 [] [])).2) in
  client = [["m"]] ∧ NoDup client.
Proof.
  split; [by vm_compute|].
  exact (proj1 (@registration_pass_no_duplicates testHost testRealm
                  Cases.getMatchedComponents router_getMatchedComponents
                  currentRoute testHost_laws () (route "/") (route "/dup")
                  (route "/a") (world0 [] []))).
Defined.

(** X10 at the route [/server]. *)
Lemma useRouteVuexModulesServer_idempotent_witness :
  let run :=
    useRouteVuexModulesServer router_getMatchedComponents currentRoute
      (route "/server") in
  let w1 := (run (world0 [] [])).2 in
  register_calls (emitted (world0 [] []) w1) = [["test"]; ["server"]]
  ∧ register_calls (emitted w1 (run w1).2) = []
  ∧ w_store (run w1).2 = w_store w1.
Proof.
  split; [by vm_compute|].
  exact (@useRouteVuexModulesServer_idempotent testHost testRealm
           router_getMatchedComponents currentRoute testHost_laws (route "/server")
           (world0 [] [])).
Defined.

(** X12 at [/a -> /fetch]: the first component resolves with null, the
    second with a redirect, the third has no [fetchData]; [next] receives
    the redirect. *)
Lemma useFetchDataClient_resolves_witness :
  useFetchDataClient_beforeResolve Cases.getMatchedComponents () (route "/")
    (Some Cases.telling_hooks) (route "/fetch") (route "/a") (world0 [] [])
  = (inr (),
     logged (world0 [] [])
       [LoggerDebug "Running middleware/fetchData for route update /a -> /fetch";
        PerfMeasure "beforeResolve"; CallMiddleware;
        PerfMeasure "middleware-complete"; CallGlobalFetchData;
        CallFetchData 0; CallFetchData 1;
        PerfMeasure "fetchData-complete";
        Next (VStr "/login")]).
Proof.
  apply (useFetchDataClient_resolves Cases.getMatchedComponents () (route "/")
           (Some Cases.telling_hooks) (route "/fetch") (route "/a") (world0 [] [])
           [Cases.fetching VNull; Cases.fetching (VStr "/login"); plain]
           (VStr "ignored") VUndefined VUndefined
           [VNull; VStr "/login"; VUndefined] eq_refl).
  - discriminate.
  - intros c Hc.
    repeat (apply elem_of_cons in Hc as [->|Hc]; [reflexivity|]).
    by apply elem_of_nil in Hc.
  - intros ? ?. reflexivity.
  - intros ? ?. reflexivity.
  - repeat constructor.
  - reflexivity.
Defined.

(** X13 at the route [/fetch]: the first component declines every update
    by policy and is fetched all the same. *)
Lemma useFetchDataServer_resolves_witness :
  c_shouldProcessRouteUpdate (Cases.reluctant_fetching VNull)
  = PolicyFn (λ _, VBool false)
  ∧ useFetchDataServer Cases.router_getMatchedComponents currentRoute None ()
      (route "/fetch") (Some Cases.telling_hooks) (world0 [] [])
    = (inr (),
       logged (world0 [] [])
         [ConsoleLog; CallMiddleware; CallGlobalFetchData;
          CallFetchData 0; CallFetchData 2]).
Proof.
  split; [reflexivity|].
  apply (@useFetchDataServer_resolves testHost
           Cases.router_getMatchedComponents currentRoute None () (route "/fetch") (Some Cases.telling_hooks) (world0 [] [])
           (VStr "ignored") VUndefined VUndefined
           [VNull; VUndefined; VStr "done"]).
  - intros ? ?. reflexivity.
  - intros ? ?. reflexivity.
  - repeat constructor.
  - reflexivity.
Defined.

(** X8 at [/a -> /nowhere] and at [/a], left for [/nowhere]: the provider
    throws for [/nowhere] and the hook throws the same error. *)
Lemma postCommit_provider_throws_witness :
  let w := world0 [["a"]] ["a"] in
  let e := VError "Cannot read properties of undefined" in
  getMatchedComponents (route "/nowhere") = inl e
  ∧ useRouteVuexModulesClient_afterEach getMatchedComponents () (route "/")
      (route "/nowhere") (route "/a") w = (inl e, w)
  ∧ useRouteVuexModulesClient_afterEach getMatchedComponents () (route "/")
      (route "/a") (route "/nowhere") w = (inl e, w).
Proof.
  intros w e.
  destruct (@postCommit_provider_throws testHost getMatchedComponents ()
              (route "/") (route "/nowhere") (route "/a") w e) as [Hto _].
  destruct (@postCommit_provider_throws testHost getMatchedComponents ()
              (route "/") (route "/a") (route "/nowhere") w e) as [_ Hfrom].
  split; [reflexivity|]. split; [exact (Hto eq_refl)|].
  apply (Hfrom [declaring [name_of_path]]); [reflexivity| |reflexivity].
  exists (declaring [name_of_path]). split; [apply list_elem_of_here|reflexivity].
Defined.

(** X15 for the navigation [a -> b] and the label [junk], on an API that
    holds the trace of [x -> a] and a mark of another library. *)
Lemma perfMeasure_after_perfInit_witness :
  let es :=
    [Perf.MarkEntry "urbnperf|x->a|start"; Perf.MarkEntry "other";
     Perf.MeasureEntry "urbnperf|x->a|beforeResolve" "urbnperf|x->a|start"] in
  let to := named "b" (route "/b") in
  let from := named "a" (route "/a") in
  Perf.perfMeasure "junk" (Perf.PerfObject (Perf.mkPerformance true (Perf.perfInit to from es)))
  = (inr true,
     Perf.PerfObject
       (Perf.mkPerformance true
          [Perf.MarkEntry "other"; Perf.MarkEntry "urbnperf|a->b|start";
           Perf.MeasureEntry "urbnperf|a->b|junk" "urbnperf|a->b|start"])).
Proof.
  intros es to from.
  destruct (perfMeasure_after_perfInit to from es "junk") as [Hrun _].
  exact Hrun.
Defined.

(** X19 for a template change, a client build and a failed server build:
    no bundle was delivered, so [cb] and [ready] were not called. *)
Lemma setupDevServer_waits_for_both_witness :
  let cs :=
    [DevServer.TemplateChanged (inr "<html>");
     DevServer.ClientDone 0 (inr (VObj [("all", VArr [])]));
     DevServer.ServerDone VNull 1 (inr (VObj []))] in
  existsb delivers_bundle cs = false
  ∧ cb_calls (DevServer.run (DevServer.init "<div>") cs).2 = []
  ∧ DevServer.readyPromise (DevServer.run (DevServer.init "<div>") cs).1 = None.
Proof.
  intros cs. split; [reflexivity|].
  destruct (setupDevServer_waits_for_both "<div>" cs (or_introl eq_refl))
    as (Hcb & _ & Hready).
  split; [exact Hcb|exact Hready].
Defined.

End FurtherWitnesses.
